(** * Release resolution and staged rollout of the JetKVM cloud API

    A shallow embedding of [src/helpers.ts], of the request handlers of
    [src/releases.ts] and of the middleware of [src/auth.ts], with the
    properties of the release-resolution core proved about it.

    Conventions of the embedding.
    - A JavaScript string is a Rocq [string] holding its UTF-8 bytes; all
      the strings the handlers build themselves are ASCII.
    - A JavaScript [number] that the code computes with is [number] below
      (an integer or NaN); database integers are [Z].
    - A function that can throw returns a [Result]; the handlers, which
      read and write the two caches and the release table, live in the
      state-and-exception monad [M].
    - What the code imports from npm packages and from Node is modelled in
      the modules [JS], [Crypto] and [Semver]; the S3 client is a record of
      functions, one per command the code sends. *)

From Stdlib Require Import ZArith Lia Bool Ascii String.
From Stdlib Require Import Init.Byte.
From stdpp Require Import base list strings gmap.

Set Default Proof Using "Type".

(* ===================================================================== *)
(** ** JavaScript strings and numbers *)
(* ===================================================================== *)

Module JS.

(** A JavaScript number as far as the code uses one: an integer, or NaN
    (what [parseInt] gives when there is no digit to read). *)
Inductive number : Type :=
| NaN
| Int (z : Z).

(** [a % b] on numbers (the sign follows the dividend; NaN when [b] is 0). *)
Definition rem (a b : number) : number :=
  match a, b with
  | Int x, Int y => if (y =? 0)%Z then NaN else Int (Z.rem x y)
  | _, _ => NaN
  end.

(** [a < b] on numbers: false as soon as one side is NaN. *)
Definition lt (a b : number) : bool :=
  match a, b with
  | Int x, Int y => (x <? y)%Z
  | _, _ => false
  end.

(** Truthiness of a string: every string but the empty one. *)
Definition truthy (s : string) : bool :=
  match s with
  | EmptyString => false
  | String _ _ => true
  end.

(** Truthiness of an optional string ([undefined] is falsy). *)
Definition truthy_opt (o : option string) : bool :=
  match o with
  | None => false
  | Some s => truthy s
  end.

Definition code (c : ascii) : nat := nat_of_ascii c.

(** White space and line terminators that [trim] removes: the one-byte
    ones, and the UTF-8 encodings of U+00A0, U+1680, U+2000..U+200A,
    U+2028, U+2029, U+202F, U+205F, U+3000 and U+FEFF. *)
Definition is_ws1 (c : ascii) : bool :=
  let n := code c in
  ((9 <=? n) && (n <=? 13)) || (n =? 32).

Definition is_ws2 (c1 c2 : ascii) : bool :=
  (code c1 =? 194) && (code c2 =? 160).

Definition is_ws3 (c1 c2 c3 : ascii) : bool :=
  let a := code c1 in
  let b := code c2 in
  let c := code c3 in
  ((a =? 225) && (b =? 154) && (c =? 128))
  || ((a =? 226) && (b =? 128)
      && (((128 <=? c) && (c <=? 138)) || (c =? 168) || (c =? 169) || (c =? 175)))
  || ((a =? 226) && (b =? 129) && (c =? 159))
  || ((a =? 227) && (b =? 128) && (c =? 128))
  || ((a =? 239) && (b =? 187) && (c =? 191)).

(** Removes leading white space; with [back] the string is a reversed one
    and the multi-byte sequences are matched backwards. *)
Fixpoint strip (back : bool) (s : string) : string :=
  match s with
  | EmptyString => EmptyString
  | String c1 s1 =>
      if is_ws1 c1 then strip back s1
      else
        match s1 with
        | EmptyString => s
        | String c2 s2 =>
            if (if back then is_ws2 c2 c1 else is_ws2 c1 c2) then strip back s2
            else
              match s2 with
              | EmptyString => s
              | String c3 s3 =>
                  if (if back then is_ws3 c3 c2 c1 else is_ws3 c1 c2 c3)
                  then strip back s3
                  else s
              end
        end
  end.

Definition trimStart (s : string) : string := strip false s.

Definition trimEnd (s : string) : string :=
  String.rev (strip true (String.rev s)).

Definition trim (s : string) : string := trimEnd (trimStart s).

(** [s.split(sep)] for a one-character separator. *)
Fixpoint split_go (sep : ascii) (cur : string) (s : string) : list string :=
  match s with
  | EmptyString => [String.rev cur]
  | String c s' =>
      if Ascii.eqb c sep then String.rev cur :: split_go sep EmptyString s'
      else split_go sep (String c cur) s'
  end.

Definition split (sep : ascii) (s : string) : list string :=
  split_go sep EmptyString s.

(** [s.substring(0, n)]. *)
Definition substring0 (n : nat) (s : string) : string :=
  String.substring 0 n s.

(** The value of a hexadecimal digit, either case. *)
Definition hexval (c : ascii) : option Z :=
  let n := code c in
  if (48 <=? n) && (n <=? 57) then Some (Z.of_nat (n - 48))
  else if (97 <=? n) && (n <=? 102) then Some (Z.of_nat (n - 87))
  else if (65 <=? n) && (n <=? 70) then Some (Z.of_nat (n - 55))
  else None.

(** Reads the longest run of hexadecimal digits at the head of [s]; [None]
    when [s] does not start with one. *)
Fixpoint hexrun (acc : Z) (seen : bool) (s : string) : option Z :=
  match s with
  | EmptyString => if seen then Some acc else None
  | String c s' =>
      match hexval c with
      | Some d => hexrun (16 * acc + d)%Z true s'
      | None => if seen then Some acc else None
      end
  end.

(** [parseInt(s, 16)]: leading white space, an optional sign and an
    optional [0x] are skipped, then the longest run of hexadecimal digits
    is read; NaN when there is none.  (JavaScript rounds a value above
    2^53 to a double; the code only reads eight digits.) *)
Definition parseInt16 (s : string) : number :=
  let s0 := trimStart s in
  let '(neg, s1) :=
    match s0 with
    | String "-" r => (true, r)
    | String "+" r => (false, r)
    | _ => (false, s0)
    end in
  let s2 :=
    match s1 with
    | String "0" (String "x" r) => r
    | String "0" (String "X" r) => r
    | _ => s1
    end in
  match hexrun 0 false s2 with
  | Some v => Int (if neg then (- v)%Z else v)
  | None => NaN
  end.

(** The UTF-8 bytes of a string, as numbers. *)
Fixpoint bytes_of_string (s : string) : list Z :=
  match s with
  | EmptyString => []
  | String c s' => Z.of_nat (code c) :: bytes_of_string s'
  end.

(** [s.length]: the UTF-16 code units of the string.  A character
    written with one, two or three bytes is one unit and a character
    written with four bytes is two; the bytes that continue a character
    count for nothing. *)
Fixpoint utf16_length (s : string) : nat :=
  match s with
  | EmptyString => O
  | String c s' =>
      let n := code c in
      ((if (128 <=? n) && (n <=? 191) then 0
        else if 240 <=? n then 2 else 1) + utf16_length s')%nat
  end.

(** [+s] for a string of decimal digits of value [n]: the double nearest
    to [n], ties to the even mantissa; it is [n] below 2^53.  (Such a
    string has at most 256 digits, far from the largest double.) *)
Definition to_double (n : N) : N :=
  if (n <? 2 ^ 53)%N then n
  else
    let e := (N.log2 n - 52)%N in
    let q := N.shiftr n e in
    let r := (n - N.shiftl q e)%N in
    let half := N.shiftl 1 (e - 1) in
    let q' := if (half <? r)%N || ((r =? half)%N && N.odd q) then (q + 1)%N else q in
    N.shiftl q' e.

(** [buffer.toString("utf-8")]: the bytes read as UTF-8, as the decoder
    of the Encoding Standard reads them: a byte that cannot start a
    character, and a character that is cut short or continued by a byte
    out of its bounds, become U+FFFD (EF BF BD), and the byte that cut a
    character short is read again as the start of the next one. *)
Record utf8_state : Type := {
  pending : list byte;
  needed : nat;
  lower : N;
  upper : N
}.

Definition utf8_idle : utf8_state :=
  {| pending := []; needed := 0; lower := 128; upper := 191 |}.

Definition replacement : list byte := [Byte.xef; Byte.xbf; Byte.xbd].

(** A byte where a character starts: what is written out, and the state
    after it. *)
Definition utf8_lead (b : byte) : list byte * utf8_state :=
  let n := Byte.to_N b in
  if (n <=? 127)%N then ([b], utf8_idle)
  else if (194 <=? n)%N && (n <=? 223)%N then
    ([], {| pending := [b]; needed := 1; lower := 128; upper := 191 |})
  else if (224 <=? n)%N && (n <=? 239)%N then
    ([], {| pending := [b]; needed := 2;
            lower := if (n =? 224)%N then 160 else 128;
            upper := if (n =? 237)%N then 159 else 191 |})
  else if (240 <=? n)%N && (n <=? 244)%N then
    ([], {| pending := [b]; needed := 3;
            lower := if (n =? 240)%N then 144 else 128;
            upper := if (n =? 244)%N then 143 else 191 |})
  else (replacement, utf8_idle).

Definition utf8_step (st : utf8_state) (b : byte) : list byte * utf8_state :=
  match needed st with
  | O => utf8_lead b
  | S k =>
      let n := Byte.to_N b in
      if (lower st <=? n)%N && (n <=? upper st)%N then
        match k with
        | O => (pending st ++ [b], utf8_idle)
        | S _ =>
            ([], {| pending := pending st ++ [b]; needed := k;
                    lower := 128; upper := 191 |})
        end
      else
        let '(out, st') := utf8_lead b in
        (replacement ++ out, st')
  end.

Fixpoint utf8_run (st : utf8_state) (bs : list byte) : list byte :=
  match bs with
  | [] => match needed st with O => [] | S _ => replacement end
  | b :: bs' =>
      let '(out, st') := utf8_step st b in
      out ++ utf8_run st' bs'
  end.

Definition utf8_decode (bs : list byte) : string :=
  String.string_of_list_byte (utf8_run utf8_idle bs).

End JS.

(* ===================================================================== *)
(** ** Node's [crypto]: MD5 and SHA-256 *)
(* ===================================================================== *)

Module Crypto.

Local Open Scope Z_scope.

(** 32-bit words are integers in [0, 2^32); every operation wraps
    around by keeping the low 32 bits. *)
Definition low32 (x : Z) : Z := Z.land x 0xffffffff.
Definition add32 (x y : Z) : Z := low32 (x + y).
Definition not32 (x : Z) : Z := Z.lxor x 0xffffffff.
Definition rotl32 (x n : Z) : Z :=
  Z.lor (low32 (Z.shiftl x n)) (Z.shiftr x (32 - n)).
Definition rotr32 (x n : Z) : Z :=
  Z.lor (Z.shiftr x n) (low32 (Z.shiftl x (32 - n))).

(** Little-endian and big-endian bytes of a number, [n] bytes wide. *)
Fixpoint le_bytes (n : nat) (x : Z) : list Z :=
  match n with
  | O => []
  | S n' => x mod 256 :: le_bytes n' (x / 256)
  end.

Definition be_bytes (n : nat) (x : Z) : list Z := rev (le_bytes n x).

Fixpoint le_word (bs : list Z) : Z :=
  match bs with
  | [] => 0
  | b :: bs' => b + 256 * le_word bs'
  end.

Definition be_word (bs : list Z) : Z := le_word (rev bs).

(** The message cut into blocks of [n] items. *)
Fixpoint blocks_go {A} (fuel n : nat) (l : list A) : list (list A) :=
  match fuel with
  | O => []
  | S fuel' =>
      match l with
      | [] => []
      | _ => firstn n l :: blocks_go fuel' n (skipn n l)
      end
  end.

Definition blocks {A} (n : nat) (l : list A) : list (list A) :=
  blocks_go (length l) n l.

(** Padding shared by both digests: a 0x80 byte, zero bytes up to 56
    modulo 64, then the bit length in 8 bytes. *)
Definition pad (len_bytes : nat -> Z -> list Z) (msg : list Z) : list Z :=
  let len := length msg in
  let zeros := ((119 - len mod 64) mod 64)%nat in
  msg ++ [0x80] ++ repeat 0 zeros
      ++ len_bytes 8%nat ((8 * Z.of_nat len) mod 2 ^ 64).

(** Lower-case hexadecimal digits, as [digest("hex")] writes them. *)
Definition hexdigit (n : Z) : ascii :=
  match n with
  | 0 => "0" | 1 => "1" | 2 => "2" | 3 => "3" | 4 => "4" | 5 => "5"
  | 6 => "6" | 7 => "7" | 8 => "8" | 9 => "9" | 10 => "a" | 11 => "b"
  | 12 => "c" | 13 => "d" | 14 => "e" | _ => "f"
  end%char.

Fixpoint hex (bs : list Z) : string :=
  match bs with
  | [] => EmptyString
  | b :: bs' => String (hexdigit (b / 16)) (String (hexdigit (b mod 16)) (hex bs'))
  end.

(** *** MD5 (RFC 1321) *)

Definition md5_K : list Z :=
  [ 0xd76aa478; 0xe8c7b756; 0x242070db; 0xc1bdceee;
    0xf57c0faf; 0x4787c62a; 0xa8304613; 0xfd469501;
    0x698098d8; 0x8b44f7af; 0xffff5bb1; 0x895cd7be;
    0x6b901122; 0xfd987193; 0xa679438e; 0x49b40821;
    0xf61e2562; 0xc040b340; 0x265e5a51; 0xe9b6c7aa;
    0xd62f105d; 0x02441453; 0xd8a1e681; 0xe7d3fbc8;
    0x21e1cde6; 0xc33707d6; 0xf4d50d87; 0x455a14ed;
    0xa9e3e905; 0xfcefa3f8; 0x676f02d9; 0x8d2a4c8a;
    0xfffa3942; 0x8771f681; 0x6d9d6122; 0xfde5380c;
    0xa4beea44; 0x4bdecfa9; 0xf6bb4b60; 0xbebfbc70;
    0x289b7ec6; 0xeaa127fa; 0xd4ef3085; 0x04881d05;
    0xd9d4d039; 0xe6db99e5; 0x1fa27cf8; 0xc4ac5665;
    0xf4292244; 0x432aff97; 0xab9423a7; 0xfc93a039;
    0x655b59c3; 0x8f0ccc92; 0xffeff47d; 0x85845dd1;
    0x6fa87e4f; 0xfe2ce6e0; 0xa3014314; 0x4e0811a1;
    0xf7537e82; 0xbd3af235; 0x2ad7d2bb; 0xeb86d391 ].

Definition md5_S : list Z :=
  [ 7; 12; 17; 22; 7; 12; 17; 22; 7; 12; 17; 22; 7; 12; 17; 22;
    5; 9; 14; 20; 5; 9; 14; 20; 5; 9; 14; 20; 5; 9; 14; 20;
    4; 11; 16; 23; 4; 11; 16; 23; 4; 11; 16; 23; 4; 11; 16; 23;
    6; 10; 15; 21; 6; 10; 15; 21; 6; 10; 15; 21; 6; 10; 15; 21 ].

Record md5_state : Type := MD5 { mA : Z; mB : Z; mC : Z; mD : Z }.

Definition md5_init : md5_state :=
  MD5 0x67452301 0xefcdab89 0x98badcfe 0x10325476.

(** One of the 64 steps on a block of sixteen little-endian words. *)
Definition md5_step (M : list Z) (st : md5_state) (i : nat) : md5_state :=
  let '(MD5 a b c d) := st in
  let '(f, g) :=
    if (i <? 16)%nat then
      (Z.lor (Z.land b c) (Z.land (not32 b) d), i)
    else if (i <? 32)%nat then
      (Z.lor (Z.land d b) (Z.land (not32 d) c), ((5 * i + 1) mod 16)%nat)
    else if (i <? 48)%nat then
      (Z.lxor (Z.lxor b c) d, ((3 * i + 5) mod 16)%nat)
    else
      (Z.lxor c (Z.lor b (not32 d)), ((7 * i) mod 16)%nat) in
  let f' := add32 (add32 (add32 f a) (nth i md5_K 0)) (nth g M 0) in
  MD5 d (add32 b (rotl32 f' (nth i md5_S 0))) b c.

Definition md5_block (st : md5_state) (block : list Z) : md5_state :=
  let M := map le_word (blocks 4 block) in
  let '(MD5 a b c d) := fold_left (md5_step M) (seq 0 64) st in
  MD5 (add32 (mA st) a) (add32 (mB st) b) (add32 (mC st) c) (add32 (mD st) d).

(** The sixteen bytes of the digest. *)
Definition md5 (msg : list Z) : list Z :=
  let '(MD5 a b c d) := fold_left md5_block (blocks 64 (pad le_bytes msg)) md5_init in
  le_bytes 4 a ++ le_bytes 4 b ++ le_bytes 4 c ++ le_bytes 4 d.

(** [createHash("md5").update(s).digest("hex")] *)
Definition md5_hex (s : string) : string := hex (md5 (JS.bytes_of_string s)).

(** *** SHA-256 (FIPS 180-4) *)

(** The constants are defined as FIPS 180-4 defines them: from the
    first sixty-four primes, the first 32 bits of the fractional parts of
    their cube roots (the round constants) and, for the first eight, of
    their square roots (the initial hash value). *)
Definition is_prime (n : nat) : bool :=
  forallb (fun d => negb (n mod d =? 0)%nat) (seq 2 (n - 2)).

Definition primes64 : list Z :=
  map Z.of_nat (firstn 64 (List.filter is_prime (seq 2 310))).

(** The integer cube root, one bit after the other from bit [bits - 1]. *)
Fixpoint cube_root_bits (bits : nat) (n r : Z) : Z :=
  match bits with
  | O => r
  | S b =>
      let c := r + 2 ^ Z.of_nat b in
      cube_root_bits b n (if c * c * c <=? n then c else r)
  end.

Definition sha256_K : list Z :=
  map (fun p => low32 (cube_root_bits 36 (p * 2 ^ 96) 0)) primes64.

Definition sha256_init : list Z :=
  map (fun p => low32 (Z.sqrt (p * 2 ^ 64))) (firstn 8 primes64).

Definition xor3 (x y z : Z) : Z := Z.lxor (Z.lxor x y) z.
Definition Ch (x y z : Z) : Z := Z.lxor (Z.land x y) (Z.land (not32 x) z).
Definition Maj (x y z : Z) : Z := xor3 (Z.land x y) (Z.land x z) (Z.land y z).
Definition bigSigma0 (x : Z) : Z := xor3 (rotr32 x 2) (rotr32 x 13) (rotr32 x 22).
Definition bigSigma1 (x : Z) : Z := xor3 (rotr32 x 6) (rotr32 x 11) (rotr32 x 25).
Definition smallSigma0 (x : Z) : Z := xor3 (rotr32 x 7) (rotr32 x 18) (Z.shiftr x 3).
Definition smallSigma1 (x : Z) : Z := xor3 (rotr32 x 17) (rotr32 x 19) (Z.shiftr x 10).

(** The message schedule, kept newest first: [W] holds W(t-1), W(t-2), ... *)
Definition schedule_step (W : list Z) (_ : nat) : list Z :=
  add32 (add32 (smallSigma1 (nth 1 W 0)) (nth 6 W 0))
        (add32 (smallSigma0 (nth 14 W 0)) (nth 15 W 0)) :: W.

Definition schedule (block : list Z) : list Z :=
  rev (fold_left schedule_step (seq 16 48) (rev (map be_word (blocks 4 block)))).

Definition sha256_round (st : list Z) (kw : Z * Z) : list Z :=
  match st with
  | [a; b; c; d; e; f; g; h] =>
      let t1 := add32 (add32 (add32 h (bigSigma1 e)) (add32 (Ch e f g) (fst kw))) (snd kw) in
      let t2 := add32 (bigSigma0 a) (Maj a b c) in
      [add32 t1 t2; a; b; c; add32 d t1; e; f; g]
  | _ => st
  end.

Definition sha256_block (st : list Z) (block : list Z) : list Z :=
  let st' := fold_left sha256_round (combine sha256_K (schedule block)) st in
  map (fun p => add32 (fst p) (snd p)) (combine st st').

(** The thirty-two bytes of the digest. *)
Definition sha256 (msg : list Z) : list Z :=
  concat (map (be_bytes 4) (fold_left sha256_block (blocks 64 (pad be_bytes msg)) sha256_init)).

(** [createHash("sha256").update(bytes).digest("hex")] *)
Definition sha256_hex (content : list byte) : string :=
  hex (sha256 (map (fun b => Z.of_N (Byte.to_N b)) content)).

End Crypto.

(* ===================================================================== *)
(** ** The npm package [semver] *)
(* ===================================================================== *)

(** Versions are parsed, ordered and matched as version 7 of the package
    does in its default (strict) mode.  How a range string is read into
    comparators is left to a [RangeSyntax]: the code only hands range
    strings over. *)

Module Semver.

Definition MAX_LENGTH : nat := 256.
Definition MAX_SAFE_INTEGER : N := 9007199254740991.

(** A prerelease identifier: a number, or text with a letter or a dash. *)
Inductive Identifier : Type :=
| NumId (n : N)
| AlnumId (s : string).

Record SemVer : Type := mkSemVer {
  major : N;
  minor : N;
  patch : N;
  prerelease : list Identifier;
  build : list string
}.

Definition is_digit (c : ascii) : bool :=
  (48 <=? JS.code c) && (JS.code c <=? 57).

Definition is_letter (c : ascii) : bool :=
  let n := JS.code c in
  ((65 <=? n) && (n <=? 90)) || ((97 <=? n) && (n <=? 122)).

(** [[0-9A-Za-z-]] *)
Definition is_idchar (c : ascii) : bool :=
  is_digit c || is_letter c || (JS.code c =? 45).

Fixpoint all_chars (p : ascii -> bool) (s : string) : bool :=
  match s with
  | EmptyString => true
  | String c s' => p c && all_chars p s'
  end.

Fixpoint decimal (acc : N) (s : string) : N :=
  match s with
  | EmptyString => acc
  | String c s' => decimal (10 * acc + N.of_nat (JS.code c - 48))%N s'
  end.

(** [0|[1-9]\d*] *)
Definition numeric_id (s : string) : option N :=
  match s with
  | EmptyString => None
  | String c EmptyString => if is_digit c then Some (decimal 0 s) else None
  | String c _ =>
      if (JS.code c =? 48) then None
      else if all_chars is_digit s then Some (decimal 0 s) else None
  end.

(** [0|[1-9]\d*|\d*[a-zA-Z-][a-zA-Z0-9-]*] *)
Definition prerelease_id (s : string) : option Identifier :=
  if negb (JS.truthy s) || negb (all_chars is_idchar s) then None
  else if all_chars is_digit s then NumId <$> numeric_id s
  else Some (AlnumId s).

(** [[0-9A-Za-z-]+] *)
Definition build_id (s : string) : option string :=
  if JS.truthy s && all_chars is_idchar s then Some s else None.

(** Cuts [s] at the first [sep]: what is before it, and what is after it
    when there is one. *)
Fixpoint cut (sep : ascii) (s : string) : string * option string :=
  match s with
  | EmptyString => (EmptyString, None)
  | String c s' =>
      if Ascii.eqb c sep then (EmptyString, Some s')
      else let '(l, r) := cut sep s' in (String c l, r)
  end.

(** [new SemVer(version)]: [None] where the constructor throws.  The
    text, of at most 256 UTF-16 code units, is trimmed, may start with
    [v], and is [major.minor.patch(-prerelease)?(+build)?]. *)
Definition parse (version : string) : option SemVer :=
  if (MAX_LENGTH <? JS.utf16_length version) then None
  else
    let s := JS.trim version in
    let s := match s with String "v" r => r | _ => s end in
    let '(l, b) := cut "+" s in
    let '(m, p) := cut "-" l in
    match JS.split "." m with
    | [x; y; z] =>
        ma ← numeric_id x;
        mi ← numeric_id y;
        pa ← numeric_id z;
        if ((MAX_SAFE_INTEGER <? ma) || (MAX_SAFE_INTEGER <? mi)
            || (MAX_SAFE_INTEGER <? pa))%N
        then None
        else
          pre ← match p with
                | None => Some []
                | Some p' => mapM prerelease_id (JS.split "." p')
                end;
          bld ← match b with
                | None => Some []
                | Some b' => mapM build_id (JS.split "." b')
                end;
          Some (mkSemVer ma mi pa pre bld)
    | _ => None
    end.

(** [semver.valid(v)] is the cleaned version, a non-empty string, or
    null; the code only uses it as a filter predicate. *)
Definition valid (v : string) : bool :=
  match parse v with
  | Some _ => true
  | None => false
  end.

(** [compareIdentifiers]: numbers before text, text by code unit, and
    numbers as the doubles they convert to: two numbers of 2^53 or more
    that round to the same double compare equal. *)
Definition compareIdentifiers (a b : Identifier) : comparison :=
  match a, b with
  | NumId x, NumId y => N.compare (JS.to_double x) (JS.to_double y)
  | NumId _, AlnumId _ => Lt
  | AlnumId _, NumId _ => Gt
  | AlnumId x, AlnumId y => String.compare x y
  end.

(** [a === b] on the identifiers of two versions. *)
Definition same_identifier (a b : Identifier) : bool :=
  match a, b with
  | NumId x, NumId y => (x =? y)%N
  | AlnumId x, AlnumId y => String.eqb x y
  | _, _ => false
  end.

(** The loop of [comparePre]: identifiers that are the same are passed
    over, and the first two that are not decide, also when
    [compareIdentifiers] finds them equal. *)
Fixpoint compareIds (a b : list Identifier) : comparison :=
  match a, b with
  | [], [] => Eq
  | _ :: _, [] => Gt
  | [], _ :: _ => Lt
  | x :: a', y :: b' =>
      if same_identifier x y then compareIds a' b'
      else compareIdentifiers x y
  end.

Definition compareMain (a b : SemVer) : comparison :=
  match N.compare (major a) (major b) with
  | Eq =>
      match N.compare (minor a) (minor b) with
      | Eq => N.compare (patch a) (patch b)
      | c => c
      end
  | c => c
  end.

(** A version without prerelease is above the same one with. *)
Definition comparePre (a b : SemVer) : comparison :=
  match prerelease a, prerelease b with
  | _ :: _, [] => Lt
  | [], _ :: _ => Gt
  | [], [] => Eq
  | pa, pb => compareIds pa pb
  end.

(** [a.compare(b)]: [Lt] is -1, [Eq] is 0, [Gt] is 1. *)
Definition compare (a b : SemVer) : comparison :=
  match compareMain a b with
  | Eq => comparePre a b
  | c => c
  end.

Inductive Operator : Type := OpEq | OpLt | OpLte | OpGt | OpGte.

(** A comparator: [ANY] (the empty comparator, what [*] becomes), or an
    operator and a version. *)
Inductive Comparator : Type :=
| ANY
| Cmp (op : Operator) (v : SemVer).

(** A range: alternatives ([||]) of comparator sets. *)
Definition Range : Type := list (list Comparator).

Definition cmp (a : SemVer) (op : Operator) (b : SemVer) : bool :=
  match op, compare a b with
  | OpEq, Eq => true
  | OpLt, Lt => true
  | OpLte, (Lt | Eq) => true
  | OpGt, Gt => true
  | OpGte, (Gt | Eq) => true
  | _, _ => false
  end.

Definition Comparator_test (c : Comparator) (v : SemVer) : bool :=
  match c with
  | ANY => true
  | Cmp op sv => cmp v op sv
  end.

Definition has_prerelease (v : SemVer) : bool :=
  match prerelease v with
  | [] => false
  | _ :: _ => true
  end.

(** Whether comparator [c] allows prereleases of the tuple of [v]. *)
Definition allows_prerelease_of (v : SemVer) (c : Comparator) : bool :=
  match c with
  | ANY => false
  | Cmp _ sv =>
      has_prerelease sv
      && (major sv =? major v)%N && (minor sv =? minor v)%N
      && (patch sv =? patch v)%N
  end.

(** [testSet]: every comparator accepts [v]; and a prerelease [v] is
    accepted only with [includePrerelease], or when a comparator of the
    set names a prerelease of the same [major.minor.patch]. *)
Definition testSet (includePrerelease : bool) (set : list Comparator)
    (v : SemVer) : bool :=
  if forallb (fun c => Comparator_test c v) set then
    if has_prerelease v && negb includePrerelease
    then existsb (allows_prerelease_of v) set
    else true
  else false.

(** [range.test(v)] on a parsed version. *)
Definition Range_test (includePrerelease : bool) (r : Range) (v : SemVer) : bool :=
  existsb (fun set => testSet includePrerelease set v) r.

(** The part of the package that reads range strings.
    - [parseRange includePrerelease s] is [new Range(s, {includePrerelease})]:
      the comparator sets, or [None] where the constructor throws;
    - [validRange s] is [semver.validRange(s)]: the normalised range
      string, or [None] for null. *)
Class RangeSyntax : Type := {
  parseRange : bool -> string -> option Range;
  validRange : string -> option string
}.

(** What the package documents for [*]: it reads as the one comparator
    [ANY], with or without [includePrerelease]. *)
Definition star_is_any (RS : RangeSyntax) : Prop :=
  forall b, parseRange b "*" = Some [[ANY]].

(** [semver.satisfies(v, range, {includePrerelease})] *)
Definition satisfies `{RangeSyntax} (v : string) (range : string)
    (includePrerelease : bool) : bool :=
  match parseRange includePrerelease range, parse v with
  | Some r, Some sv => Range_test includePrerelease r sv
  | _, _ => false
  end.

(** One turn of the loop of [maxSatisfying]: [acc] is [max] with its
    parsed form [maxSV]. *)
Definition maxSatisfying_step (includePrerelease : bool) (r : Range)
    (acc : option (string * SemVer)) (v : string) : option (string * SemVer) :=
  match parse v with
  | None => acc
  | Some sv =>
      if Range_test includePrerelease r sv then
        match acc with
        | None => Some (v, sv)
        | Some (_, maxSV) =>
            match compare maxSV sv with
            | Lt => Some (v, sv)
            | _ => acc
            end
        end
      else acc
  end.

(** [semver.maxSatisfying(versions, range, {includePrerelease})]: the
    first of the highest versions of the list that satisfy the range, as
    it is written in the list; [None] is null. *)
Definition maxSatisfying `{RangeSyntax} (versions : list string) (range : string)
    (includePrerelease : bool) : option string :=
  match parseRange includePrerelease range with
  | None => None
  | Some r =>
      fst <$> fold_left (maxSatisfying_step includePrerelease r) versions None
  end.

(** A [RangeSyntax] to run the model on examples: it reads [*] and exact
    versions such as [1.2.3] or [1.2.3-rc.1] (no [v], no build, no
    spaces), on which it agrees with the package; no other string is in
    its domain. *)
Definition exact_version (s : string) : option SemVer :=
  match parse s with
  | Some sv =>
      if all_chars (fun c => is_idchar c || (JS.code c =? 46)) s
         && negb (String.prefix "v" s)
      then Some sv else None
  | None => None
  end.

Definition exactRanges : RangeSyntax := {|
  parseRange := fun _ s =>
    if String.eqb s "*" then Some [[ANY]]
    else (fun sv => [[Cmp OpEq sv]]) <$> exact_version s;
  validRange := fun s =>
    if String.eqb s "*" then Some "*"
    else (fun _ => s) <$> exact_version s
|}.

End Semver.

(* ===================================================================== *)
(** ** Errors, results and the S3 client *)
(* ===================================================================== *)

(** The exceptions the handlers can end with: the three classes of
    [src/errors], whatever [s3Client.send] rejects with (an error with a
    name, a message and perhaps an HTTP status), and the [TypeError] of
    the runtime. *)
Inductive Error : Type :=
| BadRequestError (message : string)
| NotFoundError (message : string)
| InternalServerError (message : string)
| S3Error (name : string) (message : string) (httpStatusCode : option N)
| TypeError (message : string).

Inductive Result (A : Type) : Type :=
| Ok (a : A)
| Throw (e : Error).

Arguments Ok {A} a.
Arguments Throw {A} e.

Definition Result_bind {A B} (r : Result A) (k : A -> Result B) : Result B :=
  match r with
  | Ok a => k a
  | Throw e => Throw e
  end.

Notation "'let!' x ':=' r 'in' k" := (Result_bind r (fun x => k))
  (at level 10, x pattern, r at level 100, k at level 200).

(** [error instanceof NotFoundError] *)
Definition is_NotFoundError (e : Error) : bool :=
  match e with
  | NotFoundError _ => true
  | _ => false
  end.

(** [`${error}`]: the name, a colon and the message, or the one of the
    two that is not empty.  [Retrieve] formats what the S3 client and the
    runtime throw.  For the classes of [src/errors], which name
    themselves, the class name stands in; the properties below quote the
    text of an error of the S3 client only. *)
Definition Error_toString (e : Error) : string :=
  let show name message :=
    if negb (JS.truthy name) then message
    else if negb (JS.truthy message) then name
    else name +:+ ": " +:+ message in
  match e with
  | BadRequestError m => show "BadRequestError" m
  | NotFoundError m => show "NotFoundError" m
  | InternalServerError m => show "InternalServerError" m
  | S3Error n m _ => show n m
  | TypeError m => show "TypeError" m
  end.

(** The artifact kinds, ["app" | "system"]. *)
Inductive ReleaseType : Type := app | system.

Definition ReleaseType_eqb (a b : ReleaseType) : bool :=
  match a, b with
  | app, app | system, system => true
  | _, _ => false
  end.

Definition type_name (t : ReleaseType) : string :=
  match t with
  | app => "app"
  | system => "system"
  end.

Record ListObjectsV2Input : Type := {
  Prefix : string;
  Delimiter : option string;
  MaxKeys : option N
}.

(** The keys under [Contents] and the prefixes under [CommonPrefixes];
    either may be left out of a response. *)
Record ListObjectsV2Output : Type := {
  Contents : option (list string);
  CommonPrefixes : option (list string)
}.

(** [Body] is a stream of chunks. *)
Record GetObjectCommandOutput : Type := {
  Body : option (list (list byte))
}.

(** [s3Client.send], one function per command. *)
Record S3Client : Type := {
  HeadObjectCommand : string -> Result unit;
  ListObjectsV2Command : ListObjectsV2Input -> Result ListObjectsV2Output;
  GetObjectCommand : string -> Result GetObjectCommandOutput
}.

(** A bucket held in memory, to run the handlers on examples: the
    objects are (key, content) pairs. *)
Definition memory_lookup (objects : list (string * list byte)) (key : string)
    : option (list byte) :=
  snd <$> find (fun o => String.eqb (fst o) key) objects.

Definition memoryS3 (objects : list (string * list byte)) : S3Client := {|
  HeadObjectCommand := fun key =>
    match memory_lookup objects key with
    | Some _ => Ok tt
    | None => Throw (S3Error "NotFound" "UnknownError" (Some 404%N))
    end;
  ListObjectsV2Command := fun input =>
    let keys := filter (fun k => String.prefix (Prefix input) k = true) (map fst objects) in
    let rest k := String.substring (String.length (Prefix input)) (String.length k) k in
    let folder k :=
      match Delimiter input with
      | Some (String d EmptyString) =>
          match Semver.cut d (rest k) with
          | (l, Some _) => Some (Prefix input +:+ l +:+ String d EmptyString)
          | (_, None) => None
          end
      | _ => None
      end in
    let capped (l : list string) :=
      match MaxKeys input with
      | Some n => firstn (N.to_nat n) l
      | None => l
      end in
    let some_if_any (l : list string) :=
      match l with
      | [] => None
      | _ => Some l
      end in
    Ok {| Contents := some_if_any (capped (filter (fun k => folder k = None) keys));
          CommonPrefixes := some_if_any (remove_dups (omap folder keys)) |};
  GetObjectCommand := fun key =>
    match memory_lookup objects key with
    | Some content => Ok {| Body := Some [content] |}
    | None => Throw (S3Error "NoSuchKey" "The specified key does not exist." (Some 404%N))
    end
|}.

(* ===================================================================== *)
(** ** The release table ([prisma.release]) and the two caches *)
(* ===================================================================== *)

Module Prisma.

(** A row of the table; [(version, type)] is its unique key. *)
Record Release : Type := {
  version : string;
  type : ReleaseType;
  rolloutPercentage : Z;
  url : string;
  hash : string
}.

(** The queries the handlers send, in the order they are sent. *)
Inductive Query : Type :=
| Upsert (version : string) (type : ReleaseType)
| FindMany (type : ReleaseType) (rolloutPercentage : Z).

Definition has_key (v : string) (t : ReleaseType) (r : Release) : bool :=
  String.eqb (version r) v && ReleaseType_eqb (type r) t.

Definition findUnique (v : string) (t : ReleaseType) (table : list Release)
    : option Release :=
  find (has_key v t) table.

(** [upsert({ where: { version_type }, update, create })] on the table:
    the row of that key with [update] applied to it, or else the table
    with the row [create] added; and the row that results. *)
Definition upsert (v : string) (t : ReleaseType) (update : Release -> Release)
    (create : Release) (table : list Release) : list Release * Release :=
  match findUnique v t table with
  | Some r =>
      (map (fun x => if has_key v t x then update x else x) table, update r)
  | None => (table ++ [create], create)
  end.

(** [findMany({ where: { type, rolloutPercentage } })] *)
Definition findMany (t : ReleaseType) (pct : Z) (table : list Release)
    : list Release :=
  List.filter (fun r => ReleaseType_eqb (type r) t && (rolloutPercentage r =? pct)%Z) table.

End Prisma.

Record ReleaseMetadata : Type := {
  version : string;
  url : string;
  hash : string;
  _cachedAt : option N;
  _maxSatisfying : option string
}.

(** A row seen as release metadata: it has no cache fields. *)
Definition metadata_of_row (r : Prisma.Release) : ReleaseMetadata := {|
  version := Prisma.version r;
  url := Prisma.url r;
  hash := Prisma.hash r;
  _cachedAt := None;
  _maxSatisfying := None
|}.

(** What a request can read and write: the two caches, the release table,
    and the journal of the queries sent to the table.  A cache is the map
    of the entries that are live while the request runs.  That an entry
    expires five minutes after it was set, and that setting an entry when
    a thousand are held evicts the least recently used one, is not part
    of the model: a world says nothing of what a cache holds later, and a
    property that spans two requests names the entries that have to be
    there still.  The table answers every query: a store that is down is
    not modelled either. *)
Record World : Type := {
  releaseCache : gmap string ReleaseMetadata;
  redirectCache : gmap string string;
  releases : list Prisma.Release;
  queries : list Prisma.Query
}.

(** State and exceptions: the world as it is left, also after a throw. *)
Definition M (A : Type) : Type := World -> Result A * World.

Definition ret {A} (a : A) : M A := fun w => (Ok a, w).

Definition throw {A} (e : Error) : M A := fun w => (Throw e, w).

Definition lift {A} (r : Result A) : M A := fun w => (r, w).

Definition bind {A B} (m : M A) (k : A -> M B) : M B :=
  fun w =>
    match m w with
    | (Ok a, w') => k a w'
    | (Throw e, w') => (Throw e, w')
    end.

Definition try_catch {A} (m : M A) (handler : Error -> M A) : M A :=
  fun w =>
    match m w with
    | (Ok a, w') => (Ok a, w')
    | (Throw e, w') => handler e w'
    end.

Notation "'let*' x ':=' m 'in' k" := (bind m (fun x => k))
  (at level 10, x pattern, m at level 100, k at level 200).

Definition releaseCache_get (key : string) : M (option ReleaseMetadata) :=
  fun w => (Ok (releaseCache w !! key), w).

Definition releaseCache_set (key : string) (v : ReleaseMetadata) : M unit :=
  fun w => (Ok tt, {| releaseCache := <[key := v]> (releaseCache w);
                      redirectCache := redirectCache w;
                      releases := releases w;
                      queries := queries w |}).

Definition redirectCache_get (key : string) : M (option string) :=
  fun w => (Ok (redirectCache w !! key), w).

Definition redirectCache_set (key : string) (v : string) : M unit :=
  fun w => (Ok tt, {| releaseCache := releaseCache w;
                      redirectCache := <[key := v]> (redirectCache w);
                      releases := releases w;
                      queries := queries w |}).

(** [prisma.release.upsert] with [select] of version, url,
    rolloutPercentage and hash. *)
Definition prisma_release_upsert (v : string) (t : ReleaseType)
    (update : Prisma.Release -> Prisma.Release) (create : Prisma.Release)
    : M Prisma.Release :=
  fun w =>
    let '(table, row) := Prisma.upsert v t update create (releases w) in
    (Ok row, {| releaseCache := releaseCache w;
                redirectCache := redirectCache w;
                releases := table;
                queries := queries w ++ [Prisma.Upsert v t] |}).

Definition prisma_release_findMany (t : ReleaseType) (pct : Z)
    : M (list Prisma.Release) :=
  fun w =>
    (Ok (Prisma.findMany t pct (releases w)),
     {| releaseCache := releaseCache w;
        redirectCache := redirectCache w;
        releases := releases w;
        queries := queries w ++ [Prisma.FindMany t pct] |}).

(* ===================================================================== *)
(** ** [src/helpers.ts] *)
(* ===================================================================== *)

(** Reading a stream that is not there is a [TypeError].  The engine
    words its message; the properties below do not depend on the
    wording. *)
Definition not_iterable : Error :=
  TypeError "stream is not async iterable".

(** [streamToString]: the chunks joined, read as UTF-8, [trimEnd]. *)
Definition streamToString (stream : option (list (list byte))) : Result string :=
  match stream with
  | None => Throw not_iterable
  | Some chunks => Ok (JS.trimEnd (JS.utf8_decode (concat chunks)))
  end.

(** [streamToBuffer]: the chunks joined. *)
Definition streamToBuffer (stream : option (list (list byte))) : Result (list byte) :=
  match stream with
  | None => Throw not_iterable
  | Some chunks => Ok (concat chunks)
  end.

Definition verifyHash (file hashFile : GetObjectCommandOutput)
    (exception : option string) : Result bool :=
  let! content := streamToBuffer (Body file) in
  let! remoteHash := streamToString (Body hashFile) in
  let localHash := Crypto.sha256_hex content in
  let matches := String.eqb (JS.trim remoteHash) localHash in
  if negb matches && JS.truthy_opt exception
  then Throw (InternalServerError (default EmptyString exception))
  else Ok matches.

Definition toSemverRange `{Semver.RangeSyntax} (range : option string) : string :=
  if negb (JS.truthy_opt range) then "*"
  else
    match Semver.validRange (default EmptyString range) with
    | Some r => if JS.truthy r then r else "*"
    | None => "*"
    end.

Definition getDeviceRolloutBucket (deviceId : string) : JS.number :=
  let hash := Crypto.md5_hex deviceId in
  let hashPrefix := JS.substring0 8 hash in
  JS.rem (JS.parseInt16 hashPrefix) (JS.Int 100).

(* ===================================================================== *)
(** ** [src/releases.ts] *)
(* ===================================================================== *)

Definition DEFAULT_SKU : string := "jetkvm-v2".

Definition quote : string := String "034"%char EmptyString.

(** The query string of a request, each parameter a string or absent.
    A parameter that is given more than once reaches the handlers as an
    array; the schemas refuse it with messages of their own, and such
    requests are not among the ones modelled here. *)
Record Request : Type := {
  query_deviceId : option string;
  query_prerelease : option string;
  query_appVersion : option string;
  query_systemVersion : option string;
  query_sku : option string;
  query_forceUpdate : option string
}.

(** [queryString]: [v || undefined] *)
Definition queryString (v : option string) : option string :=
  if JS.truthy_opt v then v else None.

(** [queryBoolean]: [v === "true"] *)
Definition queryBoolean (v : option string) : bool :=
  match v with
  | Some s => String.eqb s "true"
  | None => false
  end.

(** [querySku]: [v || DEFAULT_SKU] *)
Definition querySku (v : option string) : string :=
  if JS.truthy_opt v then default EmptyString v else DEFAULT_SKU.

(** The parsed queries, [LatestQuery] and [RetrieveQuery]. *)
Module Query.

Record Latest : Type := {
  prerelease : bool;
  sku : string
}.

Record Retrieve : Type := {
  deviceId : string;
  prerelease' : bool;
  appVersion : option string;
  systemVersion : option string;
  sku' : string;
  forceUpdate : bool
}.

End Query.

(** [parseQuery(latestQuerySchema, req)]: nothing is required. *)
Definition parseLatestQuery (req : Request) : Result Query.Latest :=
  Ok {| Query.prerelease := queryBoolean (query_prerelease req);
        Query.sku := querySku (query_sku req) |}.

(** [parseQuery(retrieveQuerySchema, req)]: the device id is required
    and not empty, or the request is a bad one. *)
Definition parseRetrieveQuery (req : Request) : Result Query.Retrieve :=
  match query_deviceId req with
  | Some (String c d) =>
      Ok {| Query.deviceId := String c d;
            Query.prerelease' := queryBoolean (query_prerelease req);
            Query.appVersion := queryString (query_appVersion req);
            Query.systemVersion := queryString (query_systemVersion req);
            Query.sku' := querySku (query_sku req);
            Query.forceUpdate := queryBoolean (query_forceUpdate req) |}
  | _ => Throw (BadRequestError "Device ID is required")
  end.

(** The response body of [Retrieve]; a field that was never set is left
    out of the JSON. *)
Record Release : Type := {
  appVersion : option string;
  appUrl : option string;
  appHash : option string;
  appCachedAt : option N;
  appMaxSatisfying : option string;
  systemVersion : option string;
  systemUrl : option string;
  systemHash : option string;
  systemCachedAt : option N;
  systemMaxSatisfying : option string
}.

Definition emptyRelease : Release :=
  {| appVersion := None; appUrl := None; appHash := None;
     appCachedAt := None; appMaxSatisfying := None;
     systemVersion := None; systemUrl := None; systemHash := None;
     systemCachedAt := None; systemMaxSatisfying := None |}.

Definition setAppRelease (release : Release) (appRelease : ReleaseMetadata) : Release :=
  {| appVersion := Some (version appRelease);
     appUrl := Some (url appRelease);
     appHash := Some (hash appRelease);
     appCachedAt := _cachedAt appRelease;
     appMaxSatisfying := _maxSatisfying appRelease;
     systemVersion := systemVersion release;
     systemUrl := systemUrl release;
     systemHash := systemHash release;
     systemCachedAt := systemCachedAt release;
     systemMaxSatisfying := systemMaxSatisfying release |}.

Definition setSystemRelease (release : Release) (systemRelease : ReleaseMetadata) : Release :=
  {| appVersion := appVersion release;
     appUrl := appUrl release;
     appHash := appHash release;
     appCachedAt := appCachedAt release;
     appMaxSatisfying := appMaxSatisfying release;
     systemVersion := Some (version systemRelease);
     systemUrl := Some (url systemRelease);
     systemHash := Some (hash systemRelease);
     systemCachedAt := _cachedAt systemRelease;
     systemMaxSatisfying := _maxSatisfying systemRelease |}.

Definition toRelease (appRelease systemRelease : option ReleaseMetadata) : Release :=
  let release := emptyRelease in
  let release :=
    match appRelease with
    | Some a => setAppRelease release a
    | None => release
    end in
  match systemRelease with
  | Some s => setSystemRelease release s
  | None => release
  end.

(** What a handler sends back. *)
Inductive Response : Type :=
| json (body : Release)
| redirect (status : N) (location : string).

(** What the process is started with: the S3 client, the CDN base URL,
    the clock read by each of the two lookups of a request, and which of
    two promises awaited together settles first. *)
Record Env : Type := {
  s3Client : S3Client;
  baseUrl : string;
  Date_now : ReleaseType -> N;
  firstSettlesFirst : bool
}.

(** [Promise.all] of two promises: both run; the first rejection to
    happen is the one reported. *)
Definition Promise_all {A B} (firstSettlesFirst : bool) (a : Result A) (b : Result B)
    : Result (A * B) :=
  match a, b with
  | Ok x, Ok y => Ok (x, y)
  | Throw e, Ok _ => Throw e
  | Ok _, Throw e => Throw e
  | Throw e1, Throw e2 => Throw (if firstSettlesFirst then e1 else e2)
  end.

(** Two lookups started together: both run to their end, on the caches
    one after the other (their keys differ), and [Promise.all] joins
    them. *)
Definition both {A B} (firstSettlesFirst : bool) (a : M A) (b : M B) : M (A * B) :=
  fun w =>
    let '(ra, w1) := a w in
    let '(rb, w2) := b w1 in
    (Promise_all firstSettlesFirst ra rb, w2).

Section Handlers.

Context `{RS : Semver.RangeSyntax} (env : Env).

Definition s3ObjectExists (key : string) : Result bool :=
  match HeadObjectCommand (s3Client env) key with
  | Ok _ => Ok true
  | Throw (S3Error name message status) =>
      if String.eqb name "NotFound" || String.eqb name "NoSuchKey"
         || bool_decide (status = Some 404%N)
      then Ok false
      else Throw (S3Error name message status)
  | Throw e => Throw e
  end.

Definition versionHasSkuSupport (prefix : ReleaseType) (version : string) : Result bool :=
  let! response :=
    ListObjectsV2Command (s3Client env)
      {| Prefix := type_name prefix +:+ "/" +:+ version +:+ "/skus/";
         Delimiter := None;
         MaxKeys := Some 1%N |} in
  Ok (0 <? length (default [] (Contents response))).

Definition resolveArtifactPath (prefix : ReleaseType) (version : string)
    (sku : string) (artifactOverride : option string) : Result string :=
  let artifact :=
    match artifactOverride with
    | Some a => a
    | None => match prefix with app => "jetkvm_app" | system => "system.tar" end
    end in
  let! hasSkus := versionHasSkuSupport prefix version in
  if hasSkus then
    let skuPath :=
      type_name prefix +:+ "/" +:+ version +:+ "/skus/" +:+ sku +:+ "/" +:+ artifact in
    let! found := s3ObjectExists skuPath in
    if found then Ok skuPath
    else Throw (NotFoundError
                  ("SKU " +:+ quote +:+ sku +:+ quote
                   +:+ " is not available for version " +:+ version))
  else if String.eqb sku DEFAULT_SKU then
    Ok (type_name prefix +:+ "/" +:+ version +:+ "/" +:+ artifact)
  else
    Throw (NotFoundError
             ("Version " +:+ version
              +:+ " predates SKU support and cannot serve SKU "
              +:+ quote +:+ sku +:+ quote)).

(** [cp.Prefix!.split("/")[1]] for each common prefix. *)
Definition versionFolders (commonPrefixes : list string) : list (option string) :=
  map (fun cp => JS.split "/" cp !! 1%nat) commonPrefixes.

(** [.filter(Boolean)] and then [.filter(v => semver.valid(v))]; without
    the first filter the result is the same, as [semver.valid] is null on
    what is not a string. *)
Definition validVersions (folders : list (option string)) : list string :=
  List.filter Semver.valid
    (omap (fun v : option string => if JS.truthy_opt v then v else None) folders).

Definition bool_name (b : bool) : string := if b then "true" else "false".

Definition getLatestVersion (prefix : ReleaseType) (includePrerelease : bool)
    (maxSatisfying : option string) (sku : string) : M ReleaseMetadata :=
  let maxSatisfying := default "*" maxSatisfying in
  let cacheKey :=
    type_name prefix +:+ "-" +:+ bool_name includePrerelease +:+ "-"
    +:+ maxSatisfying +:+ "-" +:+ sku in
  let* cached := releaseCache_get cacheKey in
  match cached with
  | Some c => ret c
  | None =>
      let* response :=
        lift (ListObjectsV2Command (s3Client env)
                {| Prefix := type_name prefix +:+ "/";
                   Delimiter := Some "/";
                   MaxKeys := None |}) in
      match CommonPrefixes response with
      | None | Some [] =>
          throw (NotFoundError ("No versions found under prefix " +:+ type_name prefix))
      | Some commonPrefixes =>
          let versions := validVersions (versionFolders commonPrefixes) in
          match versions with
          | [] =>
              throw (NotFoundError
                       ("No valid versions found under prefix " +:+ type_name prefix))
          | _ =>
              match Semver.maxSatisfying versions maxSatisfying includePrerelease with
              | None =>
                  throw (NotFoundError
                           ("No version found under prefix " +:+ type_name prefix
                            +:+ " that satisfies " +:+ maxSatisfying))
              | Some latestVersion =>
                  let* selectedPath :=
                    lift (resolveArtifactPath prefix latestVersion sku None) in
                  let url := baseUrl env +:+ "/" +:+ selectedPath in
                  let* hashResponse :=
                    lift (GetObjectCommand (s3Client env) (selectedPath +:+ ".sha256")) in
                  let* hash := lift (streamToString (Body hashResponse)) in
                  let release :=
                    {| version := latestVersion;
                       url := url;
                       hash := hash;
                       _cachedAt := Some (Date_now env prefix);
                       _maxSatisfying := Some maxSatisfying |} in
                  let* _ := releaseCache_set cacheKey release in
                  ret release
              end
          end
      end
  end.

Definition getReleaseFromS3 (includePrerelease : bool)
    (appVersion systemVersion : option string) (sku : string) : M Release :=
  let* (appRelease, systemRelease) :=
    both (firstSettlesFirst env)
      (getLatestVersion app includePrerelease appVersion sku)
      (getLatestVersion system includePrerelease systemVersion sku) in
  ret (toRelease (Some appRelease) (Some systemRelease)).

Definition isDeviceEligibleForLatestRelease (rolloutPercentage : Z)
    (deviceId : string) : bool :=
  if (rolloutPercentage =? 100)%Z then true
  else JS.lt (getDeviceRolloutBucket deviceId) (JS.Int rolloutPercentage).

Definition getDefaultRelease (type : ReleaseType) : M Prisma.Release :=
  let* rolledOutReleases := prisma_release_findMany type 100 in
  match rolledOutReleases with
  | [] =>
      throw (InternalServerError
               ("No default release found for type " +:+ type_name type))
  | _ =>
      let latestVersion :=
        Semver.maxSatisfying (map Prisma.version rolledOutReleases) "*" false in
      let latestDefaultRelease :=
        find (fun r => bool_decide (Some (Prisma.version r) = latestVersion))
             rolledOutReleases in
      match latestDefaultRelease with
      | None =>
          throw (InternalServerError
                   ("No default release found for type " +:+ type_name type))
      | Some r => ret r
      end
  end.

(** The row [create] of the two upserts of [Retrieve]. *)
Definition firstSeen (type : ReleaseType) (version url hash : option string)
    : Prisma.Release :=
  {| Prisma.version := default EmptyString version;
     Prisma.rolloutPercentage := 10;
     Prisma.url := default EmptyString url;
     Prisma.type := type;
     Prisma.hash := default EmptyString hash |}.

(** [Retrieve]; the constants [appVersion] and [systemVersion] of the
    source are [appRange] and [systemRange] here, the names being taken
    by the fields of the response. *)
Definition Retrieve (req : Request) : M Response :=
  let* query := lift (parseRetrieveQuery req) in
  let appRange := toSemverRange (Query.appVersion query) in
  let systemRange := toSemverRange (Query.systemVersion query) in
  let skipRollout :=
    negb (String.eqb appRange "*") || negb (String.eqb systemRange "*") in
  let* remoteRelease :=
    try_catch
      (getReleaseFromS3 (Query.prerelease' query)
         (Some appRange) (Some systemRange) (Query.sku' query))
      (fun error =>
         if is_NotFoundError error then throw error
         else throw (InternalServerError
                       ("Failed to get the latest release from S3: "
                        +:+ Error_toString error))) in
  if Query.prerelease' query || skipRollout then ret (json remoteRelease)
  else
    let* latestAppRelease :=
      prisma_release_upsert (default EmptyString (appVersion remoteRelease)) app
        (fun row => row)
        (firstSeen app (appVersion remoteRelease) (appUrl remoteRelease)
           (appHash remoteRelease)) in
    let* latestSystemRelease :=
      prisma_release_upsert (default EmptyString (systemVersion remoteRelease)) system
        (fun row => row)
        (firstSeen system (systemVersion remoteRelease) (systemUrl remoteRelease)
           (systemHash remoteRelease)) in
    if Query.forceUpdate query then
      ret (json (toRelease (Some (metadata_of_row latestAppRelease))
                           (Some (metadata_of_row latestSystemRelease))))
    else
      let* defaultAppRelease := getDefaultRelease app in
      let* defaultSystemRelease := getDefaultRelease system in
      let responseJson :=
        toRelease (Some (metadata_of_row defaultAppRelease))
                  (Some (metadata_of_row defaultSystemRelease)) in
      let responseJson :=
        if isDeviceEligibleForLatestRelease
             (Prisma.rolloutPercentage latestAppRelease) (Query.deviceId query)
        then setAppRelease responseJson (metadata_of_row latestAppRelease)
        else responseJson in
      let responseJson :=
        if isDeviceEligibleForLatestRelease
             (Prisma.rolloutPercentage latestSystemRelease) (Query.deviceId query)
        then setSystemRelease responseJson (metadata_of_row latestSystemRelease)
        else responseJson in
      ret (json responseJson).

Definition cachedRedirect (cachedKey : Query.Latest -> string)
    (callback : Query.Latest -> Result string) (req : Request) : M Response :=
  let* query := lift (parseLatestQuery req) in
  let cacheKey := cachedKey query in
  let* result := redirectCache_get cacheKey in
  if JS.truthy_opt result then ret (redirect 302 (default EmptyString result))
  else
    let* result := lift (callback query) in
    let* _ := redirectCache_set cacheKey result in
    ret (redirect 302 result).

Definition releaseCacheKey (prefix : string) (query : Query.Latest) : string :=
  prefix +:+ "-" +:+ (if Query.prerelease query then "pre" else "stable")
  +:+ "-" +:+ Query.sku query.

(** The artifact and its digest file, fetched together. *)
Definition getArtifactAndHash (artifactPath : string)
    : Result (GetObjectCommandOutput * GetObjectCommandOutput) :=
  Promise_all (firstSettlesFirst env)
    (GetObjectCommand (s3Client env) artifactPath)
    (GetObjectCommand (s3Client env) (artifactPath +:+ ".sha256")).

Definition has_body (o : GetObjectCommandOutput) : bool :=
  match Body o with
  | Some _ => true
  | None => false
  end.

Definition RetrieveLatestSystemRecovery_callback (query : Query.Latest) : Result string :=
  let! response :=
    ListObjectsV2Command (s3Client env)
      {| Prefix := "system/"; Delimiter := Some "/"; MaxKeys := None |} in
  match CommonPrefixes response with
  | None | Some [] =>
      Throw (NotFoundError "No versions found under prefix system recovery image")
  | Some commonPrefixes =>
      let versions := validVersions (versionFolders commonPrefixes) in
      match Semver.maxSatisfying versions "*" (Query.prerelease query) with
      | None => Throw (NotFoundError "No valid system recovery versions found")
      | Some latestVersion =>
          let! artifactPath :=
            resolveArtifactPath system latestVersion (Query.sku query)
              (Some "update.img") in
          let! (firmwareFile, hashFile) := getArtifactAndHash artifactPath in
          if negb (has_body firmwareFile) || negb (has_body hashFile) then
            Throw (NotFoundError
                     ("No system recovery image or hash file not found for version "
                      +:+ latestVersion))
          else
            let! _ :=
              verifyHash firmwareFile hashFile
                (Some "system recovery image hash does not match") in
            Ok (baseUrl env +:+ "/" +:+ artifactPath)
      end
  end.

Definition RetrieveLatestSystemRecovery : Request -> M Response :=
  cachedRedirect (releaseCacheKey "system-recovery")
    RetrieveLatestSystemRecovery_callback.

Definition RetrieveLatestApp_callback (query : Query.Latest) : Result string :=
  let! response :=
    ListObjectsV2Command (s3Client env)
      {| Prefix := "app/"; Delimiter := Some "/"; MaxKeys := None |} in
  match CommonPrefixes response with
  | None | Some [] => Throw (NotFoundError "No app versions found")
  | Some commonPrefixes =>
      let versions := validVersions (versionFolders commonPrefixes) in
      match Semver.maxSatisfying versions "*" (Query.prerelease query) with
      | None => Throw (NotFoundError "No valid app versions found")
      | Some latestVersion =>
          let! artifactPath :=
            resolveArtifactPath app latestVersion (Query.sku query) None in
          let! (appFile, hashFile) := getArtifactAndHash artifactPath in
          if negb (has_body appFile) || negb (has_body hashFile) then
            Throw (NotFoundError
                     ("App or hash file not found for version " +:+ latestVersion))
          else
            let! _ := verifyHash appFile hashFile (Some "app hash does not match") in
            Ok (baseUrl env +:+ "/" +:+ artifactPath)
      end
  end.

Definition RetrieveLatestApp : Request -> M Response :=
  cachedRedirect (releaseCacheKey "app") RetrieveLatestApp_callback.

End Handlers.

(* ===================================================================== *)
(** ** Worlds and requests to run the handlers on *)
(* ===================================================================== *)

Definition text (s : string) : list byte := String.list_byte_of_string s.

Definition emptyWorld (table : list Prisma.Release) : World :=
  {| releaseCache := ∅; redirectCache := ∅; releases := table; queries := [] |}.

Definition testEnv (objects : list (string * list byte)) : Env :=
  {| s3Client := memoryS3 objects;
     baseUrl := "https://cdn.test.com";
     Date_now := fun _ => 1700000000000%N;
     firstSettlesFirst := true |}.

Definition request (deviceId : string) : Request :=
  {| query_deviceId := Some deviceId; query_prerelease := None;
     query_appVersion := None; query_systemVersion := None;
     query_sku := None; query_forceUpdate := None |}.

(** The listing of the example of the specification, for both kinds. *)
Definition exampleBucket : list (string * list byte) :=
  [ ("app/1.0.0/jetkvm_app", text "a100");
    ("app/1.0.0/jetkvm_app.sha256", text "hash-a100");
    ("app/1.1.0/jetkvm_app", text "a110");
    ("app/1.1.0/jetkvm_app.sha256", text "hash-a110");
    ("app/2.0.0-beta.1/jetkvm_app", text "a200b1");
    ("app/2.0.0-beta.1/jetkvm_app.sha256", text "hash-a200b1");
    ("app/not-semver/jetkvm_app", text "junk");
    ("system/1.0.0/system.tar", text "s100");
    ("system/1.0.0/system.tar.sha256", text "hash-s100");
    ("system/1.1.0/system.tar", text "s110");
    ("system/1.1.0/system.tar.sha256", text "hash-s110") ].

Definition row (v : string) (t : ReleaseType) (pct : Z) : Prisma.Release :=
  {| Prisma.version := v; Prisma.type := t; Prisma.rolloutPercentage := pct;
     Prisma.url := "https://cdn.test.com/" +:+ type_name t +:+ "/" +:+ v;
     Prisma.hash := "hash-" +:+ v |}.


(** The seed of the test suite: 1.0.0 and 1.1.0 at 100 percent and 1.2.0
    at 10 percent, for both kinds. *)
Definition seedReleases : list Prisma.Release :=
  [ row "1.0.0" app 100; row "1.1.0" app 100; row "1.2.0" app 10;
    row "1.0.0" system 100; row "1.1.0" system 100; row "1.2.0" system 10 ].

(** The listing the rollout tests mock: 1.0.0, 1.1.0 and 1.2.0. *)
Definition rolloutBucket : list (string * list byte) :=
  [ ("app/1.0.0/jetkvm_app", text "a100");
    ("app/1.1.0/jetkvm_app", text "a110");
    ("app/1.2.0/jetkvm_app", text "a120");
    ("app/1.2.0/jetkvm_app.sha256", text "abc123hash120");
    ("system/1.0.0/system.tar", text "s100");
    ("system/1.1.0/system.tar", text "s110");
    ("system/1.2.0/system.tar", text "s120");
    ("system/1.2.0/system.tar.sha256", text "sys123hash120") ].

(** A bucket with a legacy version, 1.0.0, and a version with a SKU
    folder, 2.0.0, that holds the artifact of the default SKU only. *)
Definition skuBucket : list (string * list byte) :=
  [ ("app/1.0.0/jetkvm_app", text "a100");
    ("app/1.0.0/jetkvm_app.sha256", text "hash-a100");
    ("app/2.0.0/skus/jetkvm-v2/jetkvm_app", text "a200-v2");
    ("app/2.0.0/skus/jetkvm-v2/jetkvm_app.sha256", text "hash-a200-v2") ].

(** A request that pins the application to 1.0.0. *)
Definition pinnedRequest : Request :=
  {| query_deviceId := Some "device-123"; query_prerelease := None;
     query_appVersion := Some "1.0.0"; query_systemVersion := None;
     query_sku := None; query_forceUpdate := None |}.

(** An artifact and a digest file that says something else, as in the
    test "should throw InternalServerError when hash does not match". *)
Definition actualContent : GetObjectCommandOutput :=
  {| Body := Some [text "actual-content"] |}.

Definition wrongHash : GetObjectCommandOutput :=
  {| Body := Some [text "wrong-hash-value"] |}.

(** A digest file that says what [actualContent] is, with a line end. *)
Definition rightHash : GetObjectCommandOutput :=
  {| Body := Some [text "7ea2838f7b5a53b5ddf54978d93a3ffc5d68d14b257f741151434f69d42c7c5e";
                   [Byte.x0a]] |}.

(** A bucket whose one application has the right digest file. *)
Definition goodBucket : list (string * list byte) :=
  [ ("app/1.0.0/jetkvm_app", text "actual-content");
    ("app/1.0.0/jetkvm_app.sha256",
     text "7ea2838f7b5a53b5ddf54978d93a3ffc5d68d14b257f741151434f69d42c7c5e") ].

(** The two releases the remote lookup resolves on [rolloutBucket]. *)
Definition app120 : ReleaseMetadata :=
  {| version := "1.2.0";
     url := "https://cdn.test.com/app/1.2.0/jetkvm_app";
     hash := "abc123hash120";
     _cachedAt := Some 1700000000000%N;
     _maxSatisfying := Some "*" |}.

Definition system120 : ReleaseMetadata :=
  {| version := "1.2.0";
     url := "https://cdn.test.com/system/1.2.0/system.tar";
     hash := "sys123hash120";
     _cachedAt := Some 1700000000000%N;
     _maxSatisfying := Some "*" |}.

(** A table where only 1.0.0 is known, to see rows being created. *)
Definition oldReleases : list Prisma.Release :=
  [ row "1.0.0" app 100; row "1.0.0" system 100; row "1.2.0" system 40 ].

(** A world whose redirect cache still holds the target of an earlier
    request for the stable application of the default SKU. *)
Definition cachedTargetWorld : World :=
  {| releaseCache := ∅;
     redirectCache :=
       {[ "app-stable-jetkvm-v2" := "https://cdn.test.com/app/1.1.0/jetkvm_app" ]};
     releases := [];
     queries := [] |}.

(** The application and system versions of a JSON response. *)
Definition versionsOf (r : Result Response) : option (string * string) :=
  match r with
  | Ok (json body) =>
      match appVersion body, systemVersion body with
      | Some a, Some s => Some (a, s)
      | _, _ => None
      end
  | _ => None
  end.

(* ===================================================================== *)
(** ** Notions the properties are stated with *)
(* ===================================================================== *)

(** A three-way comparison that orders: swapping the sides flips the
    answer, what compares equal compares alike, and [Lt] chains. *)
Record CmpOrder {A : Type} (cmp : A -> A -> comparison) : Prop := {
  cmp_sym : forall a b, cmp b a = CompOpp (cmp a b);
  cmp_eq : forall a b c, cmp a b = Eq -> cmp a c = cmp b c;
  cmp_lt : forall a b c, cmp a b = Lt -> cmp b c = Lt -> cmp a c = Lt
}.

(** Compare by [c1], and by [c2] where [c1] sees no difference. *)
Definition lex {A : Type} (c1 c2 : A -> A -> comparison) (a b : A) : comparison :=
  match c1 a b with
  | Eq => c2 a b
  | c => c
  end.

(** A three-way comparison that a running maximum can be taken with:
    swapping the sides flips the answer, and what is not above a value
    is not above a value higher than it.  (It need not chain through
    what compares equal.) *)
Record CmpMax {A : Type} (cmp : A -> A -> comparison) : Prop := {
  max_sym : forall a b, cmp b a = CompOpp (cmp a b);
  max_le_lt : forall a b c, cmp a b <> Gt -> cmp b c = Lt -> cmp a c <> Gt
}.

(** [v] is a version that is not above [w]; both are valid. *)
Definition version_le (v w : string) : Prop :=
  exists sv sw,
    Semver.parse v = Some sv /\ Semver.parse w = Some sw
    /\ Semver.compare sv sw <> Gt.

(** A stable version: valid, and without prerelease tag. *)
Definition stable (v : string) : bool :=
  match Semver.parse v with
  | Some sv => negb (Semver.has_prerelease sv)
  | None => false
  end.

(** A prerelease version: valid, with a prerelease tag. *)
Definition is_prerelease (v : string) : bool :=
  match Semver.parse v with
  | Some sv => Semver.has_prerelease sv
  | None => false
  end.

(** The world with another release table and query journal. *)
Definition with_table (table : list Prisma.Release) (journal : list Prisma.Query)
    (w : World) : World :=
  {| releaseCache := releaseCache w;
     redirectCache := redirectCache w;
     releases := table;
     queries := journal |}.

(** A computation that neither reads nor writes the release table: run
    on a world with another table and journal, it gives the same result
    and leaves that table and journal as they were. *)
Definition ignores_table {A : Type} (m : M A) : Prop :=
  forall table journal w,
    m (with_table table journal w)
    = (fst (m w), with_table table journal (snd (m w))).

(** A computation that does not write the release table. *)
Definition keeps_table {A : Type} (m : M A) : Prop :=
  forall w, releases (snd (m w)) = releases w.

(** The digest file says what the artifact is: both have a body, and the
    text of the digest file, trimmed, is the SHA-256 of the artifact in
    hexadecimal. *)
Definition digest_matches (file hashFile : GetObjectCommandOutput) : Prop :=
  exists chunks hashChunks,
    Body file = Some chunks /\ Body hashFile = Some hashChunks
    /\ JS.trim (JS.trimEnd (JS.utf8_decode (concat hashChunks)))
       = Crypto.sha256_hex (concat chunks).

(** A redirect target that was verified: the URL of an artifact whose
    digest file, next to it, says what it is. *)
Definition verified_target (env : Env) (location : string) : Prop :=
  exists artifactPath file hashFile,
    location = baseUrl env +:+ "/" +:+ artifactPath
    /\ GetObjectCommand (s3Client env) artifactPath = Ok file
    /\ GetObjectCommand (s3Client env) (artifactPath +:+ ".sha256") = Ok hashFile
    /\ digest_matches file hashFile.

(** The handler of [Retrieve] for what the remote lookup throws. *)
Definition wrapRemoteError (error : Error) : Error :=
  if is_NotFoundError error then error
  else InternalServerError
         ("Failed to get the latest release from S3: " +:+ Error_toString error).

(** What the loop of [maxSatisfying] keeps true of the versions it has
    gone through, for the range [r]. *)
Definition max_so_far (includePrerelease : bool) (r : Semver.Range)
    (seen : list string) (acc : option (string * Semver.SemVer)) : Prop :=
  match acc with
  | None =>
      forall v sv, In v seen -> Semver.parse v = Some sv ->
        Semver.Range_test includePrerelease r sv = false
  | Some (m, maxSV) =>
      In m seen /\ Semver.parse m = Some maxSV
      /\ Semver.Range_test includePrerelease r maxSV = true
      /\ forall v sv, In v seen -> Semver.parse v = Some sv ->
           Semver.Range_test includePrerelease r sv = true ->
           Semver.compare sv maxSV <> Gt
  end.

(** The sixteen characters [digest("hex")] writes. *)
Definition hexchars : list ascii :=
  ["0"; "1"; "2"; "3"; "4"; "5"; "6"; "7"; "8"; "9"; "a"; "b"; "c"; "d"; "e"; "f"]%char.

(* ===================================================================== *)
(** ** Further code of [src/releases.ts], and notions for its properties *)
(* ===================================================================== *)

(** [clearCaches]: both caches emptied. *)
Definition clearCaches : M unit :=
  fun w => (Ok tt, {| releaseCache := ∅;
                      redirectCache := ∅;
                      releases := releases w;
                      queries := queries w |}).

(** The key under which [getLatestVersion] caches a lookup. *)
Definition releaseKey (prefix : ReleaseType) (includePrerelease : bool)
    (maxSatisfying : option string) (sku : string) : string :=
  type_name prefix +:+ "-" +:+ bool_name includePrerelease +:+ "-"
  +:+ default "*" maxSatisfying +:+ "-" +:+ sku.

(** The world with [release] cached under [key]. *)
Definition with_release (key : string) (release : ReleaseMetadata) (w : World) : World :=
  {| releaseCache := <[key := release]> (releaseCache w);
     redirectCache := redirectCache w;
     releases := releases w;
     queries := queries w |}.

(** The world with the redirect target [location] cached under [key]. *)
Definition with_redirect (key : string) (location : string) (w : World) : World :=
  {| releaseCache := releaseCache w;
     redirectCache := <[key := location]> (redirectCache w);
     releases := releases w;
     queries := queries w |}.

(** The query a redirect endpoint reads from a request. *)
Definition latestQueryOf (req : Request) : Query.Latest :=
  {| Query.prerelease := queryBoolean (query_prerelease req);
     Query.sku := querySku (query_sku req) |}.

(** The two redirect endpoints, by whether it is the one of the system
    recovery image. *)
Definition redirect_endpoint `{Semver.RangeSyntax} (env : Env) (recovery : bool)
    : Request -> M Response :=
  if recovery then RetrieveLatestSystemRecovery env else RetrieveLatestApp env.

Definition redirect_prefix (recovery : bool) : string :=
  if recovery then "system-recovery" else "app".

Definition redirect_callback `{Semver.RangeSyntax} (env : Env) (recovery : bool)
    : Query.Latest -> Result string :=
  if recovery then RetrieveLatestSystemRecovery_callback env
  else RetrieveLatestApp_callback env.

(** A text written with the sixteen characters of [digest("hex")]. *)
Definition hexstring (s : string) : bool :=
  Semver.all_chars (fun c => bool_decide (c ∈ hexchars)) s.

(** A folder name: a text without slash. *)
Definition no_slash (s : string) : bool :=
  Semver.all_chars (fun c => negb (Ascii.eqb c "/")) s.

(** The request [req] as another device sends it. *)
Definition for_device (deviceId : string) (req : Request) : Request :=
  {| query_deviceId := Some deviceId;
     query_prerelease := query_prerelease req;
     query_appVersion := query_appVersion req;
     query_systemVersion := query_systemVersion req;
     query_sku := query_sku req;
     query_forceUpdate := query_forceUpdate req |}.

(** The kind of artifact a redirect endpoint serves, and the name of the
    artifact when it is not the one of the kind. *)
Definition redirect_kind (recovery : bool) : ReleaseType :=
  if recovery then system else app.

Definition redirect_artifact (recovery : bool) : option string :=
  if recovery then Some "update.img" else None.

(** No two rows of the table have the same (version, type). *)
Definition unique_keys (table : list Prisma.Release) : Prop :=
  NoDup (map (fun r => (Prisma.version r, Prisma.type r)) table).

(** A text of one-byte white space only. *)
Definition blank (s : string) : bool := Semver.all_chars JS.is_ws1 s.

(** *** Further worlds and requests to run the handlers on *)

(** The application release the lookup resolves on [exampleBucket], and
    the world that has it in the release cache. *)
Definition app110 : ReleaseMetadata :=
  {| version := "1.1.0";
     url := "https://cdn.test.com/app/1.1.0/jetkvm_app";
     hash := "hash-a110";
     _cachedAt := Some 1700000000000%N;
     _maxSatisfying := Some "*" |}.

Definition cachedApp110 : World :=
  with_release "app-false-*-jetkvm-v2" app110 (emptyWorld []).

(** A bucket with one prerelease application, for the SKU [x]. *)
Definition betaBucket : list (string * list byte) :=
  [ ("app/1.0.0-beta/skus/x/jetkvm_app", text "beta");
    ("app/1.0.0-beta/skus/x/jetkvm_app.sha256", text "hash-beta") ].

Definition appBeta : ReleaseMetadata :=
  {| version := "1.0.0-beta";
     url := "https://cdn.test.com/app/1.0.0-beta/skus/x/jetkvm_app";
     hash := "hash-beta";
     _cachedAt := Some 1700000000000%N;
     _maxSatisfying := Some "1.0.0-beta" |}.

Definition cachedBeta : World :=
  with_release "app-true-1.0.0-beta-x" appBeta (emptyWorld []).

(** The world after the remote lookup on [rolloutBucket]. *)
Definition cachedRollout (table : list Prisma.Release) : World :=
  with_release "system-false-*-jetkvm-v2" system120
    (with_release "app-false-*-jetkvm-v2" app120 (emptyWorld table)).

(** The world after a redirect to the application of [goodBucket]. *)
Definition cachedGoodTarget : World :=
  with_redirect "app-stable-jetkvm-v2" "https://cdn.test.com/app/1.0.0/jetkvm_app"
    (emptyWorld []).

(** A bucket with two stable applications and the recovery image of a
    system, each with the digest file that says what it is, and a
    prerelease application. *)
Definition fullBucket : list (string * list byte) :=
  [ ("app/1.0.0/jetkvm_app", text "actual-content");
    ("app/1.0.0/jetkvm_app.sha256",
     text "7ea2838f7b5a53b5ddf54978d93a3ffc5d68d14b257f741151434f69d42c7c5e");
    ("app/1.1.0/jetkvm_app", text "app-1.1.0");
    ("app/1.1.0/jetkvm_app.sha256",
     text "8bbf467ffbec200d4427e559f3dde2f03e4592b8e30756b5711ec437e56ae93a");
    ("app/2.0.0-beta.1/jetkvm_app", text "app-2.0.0-beta.1");
    ("system/1.1.0/update.img", text "recovery-1.1.0");
    ("system/1.1.0/update.img.sha256",
     text "f3ee46bfe26642d175e63910bdde3502e8532d717ae896a73bcd6f21a54fa738") ].

(** A client whose every command is refused by the bucket. *)
Definition accessDenied : Error := S3Error "AccessDenied" "Access Denied" (Some 403%N).

Definition deniedS3 : S3Client := {|
  HeadObjectCommand := fun _ => Throw accessDenied;
  ListObjectsV2Command := fun _ => Throw accessDenied;
  GetObjectCommand := fun _ => Throw accessDenied
|}.

Definition deniedEnv : Env :=
  {| s3Client := deniedS3;
     baseUrl := "https://cdn.test.com";
     Date_now := fun _ => 1700000000000%N;
     firstSettlesFirst := true |}.

(** A request for a forced update. *)
Definition forcedRequest : Request :=
  {| query_deviceId := Some "device-not-eligible-0"; query_prerelease := None;
     query_appVersion := None; query_systemVersion := None;
     query_sku := None; query_forceUpdate := Some "true" |}.

(** The query of [request] and of [forcedRequest]. *)
Definition rolloutQuery (deviceId : string) (forceUpdate : bool) : Query.Retrieve :=
  {| Query.deviceId := deviceId; Query.prerelease' := false;
     Query.appVersion := None; Query.systemVersion := None;
     Query.sku' := DEFAULT_SKU; Query.forceUpdate := forceUpdate |}.

(** A digest file that says what [actualContent] is, with blanks before
    the digest and a carriage return and a line feed after it. *)
Definition paddedHash : GetObjectCommandOutput :=
  {| Body := Some [text "  7ea2838f7b5a53b5ddf54978d93a3ffc5d68d14b257f741151434f69d42c7c5e";
                   [Byte.x0d; Byte.x0a]] |}.

(* ===================================================================== *)
(** ** [src/auth.ts] *)
(* ===================================================================== *)

Module Auth.

(** The two errors of [src/errors] that the middleware throws. *)
Inductive AuthError : Type :=
| UnauthorizedError (message : string)
| BadRequestError (message : string).

(** The claims of a token that the middleware reads; [exp] is a
    NumericDate in whole seconds. *)
Record JWTPayload : Type := {
  sub : option string;
  iss : option string;
  exp : option Z
}.

Record Session : Type := {
  id_token : option string
}.

(** The request as far as the middleware reads and writes it. *)
Record Request : Type := {
  session : option Session;
  subject : option string;
  issuer : option string
}.

(** How the middleware ends: it calls [next], with the request as it has
    left it, or it throws. *)
Inductive Outcome : Type :=
| Next (req : Request)
| Rejected (e : AuthError).

(** [new Date(ms)] as a number: a time beyond 8.64e15 milliseconds from
    the epoch is an invalid date, which is NaN. *)
Definition Date (ms : Z) : JS.number :=
  if (Z.abs ms <=? 8640000000000000)%Z then JS.Int ms else JS.NaN.

(** Truthiness of an optional number ([undefined] and 0 are falsy). *)
Definition truthy_num (n : option Z) : bool :=
  match n with
  | Some z => negb (z =? 0)%Z
  | None => false
  end.

Section Middleware.

(** [jose.jwtVerify] against the keys and the options of the module,
    and the clock. *)
Context (jwtVerify : string -> Result JWTPayload) (now : Z).

(** [verifyToken]: the payload, or [null] when verification throws. *)
Definition verifyToken (idToken : string) : option JWTPayload :=
  match jwtVerify idToken with
  | Ok payload => Some payload
  | Throw _ => None
  end.

Definition authenticated (req : Request) : Outcome :=
  match session req with
  | None => Rejected (UnauthorizedError "No session found")
  | Some session =>
      let idToken := id_token session in
      if negb (JS.truthy_opt idToken)
      then Rejected (UnauthorizedError "No ID token found in session")
      else
        match verifyToken (default EmptyString idToken) with
        | None => Rejected (UnauthorizedError "Invalid ID token")
        | Some payload =>
            if negb (JS.truthy_opt (sub payload))
            then Rejected (UnauthorizedError "Missing sub (subject) in token")
            else if negb (JS.truthy_opt (iss payload))
            then Rejected (UnauthorizedError "Missing iss (issuer) in token")
            else if negb (truthy_num (exp payload))
            then Rejected (UnauthorizedError "Missing exp (expiration) in token")
            else if JS.lt (Date (default 0%Z (exp payload) * 1000)) (Date now)
            then Rejected (UnauthorizedError "ID token has expired")
            else
              let isGoogle :=
                bool_decide (iss payload = Some "https://accounts.google.com") in
              if negb isGoogle
              then Rejected (BadRequestError "Token is not from Google")
              else
                Next {| session := Auth.session req;
                        subject := sub payload;
                        issuer := iss payload |}
        end
  end.

End Middleware.

End Auth.

(** A verifier that requires Google as the issuer, as the options of
    the module have it: it knows one token, expiring in November 2033,
    and rejects every other. *)
Definition sampleVerify (idToken : string) : Result Auth.JWTPayload :=
  if String.eqb idToken "google-token" then
    Ok {| Auth.sub := Some "user-1";
          Auth.iss := Some "https://accounts.google.com";
          Auth.exp := Some 2015000000%Z |}
  else Throw (TypeError "signature verification failed").

(** [jose.jwtVerify] is called with the option [issuer]: a token it
    verifies has that issuer. *)
Definition requires_issuer (jwtVerify : string -> Result Auth.JWTPayload) : Prop :=
  forall idToken payload,
    jwtVerify idToken = Ok payload ->
    Auth.iss payload = Some "https://accounts.google.com".

Definition sessionRequest (idToken : string) : Auth.Request :=
  {| Auth.session := Some {| Auth.id_token := Some idToken |};
     Auth.subject := None;
     Auth.issuer := None |}.

(* ===================================================================== *)
(** ** The rollout bucket *)
(* ===================================================================== *)

Lemma hexdigit_hexchars (n : Z) : In (Crypto.hexdigit n) hexchars.
Proof.
  destruct n as [|p|p]; [ simpl; tauto | | simpl; tauto ].
  do 4 (try destruct p as [p|p|]); simpl; tauto.
Qed.

Lemma hexval_hexchars (c : ascii) :
  In c hexchars -> exists d, JS.hexval c = Some d /\ (0 <= d < 16)%Z.
Proof.
  intros H. simpl in H.
  repeat (destruct H as [<- | H];
    [ eexists; split; [ vm_compute; reflexivity | lia ] | ]).
  destruct H.
Qed.

Lemma hexval_nonneg (c : ascii) (d : Z) : JS.hexval c = Some d -> (0 <= d)%Z.
Proof.
  unfold JS.hexval. repeat case_match; intros [= <-]; lia.
Qed.

(** Once a digit has been read, [hexrun] gives a number, and it is not
    below what was read so far. *)
Lemma hexrun_seen (s : string) (acc : Z) :
  (0 <= acc)%Z -> exists v, JS.hexrun acc true s = Some v /\ (0 <= v)%Z.
Proof.
  revert acc. induction s as [|c s IH]; intros acc Hacc; simpl.
  - eauto.
  - destruct (JS.hexval c) as [d|] eqn:Hd; [ | eauto ].
    apply IH. apply hexval_nonneg in Hd. lia.
Qed.

(** None of the sixteen characters starts white space. *)
Lemma trimStart_hexchar (c : ascii) (s : string) :
  In c hexchars -> JS.trimStart (String c s) = String c s.
Proof.
  intros H. simpl in H. unfold JS.trimStart.
  repeat (destruct H as [<- | H];
    [ destruct s as [|c2 [|c3 s]]; reflexivity | ]).
  destruct H.
Qed.

(** Nor is one of them a sign, nor are two of them the prefix [0x]. *)
Lemma parseInt16_hexrun (c0 c1 : ascii) (s : string) :
  In c0 hexchars -> In c1 hexchars ->
  JS.parseInt16 (String c0 (String c1 s)) =
  match JS.hexrun 0 false (String c0 (String c1 s)) with
  | Some v => JS.Int v
  | None => JS.NaN
  end.
Proof.
  intros H0 H1. unfold JS.parseInt16.
  rewrite (trimStart_hexchar _ _ H0). simpl in H0.
  destruct H0 as [<- | H0].
  - simpl in H1. repeat (destruct H1 as [<- | H1]; [ reflexivity | ]). destruct H1.
  - repeat (destruct H0 as [<- | H0]; [ reflexivity | ]). destruct H0.
Qed.

(** A text that starts with two of the sixteen characters is read by
    [parseInt(_, 16)] as a number that is not negative. *)
Lemma parseInt16_hex (c0 c1 : ascii) (s : string) :
  In c0 hexchars -> In c1 hexchars ->
  exists v, JS.parseInt16 (String c0 (String c1 s)) = JS.Int v /\ (0 <= v)%Z.
Proof.
  intros H0 H1. rewrite (parseInt16_hexrun _ _ _ H0 H1).
  destruct (hexval_hexchars c0 H0) as (d & Hd & Hr).
  change (JS.hexrun 0 false (String c0 (String c1 s)))
    with (match JS.hexval c0 with
          | Some d => JS.hexrun (16 * 0 + d) true (String c1 s)
          | None => None
          end).
  rewrite Hd.
  destruct (hexrun_seen (String c1 s) (16 * 0 + d)) as (v & -> & Hv); [ lia | ].
  eauto.
Qed.

(** The digest of MD5 is sixteen bytes, so its hexadecimal form starts
    with eight of the sixteen characters. *)
Lemma md5_hex_prefix (d : string) :
  exists c0 c1 s,
    JS.substring0 8 (Crypto.md5_hex d) = String c0 (String c1 s)
    /\ In c0 hexchars /\ In c1 hexchars.
Proof.
  unfold Crypto.md5_hex, Crypto.md5.
  destruct (fold_left _ _ _) as [a b c e].
  cbn [Crypto.le_bytes Datatypes.app Crypto.hex JS.substring0 String.substring].
  do 3 eexists. split; [ reflexivity | ].
  split; apply hexdigit_hexchars.
Qed.

Lemma getDeviceRolloutBucket_range (d : string) :
  exists b, getDeviceRolloutBucket d = JS.Int b /\ (0 <= b < 100)%Z.
Proof.
  unfold getDeviceRolloutBucket.
  destruct (md5_hex_prefix d) as (c0 & c1 & s & -> & H0 & H1).
  destruct (parseInt16_hex c0 c1 s H0 H1) as (v & -> & Hv).
  exists (Z.rem v 100). split; [ reflexivity | ].
  apply Z.rem_bound_pos; lia.
Qed.

(* ===================================================================== *)
(** ** The order of versions *)
(* ===================================================================== *)

Section Orders.

Context {A : Type}.

Lemma cmp_refl (cmp : A -> A -> comparison) (a : A) : CmpOrder cmp -> cmp a a = Eq.
Proof.
  intros O. pose proof (cmp_sym cmp O a a) as H.
  destruct (cmp a a); simpl in H; congruence.
Qed.

(** "Not above" chains. *)
Lemma cmp_le_trans (cmp : A -> A -> comparison) (a b c : A) :
  CmpOrder cmp -> cmp a b <> Gt -> cmp b c <> Gt -> cmp a c <> Gt.
Proof.
  intros O Hab Hbc.
  destruct (cmp a b) eqn:Eab; [ | | congruence ].
  - rewrite (cmp_eq cmp O a b c Eab). exact Hbc.
  - destruct (cmp b c) eqn:Ebc; [ | | congruence ].
    + pose proof (cmp_sym cmp O b c) as Hcb. rewrite Ebc in Hcb. simpl in Hcb.
      pose proof (cmp_eq cmp O c b a Hcb) as Hca.
      rewrite (cmp_sym cmp O a b), Eab in Hca. simpl in Hca.
      rewrite (cmp_sym cmp O c a), Hca. simpl. congruence.
    + rewrite (cmp_lt cmp O a b c Eab Ebc). congruence.
Qed.

Lemma lex_order (c1 c2 : A -> A -> comparison) :
  CmpOrder c1 -> CmpOrder c2 -> CmpOrder (lex c1 c2).
Proof.
  intros O1 O2. unfold lex. split.
  - intros a b. rewrite (cmp_sym c1 O1 a b), (cmp_sym c2 O2 a b).
    destruct (c1 a b); reflexivity.
  - intros a b c H. destruct (c1 a b) eqn:E1; try discriminate.
    rewrite (cmp_eq c1 O1 a b c E1). destruct (c1 b c); [ | reflexivity.. ].
    apply (cmp_eq c2 O2); exact H.
  - intros a b c Hab Hbc.
    destruct (c1 a b) eqn:E1; try discriminate.
    + rewrite (cmp_eq c1 O1 a b c E1).
      destruct (c1 b c) eqn:E2; try discriminate; [ | reflexivity ].
      apply (cmp_lt c2 O2 a b c Hab Hbc).
    + destruct (c1 b c) eqn:E2; try discriminate.
      * assert (Hcb : c1 c b = Eq) by (rewrite (cmp_sym c1 O1 b c), E2; reflexivity).
        pose proof (cmp_eq c1 O1 c b a Hcb) as Hca.
        rewrite (cmp_sym c1 O1 a b), E1 in Hca. simpl in Hca.
        rewrite (cmp_sym c1 O1 c a), Hca. reflexivity.
      * rewrite (cmp_lt c1 O1 a b c E1 E2). reflexivity.
Qed.

Lemma on_order {B : Type} (f : A -> B) (cmp : B -> B -> comparison) :
  CmpOrder cmp -> CmpOrder (fun a b => cmp (f a) (f b)).
Proof.
  intros O. split; intros.
  - apply (cmp_sym cmp O).
  - apply (cmp_eq cmp O); assumption.
  - eapply (cmp_lt cmp O); eassumption.
Qed.

End Orders.

Lemma N_compare_order : CmpOrder N.compare.
Proof.
  split.
  - intros a b. apply N.compare_antisym.
  - intros a b c H. apply N.compare_eq_iff in H. now subst.
  - intros a b c H1 H2. rewrite N.compare_lt_iff in *. lia.
Qed.

Lemma ascii_compare_order : CmpOrder Ascii.compare.
Proof. exact (on_order N_of_ascii N.compare N_compare_order). Qed.

Lemma string_compare_lt (a b c : string) :
  String.compare a b = Lt -> String.compare b c = Lt -> String.compare a c = Lt.
Proof.
  revert b c. induction a as [|x a IH]; intros [|y b] [|z c]; simpl; try congruence.
  pose proof ascii_compare_order as O.
  destruct (Ascii.compare x y) eqn:Exy; try discriminate.
  - rewrite (cmp_eq _ O x y z Exy).
    destruct (Ascii.compare y z); try discriminate; [ apply IH | reflexivity ].
  - intros _. destruct (Ascii.compare y z) eqn:Eyz; try discriminate.
    + apply Ascii.compare_eq_iff in Eyz. subst z. now rewrite Exy.
    + intros _. now rewrite (cmp_lt _ O x y z Exy Eyz).
Qed.

Lemma string_compare_order : CmpOrder String.compare.
Proof.
  split.
  - intros a b. apply String.compare_antisym.
  - intros a b c H. apply String.compare_eq_iff in H. now subst.
  - apply string_compare_lt.
Qed.

Lemma compareIdentifiers_order : CmpOrder Semver.compareIdentifiers.
Proof.
  pose proof N_compare_order as ON. pose proof string_compare_order as OS.
  split.
  - intros [x|x] [y|y]; simpl; try reflexivity;
      [ apply (cmp_sym _ ON) | apply (cmp_sym _ OS) ].
  - intros [x|x] [y|y] [z|z]; simpl; try congruence;
      [ apply (cmp_eq _ ON) | apply (cmp_eq _ OS) ].
  - intros [x|x] [y|y] [z|z]; simpl; try congruence;
      [ apply (cmp_lt _ ON) | apply (cmp_lt _ OS) ].
Qed.

Lemma same_identifier_eq (x y : Semver.Identifier) :
  Semver.same_identifier x y = true <-> x = y.
Proof.
  destruct x as [x|x], y as [y|y]; simpl; split; try discriminate.
  - intros H. apply N.eqb_eq in H. congruence.
  - intros [= ->]. apply N.eqb_refl.
  - intros H. apply String.eqb_eq in H. congruence.
  - intros [= ->]. apply String.eqb_refl.
Qed.

Lemma same_identifier_sym (x y : Semver.Identifier) :
  Semver.same_identifier y x = Semver.same_identifier x y.
Proof.
  destruct x as [x|x], y as [y|y]; simpl; try reflexivity;
    [ apply N.eqb_sym | apply String.eqb_sym ].
Qed.

Section Maxima.

Context {A : Type}.

Lemma max_refl (cmp : A -> A -> comparison) (a : A) : CmpMax cmp -> cmp a a = Eq.
Proof.
  intros O. pose proof (max_sym cmp O a a) as H.
  destruct (cmp a a); simpl in H; congruence.
Qed.

(** An order is such a comparison. *)
Lemma order_max (cmp : A -> A -> comparison) : CmpOrder cmp -> CmpMax cmp.
Proof.
  intros O. split; [ apply (cmp_sym cmp O) | ].
  intros a b c Hab Hbc. apply (cmp_le_trans cmp a b c O Hab). congruence.
Qed.

(** So is an order followed, where it sees no difference, by such a
    comparison. *)
Lemma lex_max (c1 c2 : A -> A -> comparison) :
  CmpOrder c1 -> CmpMax c2 -> CmpMax (lex c1 c2).
Proof.
  intros O1 O2. unfold lex. split.
  - intros a b. rewrite (cmp_sym c1 O1 a b), (max_sym c2 O2 a b).
    destruct (c1 a b); reflexivity.
  - intros a b c Hab Hbc.
    destruct (c1 b c) eqn:Ebc; [ | | discriminate ].
    + destruct (c1 a b) eqn:Eab; [ | | congruence ].
      * rewrite (cmp_eq c1 O1 a b c Eab), Ebc. apply (max_le_lt c2 O2 a b c Hab Hbc).
      * assert (Hcb : c1 c b = Eq) by (rewrite (cmp_sym c1 O1 b c), Ebc; reflexivity).
        pose proof (cmp_eq c1 O1 c b a Hcb) as Hca.
        rewrite (cmp_sym c1 O1 a b), Eab in Hca. simpl in Hca.
        rewrite (cmp_sym c1 O1 c a), Hca. simpl. discriminate.
    + destruct (c1 a b) eqn:Eab; [ | | congruence ].
      * rewrite (cmp_eq c1 O1 a b c Eab), Ebc. discriminate.
      * rewrite (cmp_lt c1 O1 a b c Eab Ebc). discriminate.
Qed.

End Maxima.

(** The loop of [comparePre] does not chain through identifiers that
    compare equal without being the same, but a running maximum can be
    taken with it. *)
Lemma compareIds_max : CmpMax Semver.compareIds.
Proof.
  pose proof compareIdentifiers_order as O.
  split.
  - induction a as [|x a IH]; intros [|y b]; simpl; try reflexivity.
    rewrite same_identifier_sym.
    destruct (Semver.same_identifier x y); [ apply IH | apply (cmp_sym _ O) ].
  - induction a as [|x a IH]; intros [|y b] [|z c]; simpl; try congruence.
    destruct (Semver.same_identifier x y) eqn:Sxy.
    + apply same_identifier_eq in Sxy. subst y.
      destruct (Semver.same_identifier x z); [ apply IH | ].
      intros _ ->. discriminate.
    + intros Hxy.
      destruct (Semver.same_identifier y z) eqn:Syz.
      * apply same_identifier_eq in Syz. subst z. rewrite Sxy. intros _. exact Hxy.
      * intros Hyz.
        assert (Hxz : Semver.compareIdentifiers x z = Lt).
        { destruct (Semver.compareIdentifiers x y) eqn:Exy; [ | | congruence ].
          - rewrite (cmp_eq _ O x y z Exy). exact Hyz.
          - apply (cmp_lt _ O x y z Exy Hyz). }
        destruct (Semver.same_identifier x z) eqn:Sxz.
        -- apply same_identifier_eq in Sxz. subst z.
           rewrite (cmp_refl _ x O) in Hxz. discriminate.
        -- rewrite Hxz. discriminate.
Qed.

Lemma comparePre_max : CmpMax Semver.comparePre.
Proof.
  pose proof compareIds_max as O. unfold Semver.comparePre. split.
  - intros a b. destruct (Semver.prerelease a) as [|x pa], (Semver.prerelease b) as [|y pb];
      try reflexivity. apply (max_sym _ O).
  - intros a b c.
    destruct (Semver.prerelease a) as [|x pa], (Semver.prerelease b) as [|y pb],
             (Semver.prerelease c) as [|z pc]; try congruence.
    apply (max_le_lt _ O).
Qed.

Lemma compareMain_order : CmpOrder Semver.compareMain.
Proof.
  pose proof N_compare_order as O.
  exact (lex_order _ _ (on_order Semver.major _ O)
           (lex_order _ _ (on_order Semver.minor _ O) (on_order Semver.patch _ O))).
Qed.

Lemma compare_max : CmpMax Semver.compare.
Proof. exact (lex_max _ _ compareMain_order comparePre_max). Qed.

(* ===================================================================== *)
(** ** [maxSatisfying] selects a highest satisfying version *)
(* ===================================================================== *)

Section MaxSatisfying.

Context `{RS : Semver.RangeSyntax}.

Variables (includePrerelease : bool) (r : Semver.Range).

Lemma max_so_far_step (seen : list string) acc (v : string) :
  max_so_far includePrerelease r seen acc ->
  max_so_far includePrerelease r (seen ++ [v])
    (Semver.maxSatisfying_step includePrerelease r acc v).
Proof.
  pose proof compare_max as O.
  intros Inv. unfold Semver.maxSatisfying_step.
  assert (Hnew : In v (seen ++ [v])) by (apply in_or_app; right; left; reflexivity).
  assert (Hold : forall x, In x seen -> In x (seen ++ [v]))
    by (intros; apply in_or_app; left; assumption).
  assert (Hcase : forall x, In x (seen ++ [v]) -> In x seen \/ x = v).
  { intros x [H|[<-|[]]]%in_app_or; auto. }
  destruct (Semver.parse v) as [sv|] eqn:Pv;
    [ destruct (Semver.Range_test includePrerelease r sv) eqn:Tv | ];
    destruct acc as [[m maxSV]|]; simpl in Inv;
    try destruct Inv as (Hin & Pm & Tm & Hmax).
  - (* a satisfying version against the maximum so far *)
    destruct (Semver.compare maxSV sv) eqn:Cmp; simpl;
      (split; [ auto | split; [ assumption | split; [ assumption | ] ] ]);
      intros v' sv' [Hv'| ->]%Hcase P' T'.
    + eauto.
    + rewrite Pv in P'. injection P' as <-.
      rewrite (max_sym _ O maxSV sv), Cmp. discriminate.
    + apply (max_le_lt _ O sv' maxSV sv); [ eauto | exact Cmp ].
    + rewrite Pv in P'. injection P' as <-.
      rewrite (max_refl _ sv O). discriminate.
    + eauto.
    + rewrite Pv in P'. injection P' as <-.
      rewrite (max_sym _ O maxSV sv), Cmp. discriminate.
  - (* the first satisfying version *)
    simpl. split; [ auto | split; [ assumption | split; [ assumption | ] ] ].
    intros v' sv' [Hv'| ->]%Hcase P' T'.
    + rewrite (Inv v' sv' Hv' P') in T'. discriminate.
    + rewrite Pv in P'. injection P' as <-.
      rewrite (max_refl _ sv O). discriminate.
  - (* a version outside the range *)
    simpl. split; [ auto | split; [ assumption | split; [ assumption | ] ] ].
    intros v' sv' [Hv'| ->]%Hcase P' T'; [ eauto | ].
    rewrite Pv in P'. injection P' as <-. congruence.
  - simpl. intros v' sv' [Hv'| ->]%Hcase P'; [ eauto | ].
    rewrite Pv in P'. injection P' as <-. exact Tv.
  - (* not a version *)
    simpl. split; [ auto | split; [ assumption | split; [ assumption | ] ] ].
    intros v' sv' [Hv'| ->]%Hcase P' T'; [ eauto | congruence ].
  - simpl. intros v' sv' [Hv'| ->]%Hcase P'; [ eauto | congruence ].
Qed.

Lemma max_so_far_fold (versions seen : list string) acc :
  max_so_far includePrerelease r seen acc ->
  max_so_far includePrerelease r (seen ++ versions)
    (fold_left (Semver.maxSatisfying_step includePrerelease r) versions acc).
Proof.
  revert seen acc. induction versions as [|v versions IH]; intros seen acc Inv; simpl.
  - rewrite app_nil_r. exact Inv.
  - replace (seen ++ v :: versions) with ((seen ++ [v]) ++ versions)
      by (rewrite <- app_assoc; reflexivity).
    apply IH, max_so_far_step, Inv.
Qed.

End MaxSatisfying.

Section MaxSatisfyingSpec.

Context `{RS : Semver.RangeSyntax}.

(** What [maxSatisfying] returns is a version of the list that satisfies
    the range, and no satisfying version of the list is above it. *)
Lemma maxSatisfying_Some (versions : list string) (range : string) (b : bool) (m : string) :
  Semver.maxSatisfying versions range b = Some m ->
  In m versions /\ Semver.satisfies m range b = true
  /\ forall v, In v versions -> Semver.satisfies v range b = true -> version_le v m.
Proof.
  unfold Semver.maxSatisfying, Semver.satisfies.
  destruct (Semver.parseRange b range) as [r|]; [ | discriminate ].
  pose proof (max_so_far_fold b r versions [] None) as Inv.
  destruct (fold_left _ versions None) as [[m' maxSV]|]; [ | discriminate ].
  intros [= <-]. destruct Inv as (Hin & Pm & Tm & Hmax); [ intros ? ? [] | ].
  simpl in Hin. rewrite Pm. repeat split; auto.
  intros v Hv Sv. destruct (Semver.parse v) as [sv|] eqn:Pv; [ | discriminate ].
  exists sv, maxSV. eauto.
Qed.

(** It returns null only when no version of the list satisfies the range. *)
Lemma maxSatisfying_None (versions : list string) (range : string) (b : bool) :
  Semver.maxSatisfying versions range b = None ->
  forall v, In v versions -> Semver.satisfies v range b = false.
Proof.
  unfold Semver.maxSatisfying, Semver.satisfies.
  destruct (Semver.parseRange b range) as [r|]; [ | reflexivity ].
  pose proof (max_so_far_fold b r versions [] None) as Inv.
  destruct (fold_left _ versions None) as [[m' maxSV]|]; [ discriminate | ].
  intros _ v Hv. destruct (Semver.parse v) as [sv|] eqn:Pv; [ | reflexivity ].
  apply (Inv ltac:(intros ? ? []) v sv Hv Pv).
Qed.

Lemma maxSatisfying_found (versions : list string) (range : string) (b : bool) (v : string) :
  In v versions -> Semver.satisfies v range b = true ->
  exists m, Semver.maxSatisfying versions range b = Some m.
Proof.
  intros Hv Sv. destruct (Semver.maxSatisfying versions range b) as [m|] eqn:E; [ eauto | ].
  rewrite (maxSatisfying_None versions range b E v Hv) in Sv. discriminate.
Qed.

(** Against [*]: every stable version satisfies, and a prerelease one
    only with [includePrerelease]. *)
Lemma satisfies_star (v : string) (b : bool) :
  Semver.star_is_any RS ->
  Semver.satisfies v "*" b = (if b then Semver.valid v else stable v).
Proof.
  intros Star. unfold Semver.satisfies, Semver.valid, stable. rewrite Star.
  destruct (Semver.parse v) as [sv|]; [ | destruct b; reflexivity ].
  unfold Semver.Range_test, Semver.testSet. simpl.
  destruct (Semver.has_prerelease sv), b; reflexivity.
Qed.

End MaxSatisfyingSpec.

(* ===================================================================== *)
(** ** Properties of [src/helpers.ts] *)
(* ===================================================================== *)

(** C3. For every device identifier [d], [getDeviceRolloutBucket d] is an
    integer in [0, 100); and it is a function of the bytes of [d] alone:
    two identifiers with the same bytes get the same bucket (there is no
    seed or salt to differ by). *)
Theorem bucket_in_range_and_deterministic (d : string) :
  (exists b, getDeviceRolloutBucket d = JS.Int b /\ (0 <= b < 100)%Z)
  /\ (forall d', JS.bytes_of_string d' = JS.bytes_of_string d ->
        getDeviceRolloutBucket d' = getDeviceRolloutBucket d).
Proof.
  split.
  - apply getDeviceRolloutBucket_range.
  - intros d' Hbytes. unfold getDeviceRolloutBucket, Crypto.md5_hex.
    rewrite Hbytes. reflexivity.
Qed.

(** C4. With [b] the bucket of the device, a number in [0, 100): the
    device is eligible at 100 percent whatever [b]; at any other
    percentage [p] it is eligible exactly when [b < p]; so eligibility
    never goes away when the percentage grows, and no device is eligible
    at 0 percent. *)
Theorem eligibility_by_bucket (deviceId : string) :
  exists b,
    getDeviceRolloutBucket deviceId = JS.Int b /\ (0 <= b < 100)%Z
    /\ isDeviceEligibleForLatestRelease 100 deviceId = true
    /\ (forall p, p <> 100%Z ->
          (isDeviceEligibleForLatestRelease p deviceId = true <-> (b < p)%Z))
    /\ (forall p q, (p <= q)%Z ->
          isDeviceEligibleForLatestRelease p deviceId = true ->
          isDeviceEligibleForLatestRelease q deviceId = true)
    /\ isDeviceEligibleForLatestRelease 0 deviceId = false.
Proof.
  destruct (getDeviceRolloutBucket_range deviceId) as (b & Hb & Hr).
  exists b. unfold isDeviceEligibleForLatestRelease. rewrite Hb. simpl.
  split; [ reflexivity | ]. split; [ exact Hr | ]. split; [ reflexivity | ].
  split; [ | split ].
  - intros p Hp. destruct (Z.eqb_spec p 100) as [|_]; [ congruence | ].
    apply Z.ltb_lt.
  - intros p q Hpq.
    destruct (Z.eqb_spec p 100) as [->|_], (Z.eqb_spec q 100) as [->|_];
      rewrite ?Z.ltb_lt; auto; lia.
  - apply Z.ltb_ge. lia.
Qed.

(** C9. Range normalisation has no failing case.  A missing range and an
    empty one give ["*"]; a string the package does not read as a range
    gives ["*"] too; a string it reads as a range gives the range as the
    package writes it; and so every result is ["*"] or such a range. *)
Theorem toSemverRange_total `{RS : Semver.RangeSyntax} :
  toSemverRange None = "*"
  /\ toSemverRange (Some EmptyString) = "*"
  /\ (forall s, Semver.validRange s = None -> toSemverRange (Some s) = "*")
  /\ (forall s r, s <> EmptyString -> Semver.validRange s = Some r ->
        r <> EmptyString -> toSemverRange (Some s) = r)
  /\ (forall range,
        toSemverRange range = "*"
        \/ exists s, range = Some s
             /\ Semver.validRange s = Some (toSemverRange range)).
Proof.
  unfold toSemverRange. repeat split.
  - intros s H. destruct s; simpl; [ reflexivity | ]. rewrite H. reflexivity.
  - intros s r Hs H Hr. destruct s; [ congruence | ]. simpl. rewrite H.
    destruct r; [ congruence | reflexivity ].
  - intros [s|]; simpl; [ | left; reflexivity ].
    destruct s as [|c s]; simpl; [ left; reflexivity | ].
    destruct (Semver.validRange (String c s)) as [r|] eqn:E; [ | left; reflexivity ].
    destruct r; simpl; [ left; reflexivity | ]. right. eauto.
Qed.

(* ===================================================================== *)
(** ** The artifact path resolver *)
(* ===================================================================== *)

Section Resolver.

Context (env : Env).

(** [resolveArtifactPath] has four outcomes and no other: the path under
    the SKU folder, the legacy path for the default SKU, or one of the
    two NotFound errors; an error of the S3 client passes through. *)
Lemma resolveArtifactPath_cases (prefix : ReleaseType) (version sku : string)
    (artifactOverride : option string) :
  let artifact :=
    default (match prefix with app => "jetkvm_app" | system => "system.tar" end)
      artifactOverride in
  let skuPath :=
    type_name prefix +:+ "/" +:+ version +:+ "/skus/" +:+ sku +:+ "/" +:+ artifact in
  resolveArtifactPath env prefix version sku artifactOverride =
  match versionHasSkuSupport env prefix version with
  | Throw e => Throw e
  | Ok true =>
      match s3ObjectExists env skuPath with
      | Throw e => Throw e
      | Ok true => Ok skuPath
      | Ok false =>
          Throw (NotFoundError
                   ("SKU " +:+ quote +:+ sku +:+ quote
                    +:+ " is not available for version " +:+ version))
      end
  | Ok false =>
      if String.eqb sku DEFAULT_SKU
      then Ok (type_name prefix +:+ "/" +:+ version +:+ "/" +:+ artifact)
      else Throw (NotFoundError
                    ("Version " +:+ version
                     +:+ " predates SKU support and cannot serve SKU "
                     +:+ quote +:+ sku +:+ quote))
  end.
Proof.
  unfold resolveArtifactPath, Result_bind.
  destruct artifactOverride; simpl;
    destruct (versionHasSkuSupport env prefix version) as [[|]|]; try reflexivity;
    destruct (s3ObjectExists env _) as [[|]|]; reflexivity.
Qed.

(** C1. Where the version has no SKU folder (a legacy layout), a request
    for a SKU other than the default one ends in NotFound, "predates SKU
    support"; where it has one and the artifact of the requested SKU is
    not in it, the request ends in NotFound, "is not available"; and a
    path that is returned is never a fallback: it is the path of the
    requested SKU in the SKU folder, where that object exists, or, on a
    legacy layout, the legacy path, and then the requested SKU is the
    default one. *)
Theorem resolveArtifactPath_never_falls_back (prefix : ReleaseType)
    (version sku : string) (artifactOverride : option string) :
  let artifact :=
    default (match prefix with app => "jetkvm_app" | system => "system.tar" end)
      artifactOverride in
  let skuPath :=
    type_name prefix +:+ "/" +:+ version +:+ "/skus/" +:+ sku +:+ "/" +:+ artifact in
  let legacyPath := type_name prefix +:+ "/" +:+ version +:+ "/" +:+ artifact in
  (versionHasSkuSupport env prefix version = Ok false -> sku <> DEFAULT_SKU ->
     resolveArtifactPath env prefix version sku artifactOverride =
     Throw (NotFoundError
              ("Version " +:+ version
               +:+ " predates SKU support and cannot serve SKU "
               +:+ quote +:+ sku +:+ quote)))
  /\ (versionHasSkuSupport env prefix version = Ok true ->
       s3ObjectExists env skuPath = Ok false ->
       resolveArtifactPath env prefix version sku artifactOverride =
       Throw (NotFoundError
                ("SKU " +:+ quote +:+ sku +:+ quote
                 +:+ " is not available for version " +:+ version)))
  /\ (forall path,
       resolveArtifactPath env prefix version sku artifactOverride = Ok path ->
       (versionHasSkuSupport env prefix version = Ok true
        /\ s3ObjectExists env skuPath = Ok true /\ path = skuPath)
       \/ (versionHasSkuSupport env prefix version = Ok false
           /\ sku = DEFAULT_SKU /\ path = legacyPath)).
Proof.
  intros artifact skuPath legacyPath.
  pose proof (resolveArtifactPath_cases prefix version sku artifactOverride) as E.
  cbv zeta in E. fold artifact in E. fold skuPath in E. fold legacyPath in E.
  rewrite E. clear E. split; [ | split ].
  - intros -> Hsku. apply String.eqb_neq in Hsku. rewrite Hsku. reflexivity.
  - intros -> ->. reflexivity.
  - intros path.
    destruct (versionHasSkuSupport env prefix version) as [[|]|]; [ | | discriminate ].
    + destruct (s3ObjectExists env skuPath) as [[|]|]; try discriminate.
      intros [= <-]. left. auto.
    + destruct (String.eqb_spec sku DEFAULT_SKU); [ | discriminate ].
      intros [= <-]. right. auto.
Qed.

End Resolver.

(* ===================================================================== *)
(** ** The version lister and selector *)
(* ===================================================================== *)

Section Lister.

Context `{RS : Semver.RangeSyntax} (env : Env).

(** The versions kept from a listing are the folder names that are valid
    versions: the others are dropped, and that is all that happens to
    them. *)
Lemma validVersions_In (folders : list (option string)) (v : string) :
  In v (validVersions folders) <-> In (Some v) folders /\ Semver.valid v = true.
Proof.
  unfold validVersions. rewrite filter_In, <- !list_elem_of_In, list_elem_of_omap.
  split.
  - intros [(y & Hy & Hf) Hv]. split; [ | exact Hv ].
    destruct y as [[|c y]|]; simpl in Hf; try discriminate.
    injection Hf as <-. exact Hy.
  - intros [Hin Hv]. split; [ | exact Hv ].
    exists (Some v). split; [ exact Hin | ].
    destruct v; [ discriminate | reflexivity ].
Qed.




End Lister.

(* ===================================================================== *)
(** ** What touches the release table *)
(* ===================================================================== *)

Section Frames.

Context {A B : Type}.

Lemma with_table_same (w : World) : with_table (releases w) (queries w) w = w.
Proof. destruct w; reflexivity. Qed.

Lemma ignores_ret (a : A) : ignores_table (ret a).
Proof. intros table journal w. reflexivity. Qed.

Lemma ignores_throw (e : Error) : ignores_table (@throw A e).
Proof. intros table journal w. reflexivity. Qed.

Lemma ignores_lift (r : Result A) : ignores_table (lift r).
Proof. intros table journal w. reflexivity. Qed.

Lemma ignores_bind (m : M A) (k : A -> M B) :
  ignores_table m -> (forall a, ignores_table (k a)) -> ignores_table (bind m k).
Proof.
  intros Hm Hk table journal w. unfold bind. rewrite Hm.
  destruct (m w) as [[a|e] w']; simpl; [ apply Hk | reflexivity ].
Qed.

Lemma ignores_try_catch (m : M A) (handler : Error -> M A) :
  ignores_table m -> (forall e, ignores_table (handler e)) ->
  ignores_table (try_catch m handler).
Proof.
  intros Hm Hh table journal w. unfold try_catch. rewrite Hm.
  destruct (m w) as [[a|e] w']; simpl; [ reflexivity | apply Hh ].
Qed.

Lemma ignores_both (first : bool) (a : M A) (b : M B) :
  ignores_table a -> ignores_table b -> ignores_table (both first a b).
Proof.
  intros Ha Hb table journal w. unfold both. rewrite Ha.
  destruct (a w) as [ra w1]; simpl. rewrite Hb.
  destruct (b w1) as [rb w2]; reflexivity.
Qed.

(** What ignores the table leaves it, and the journal, as they were. *)
Lemma ignores_table_keeps (m : M A) (w : World) :
  ignores_table m ->
  releases (snd (m w)) = releases w /\ queries (snd (m w)) = queries w.
Proof.
  intros Hm. pose proof (Hm (releases w) (queries w) w) as E.
  rewrite with_table_same in E. rewrite E. simpl. auto.
Qed.

Lemma keeps_ret (a : A) : keeps_table (ret a).
Proof. intros w. reflexivity. Qed.

Lemma keeps_throw (e : Error) : keeps_table (@throw A e).
Proof. intros w. reflexivity. Qed.

Lemma keeps_bind (m : M A) (k : A -> M B) :
  keeps_table m -> (forall a, keeps_table (k a)) -> keeps_table (bind m k).
Proof.
  intros Hm Hk w. unfold bind. specialize (Hm w).
  destruct (m w) as [[a|e] w']; simpl in *; [ rewrite Hk | ]; exact Hm.
Qed.

End Frames.

Lemma ignores_releaseCache_get (key : string) : ignores_table (releaseCache_get key).
Proof. intros table journal w. reflexivity. Qed.

Lemma ignores_releaseCache_set (key : string) (v : ReleaseMetadata) :
  ignores_table (releaseCache_set key v).
Proof. intros table journal w. reflexivity. Qed.

Lemma keeps_findMany (t : ReleaseType) (pct : Z) : keeps_table (prisma_release_findMany t pct).
Proof. intros w. reflexivity. Qed.

(** Goes through a computation along its binds and case distinctions. *)
Ltac frame :=
  repeat first
    [ apply ignores_ret | apply ignores_throw | apply ignores_lift
    | apply ignores_releaseCache_get | apply ignores_releaseCache_set
    | apply ignores_both
    | apply ignores_bind; [ | intros ? ]
    | apply ignores_try_catch; [ | intros ? ]
    | apply keeps_ret | apply keeps_throw | apply keeps_findMany
    | apply keeps_bind; [ | intros ? ]
    | match goal with
      | |- ignores_table (match ?x with _ => _ end) => destruct x
      | |- ignores_table (if ?x then _ else _) => destruct x
      | |- keeps_table (match ?x with _ => _ end) => destruct x
      | |- keeps_table (if ?x then _ else _) => destruct x
      end ].

Section RetrieveFrames.

Context `{RS : Semver.RangeSyntax} (env : Env).

Lemma ignores_getLatestVersion (prefix : ReleaseType) (includePrerelease : bool)
    (maxSatisfying : option string) (sku : string) :
  ignores_table (getLatestVersion env prefix includePrerelease maxSatisfying sku).
Proof. unfold getLatestVersion. frame. Qed.

Lemma ignores_getReleaseFromS3 (includePrerelease : bool)
    (appVersion systemVersion : option string) (sku : string) :
  ignores_table (getReleaseFromS3 env includePrerelease appVersion systemVersion sku).
Proof.
  unfold getReleaseFromS3. apply ignores_bind.
  - apply ignores_both; apply ignores_getLatestVersion.
  - intros [a s]. apply ignores_ret.
Qed.

(** What [getReleaseFromS3] returns is made of two releases. *)
Lemma getReleaseFromS3_Ok (includePrerelease : bool)
    (appVersion systemVersion : option string) (sku : string) (w : World)
    (remoteRelease : Release) :
  fst (getReleaseFromS3 env includePrerelease appVersion systemVersion sku w)
  = Ok remoteRelease ->
  exists appRelease systemRelease,
    remoteRelease = toRelease (Some appRelease) (Some systemRelease).
Proof.
  unfold getReleaseFromS3, bind, both, ret.
  destruct (getLatestVersion env app _ _ _ w) as [ra w1].
  destruct (getLatestVersion env system _ _ _ w1) as [rb w2].
  destruct ra as [a|], rb as [s|]; simpl; try discriminate.
  intros [= <-]. eauto.
Qed.

Lemma keeps_getDefaultRelease (type : ReleaseType) :
  keeps_table (getDefaultRelease type).
Proof. unfold getDefaultRelease. frame. Qed.

End RetrieveFrames.

(* ===================================================================== *)
(** ** The release orchestrator *)
(* ===================================================================== *)

Section Orchestrator.

Context `{RS : Semver.RangeSyntax} (env : Env).

(** [Retrieve] on a prerelease request or a pinned one: the remote lookup
    and its answer, and nothing after. *)
Lemma Retrieve_bypass (req : Request) (query : Query.Retrieve) (w : World) :
  parseRetrieveQuery req = Ok query ->
  Query.prerelease' query
  || (negb (String.eqb (toSemverRange (Query.appVersion query)) "*")
      || negb (String.eqb (toSemverRange (Query.systemVersion query)) "*")) = true ->
  Retrieve env req w =
  bind
    (try_catch
       (getReleaseFromS3 env (Query.prerelease' query)
          (Some (toSemverRange (Query.appVersion query)))
          (Some (toSemverRange (Query.systemVersion query))) (Query.sku' query))
       (fun error => throw (wrapRemoteError error)))
    (fun remoteRelease => ret (json remoteRelease)) w.
Proof.
  intros Hparse Hcond. unfold Retrieve, bind at 1. unfold lift. rewrite Hparse.
  unfold bind, try_catch, wrapRemoteError. rewrite Hcond.
  destruct (getReleaseFromS3 _ _ _ _ _ w) as [[r|e] w']; [ reflexivity | ].
  destruct (is_NotFoundError e); reflexivity.
Qed.

(** C2. On a request that asks for prereleases, or whose application or
    system range, once normalised, is not ["*"]: the response is the
    release the remote lookup resolved, as it is (and its failure when it
    fails); the release table is as it was and no query was sent to it;
    and the response is the same whatever the table holds. *)
Theorem Retrieve_pin_or_prerelease_bypasses_table (req : Request)
    (query : Query.Retrieve) (w : World) :
  parseRetrieveQuery req = Ok query ->
  Query.prerelease' query = true
  \/ toSemverRange (Query.appVersion query) <> "*"
  \/ toSemverRange (Query.systemVersion query) <> "*" ->
  let remote :=
    fst (getReleaseFromS3 env (Query.prerelease' query)
           (Some (toSemverRange (Query.appVersion query)))
           (Some (toSemverRange (Query.systemVersion query)))
           (Query.sku' query) w) in
  fst (Retrieve env req w) =
    match remote with
    | Ok remoteRelease => Ok (json remoteRelease)
    | Throw error => Throw (wrapRemoteError error)
    end
  /\ releases (snd (Retrieve env req w)) = releases w
  /\ queries (snd (Retrieve env req w)) = queries w
  /\ (forall table journal,
        fst (Retrieve env req (with_table table journal w)) = fst (Retrieve env req w)).
Proof.
  intros Hparse Hpin remote.
  assert (Hcond :
    Query.prerelease' query
    || (negb (String.eqb (toSemverRange (Query.appVersion query)) "*")
        || negb (String.eqb (toSemverRange (Query.systemVersion query)) "*")) = true).
  { destruct Hpin as [-> | [H | H]]; [ reflexivity | | ];
      apply String.eqb_neq in H; rewrite H; simpl;
      rewrite ?orb_true_r; reflexivity. }
  assert (Hig : ignores_table
    (bind
       (try_catch
          (getReleaseFromS3 env (Query.prerelease' query)
             (Some (toSemverRange (Query.appVersion query)))
             (Some (toSemverRange (Query.systemVersion query))) (Query.sku' query))
          (fun error => throw (wrapRemoteError error)))
       (fun remoteRelease => ret (json remoteRelease)))).
  { apply ignores_bind; [ | intros; apply ignores_ret ].
    apply ignores_try_catch; [ apply ignores_getReleaseFromS3 | intros; apply ignores_throw ]. }
  split; [ | split; [ | split ] ].
  - rewrite (Retrieve_bypass req query w Hparse Hcond). subst remote.
    unfold bind, try_catch, throw, ret.
    destruct (getReleaseFromS3 _ _ _ _ _ w) as [[r|e] w']; reflexivity.
  - rewrite (Retrieve_bypass req query w Hparse Hcond).
    apply (ignores_table_keeps _ w Hig).
  - rewrite (Retrieve_bypass req query w Hparse Hcond).
    apply (ignores_table_keeps _ w Hig).
  - intros table journal.
    rewrite !(Retrieve_bypass req query _ Hparse Hcond), Hig. reflexivity.
Qed.

(** The upsert of [Retrieve], whose update is the empty one, on a key
    the table has: the table as it was, and the row it has. *)
Lemma upsert_existing (v : string) (t : ReleaseType) (create row : Prisma.Release)
    (table : list Prisma.Release) :
  Prisma.findUnique v t table = Some row ->
  Prisma.upsert v t (fun r => r) create table = (table, row).
Proof.
  intros H. unfold Prisma.upsert. rewrite H. f_equal.
  clear H. induction table as [|x table IH]; simpl; [ reflexivity | ].
  rewrite IH. destruct (Prisma.has_key v t x); reflexivity.
Qed.

(** On a key the table has not: the table with the row [create] added. *)
Lemma upsert_absent (v : string) (t : ReleaseType) (update : Prisma.Release -> Prisma.Release)
    (create : Prisma.Release) (table : list Prisma.Release) :
  Prisma.findUnique v t table = None ->
  Prisma.upsert v t update create table = (table ++ [create], create).
Proof. intros H. unfold Prisma.upsert. rewrite H. reflexivity. Qed.

Lemma findUnique_app (v : string) (t : ReleaseType) (l1 l2 : list Prisma.Release) :
  Prisma.findUnique v t (l1 ++ l2) =
  match Prisma.findUnique v t l1 with
  | Some r => Some r
  | None => Prisma.findUnique v t l2
  end.
Proof.
  unfold Prisma.findUnique. induction l1 as [|x l1 IH]; simpl; [ reflexivity | ].
  destruct (Prisma.has_key v t x); [ reflexivity | exact IH ].
Qed.

(** The table after the upsert of a first-seen release. *)
Lemma upsert_firstSeen (t : ReleaseType) (m : ReleaseMetadata)
    (table : list Prisma.Release) :
  let create := firstSeen t (Some (version m)) (Some (url m)) (Some (hash m)) in
  exists created,
    fst (Prisma.upsert (version m) t (fun r => r) create table) = table ++ created
    /\ (created = [] \/ created = [create])
    /\ Prisma.findUnique (version m) t (table ++ created)
       = Some (snd (Prisma.upsert (version m) t (fun r => r) create table))
    /\ (forall row, Prisma.findUnique (version m) t table = Some row ->
          created = []
          /\ snd (Prisma.upsert (version m) t (fun r => r) create table) = row)
    /\ (Prisma.findUnique (version m) t table = None ->
        created = [create]
        /\ snd (Prisma.upsert (version m) t (fun r => r) create table) = create).
Proof.
  intros create.
  destruct (Prisma.findUnique (version m) t table) as [row|] eqn:E.
  - exists []. rewrite (upsert_existing _ _ _ row _ E). simpl.
    rewrite app_nil_r.
    split; [ reflexivity | ]. split; [ left; reflexivity | ]. split; [ exact E | ].
    split; [ intros row' [= <-]; auto | discriminate ].
  - exists [create]. rewrite (upsert_absent _ _ _ _ _ E). simpl.
    split; [ reflexivity | ]. split; [ right; reflexivity | ].
    split; [ | split; [ discriminate | auto ] ].
    rewrite findUnique_app, E. unfold Prisma.findUnique, Prisma.has_key. simpl.
    rewrite String.eqb_refl. destruct t; reflexivity.
Qed.

(** [Retrieve] past the remote lookup, on a request that is neither for
    prereleases nor pinned: the table it leaves is the one the two
    upserts leave. *)
Lemma Retrieve_rollout_table (req : Request) (query : Query.Retrieve) (w w1 : World)
    (appRelease systemRelease : ReleaseMetadata) :
  parseRetrieveQuery req = Ok query ->
  Query.prerelease' query = false ->
  toSemverRange (Query.appVersion query) = "*" ->
  toSemverRange (Query.systemVersion query) = "*" ->
  getReleaseFromS3 env false (Some "*") (Some "*") (Query.sku' query) w
  = (Ok (toRelease (Some appRelease) (Some systemRelease)), w1) ->
  let createApp :=
    firstSeen app (Some (version appRelease)) (Some (url appRelease))
      (Some (hash appRelease)) in
  let createSystem :=
    firstSeen system (Some (version systemRelease)) (Some (url systemRelease))
      (Some (hash systemRelease)) in
  let afterApp :=
    Prisma.upsert (version appRelease) app (fun r => r) createApp (releases w) in
  let afterSystem :=
    Prisma.upsert (version systemRelease) system (fun r => r) createSystem (fst afterApp) in
  releases (snd (Retrieve env req w)) = fst afterSystem
  /\ (Query.forceUpdate query = true ->
       fst (Retrieve env req w)
       = Ok (json (toRelease (Some (metadata_of_row (snd afterApp)))
                             (Some (metadata_of_row (snd afterSystem)))))).
Proof.
  intros Hparse Hpre Happ Hsys Hremote createApp createSystem afterApp afterSystem.
  assert (Hw1 : releases w1 = releases w).
  { pose proof (ignores_table_keeps _ w
      (ignores_getReleaseFromS3 env false (Some "*") (Some "*") (Query.sku' query))) as [K _].
    rewrite Hremote in K. exact K. }
  set (R := Retrieve env req w).
  assert (E : R = Retrieve env req w) by reflexivity.
  unfold Retrieve, bind at 1 in E. unfold lift in E. rewrite Hparse in E.
  rewrite Hpre, Happ, Hsys in E. unfold bind at 1 in E. unfold try_catch in E.
  rewrite Hremote in E.
  cbn [String.eqb negb orb Ascii.eqb Bool.eqb] in E.
  unfold bind at 1 in E. unfold prisma_release_upsert at 1 in E.
  cbn [toRelease setAppRelease setSystemRelease appVersion appUrl appHash
       systemVersion systemUrl systemHash default from_option id] in E.
  fold createApp in E. rewrite Hw1 in E. fold afterApp in E.
  destruct afterApp as [tableA rowA] eqn:EA. cbn [fst snd] in *.
  unfold bind at 1 in E. unfold prisma_release_upsert at 1 in E. cbn [releases] in E.
  fold createSystem in E. subst afterSystem.
  destruct (Prisma.upsert (version systemRelease) system _ createSystem tableA)
    as [tableS rowS] eqn:ES.
  cbn [fst snd]. rewrite E. clear E R.
  destruct (Query.forceUpdate query).
  - split; [ reflexivity | intros _; reflexivity ].
  - split; [ | discriminate ].
    match goal with
    | |- releases (snd (?m ?w0)) = _ =>
        assert (K : keeps_table m); [ | rewrite (K w0); reflexivity ]
    end.
    apply keeps_bind; [ apply keeps_getDefaultRelease | intros ].
    apply keeps_bind; [ apply keeps_getDefaultRelease | intros ].
    apply keeps_ret.
Qed.

(** C5. On a request that is neither for prereleases nor pinned, once
    the remote lookup has resolved the two releases: every row the table
    had is in it as it was, in its place, the rows that follow are new
    ones at rollout percentage 10; for each resolved version, the row of
    its (version, type) is the one the table had when it had one, and
    otherwise a new row of that version, URL and hash at 10 percent; and
    these rows are what the upserts hand back (the response to a forced
    update is made of them). *)
Theorem Retrieve_upsert_creates_at_10_or_keeps (req : Request)
    (query : Query.Retrieve) (w w1 : World)
    (appRelease systemRelease : ReleaseMetadata) :
  parseRetrieveQuery req = Ok query ->
  Query.prerelease' query = false ->
  toSemverRange (Query.appVersion query) = "*" ->
  toSemverRange (Query.systemVersion query) = "*" ->
  getReleaseFromS3 env false (Some "*") (Some "*") (Query.sku' query) w
  = (Ok (toRelease (Some appRelease) (Some systemRelease)), w1) ->
  let before := releases w in
  let after := releases (snd (Retrieve env req w)) in
  (exists created,
     after = before ++ created
     /\ forall r, In r created -> Prisma.rolloutPercentage r = 10%Z)
  /\ (forall type m,
       (type, m) = (app, appRelease) \/ (type, m) = (system, systemRelease) ->
       (forall row,
          Prisma.findUnique (version m) type before = Some row ->
          Prisma.findUnique (version m) type after = Some row)
       /\ (Prisma.findUnique (version m) type before = None ->
           Prisma.findUnique (version m) type after
           = Some {| Prisma.version := version m;
                     Prisma.type := type;
                     Prisma.rolloutPercentage := 10;
                     Prisma.url := url m;
                     Prisma.hash := hash m |}))
  /\ (Query.forceUpdate query = true ->
       exists rowApp rowSystem,
         Prisma.findUnique (version appRelease) app after = Some rowApp
         /\ Prisma.findUnique (version systemRelease) system after = Some rowSystem
         /\ fst (Retrieve env req w)
            = Ok (json (toRelease (Some (metadata_of_row rowApp))
                                  (Some (metadata_of_row rowSystem))))).
Proof.
  intros Hparse Hpre Happ Hsys Hremote before after.
  destruct (Retrieve_rollout_table req query w w1 appRelease systemRelease
              Hparse Hpre Happ Hsys Hremote) as [Htable Hforce].
  cbv zeta in Htable, Hforce. fold before in Htable, Hforce. fold after in Htable.
  destruct (upsert_firstSeen app appRelease before)
    as (cA & EA & HcA & FA & OldA & NewA).
  cbv zeta in EA, HcA, FA, OldA, NewA.
  set (createApp := firstSeen app (Some (version appRelease)) (Some (url appRelease))
                      (Some (hash appRelease))) in *.
  set (afterApp := Prisma.upsert (version appRelease) app (fun r => r) createApp before) in *.
  destruct (upsert_firstSeen system systemRelease (fst afterApp))
    as (cS & ES & HcS & FS & OldS & NewS).
  cbv zeta in ES, HcS, FS, OldS, NewS.
  set (createSystem := firstSeen system (Some (version systemRelease))
                         (Some (url systemRelease)) (Some (hash systemRelease))) in *.
  set (afterSystem :=
         Prisma.upsert (version systemRelease) system (fun r => r) createSystem
           (fst afterApp)) in *.
  assert (Hafter : after = (before ++ cA) ++ cS) by (rewrite Htable, ES, EA; reflexivity).
  assert (FindA : Prisma.findUnique (version appRelease) app after = Some (snd afterApp)).
  { rewrite Hafter, findUnique_app, FA. reflexivity. }
  assert (FindS : Prisma.findUnique (version systemRelease) system after
                  = Some (snd afterSystem)).
  { rewrite Hafter, <- EA. exact FS. }
  assert (NoSysInA : Prisma.findUnique (version systemRelease) system cA = None).
  { destruct HcA as [-> | ->]; [ reflexivity | ].
    unfold Prisma.findUnique, Prisma.has_key. simpl. rewrite andb_false_r. reflexivity. }
  split; [ | split ].
  - exists (cA ++ cS). split; [ rewrite Hafter, app_assoc; reflexivity | ].
    intros r [Hr | Hr]%in_app_or.
    + destruct HcA as [-> | ->]; [ destruct Hr | ].
      destruct Hr as [<- | []]. reflexivity.
    + destruct HcS as [-> | ->]; [ destruct Hr | ].
      destruct Hr as [<- | []]. reflexivity.
  - intros type m [[= -> ->] | [= -> ->]].
    + rewrite FindA. split.
      * intros row Hrow. destruct (OldA row Hrow) as [_ ->]. reflexivity.
      * intros Hnone. destruct (NewA Hnone) as [_ ->]. reflexivity.
    + rewrite FindS. split.
      * intros row Hrow.
        assert (HrowA : Prisma.findUnique (version systemRelease) system (fst afterApp)
                        = Some row) by (rewrite EA, findUnique_app, Hrow; reflexivity).
        destruct (OldS row HrowA) as [_ ->]. reflexivity.
      * intros Hnone.
        assert (HnoneA : Prisma.findUnique (version systemRelease) system (fst afterApp)
                         = None) by (rewrite EA, findUnique_app, Hnone; exact NoSysInA).
        destruct (NewS HnoneA) as [_ ->]. reflexivity.
  - intros Hf. exists (snd afterApp), (snd afterSystem).
    split; [ exact FindA | ]. split; [ exact FindS | ]. apply Hforce, Hf.
Qed.

End Orchestrator.

(* ===================================================================== *)
(** ** The default release *)
(* ===================================================================== *)

Section DefaultRelease.

Context `{RS : Semver.RangeSyntax}.

Lemma findMany_In (t : ReleaseType) (pct : Z) (table : list Prisma.Release)
    (r : Prisma.Release) :
  In r (Prisma.findMany t pct table)
  <-> In r table /\ Prisma.type r = t /\ Prisma.rolloutPercentage r = pct.
Proof.
  unfold Prisma.findMany. rewrite filter_In, andb_true_iff, Z.eqb_eq.
  destruct (Prisma.type r), t; simpl; intuition congruence.
Qed.

(** What [getDefaultRelease] answers, from the rows at 100 percent. *)
Lemma getDefaultRelease_result (type : ReleaseType) (w : World) :
  let rolledOutReleases := Prisma.findMany type 100 (releases w) in
  let noDefault :=
    InternalServerError ("No default release found for type " +:+ type_name type) in
  fst (getDefaultRelease type w) =
  match rolledOutReleases with
  | [] => Throw noDefault
  | _ =>
      match
        find (fun r =>
                bool_decide
                  (Some (Prisma.version r)
                   = Semver.maxSatisfying (map Prisma.version rolledOutReleases) "*" false))
             rolledOutReleases
      with
      | Some r => Ok r
      | None => Throw noDefault
      end
  end.
Proof.
  unfold getDefaultRelease, bind, prisma_release_findMany. simpl.
  destruct (Prisma.findMany type 100 (releases w)) as [|r0 rolled]; [ reflexivity | ].
  destruct (find _ _); reflexivity.
Qed.

(** C6, as the code has it. The default release of a kind is one of its
    rows at rollout percentage 100 whose version is stable (valid, no
    prerelease tag), and no stable version among these rows is above
    its version; there is one as soon as one of these rows has a stable
    version; and when none has, also when the kind has no row at 100
    percent at all, the lookup ends in InternalServerError, not in
    NotFound. *)
Theorem getDefaultRelease_highest_stable (type : ReleaseType) (w : World) :
  Semver.star_is_any RS ->
  let rolledOut r :=
    In r (releases w) /\ Prisma.type r = type
    /\ Prisma.rolloutPercentage r = 100%Z in
  (forall r, fst (getDefaultRelease type w) = Ok r ->
     rolledOut r /\ stable (Prisma.version r) = true
     /\ forall r', rolledOut r' -> stable (Prisma.version r') = true ->
          version_le (Prisma.version r') (Prisma.version r))
  /\ (forall r', rolledOut r' -> stable (Prisma.version r') = true ->
       exists r, fst (getDefaultRelease type w) = Ok r)
  /\ ((forall r', rolledOut r' -> stable (Prisma.version r') = false) ->
       fst (getDefaultRelease type w)
       = Throw (InternalServerError
                  ("No default release found for type " +:+ type_name type))).
Proof.
  intros Star rolledOut.
  pose proof (getDefaultRelease_result type w) as E. cbv zeta in E. rewrite E. clear E.
  set (rolled := Prisma.findMany type 100 (releases w)).
  assert (Hrolled : forall r, In r rolled <-> rolledOut r)
    by (intros r; apply findMany_In).
  set (latestVersion := Semver.maxSatisfying (map Prisma.version rolled) "*" false).
  split; [ | split ].
  - intros r Hr.
    assert (Hfind : find (fun r => bool_decide (Some (Prisma.version r) = latestVersion))
                      rolled = Some r).
    { destruct rolled; [ discriminate | ]. destruct (find _ _); congruence. }
    apply find_some in Hfind. destruct Hfind as [Hin Hv].
    apply bool_decide_eq_true in Hv. symmetry in Hv.
    destruct (maxSatisfying_Some _ _ _ _ Hv) as (_ & Sv & Hmax).
    rewrite satisfies_star in Sv by exact Star.
    split; [ apply Hrolled, Hin | ]. split; [ exact Sv | ].
    intros r' Hr' Sr'. apply Hmax.
    + apply in_map, Hrolled, Hr'.
    + rewrite satisfies_star by exact Star. exact Sr'.
  - intros r' Hr' Sr'. apply Hrolled in Hr'.
    destruct (maxSatisfying_found (map Prisma.version rolled) "*" false
                (Prisma.version r')) as (m & Hm).
    { apply in_map, Hr'. }
    { rewrite satisfies_star by exact Star. exact Sr'. }
    destruct (maxSatisfying_Some _ _ _ _ Hm) as (Hin & _ & _).
    apply in_map_iff in Hin. destruct Hin as (r & Hrv & Hrin).
    destruct rolled as [|r0 rolled0] eqn:Er; [ destruct Hr' | ]. rewrite <- Er in *.
    destruct (find _ rolled) as [x|] eqn:Hfind; [ eauto | ].
    apply (find_none _ _ Hfind) in Hrin. apply bool_decide_eq_false in Hrin.
    contradiction Hrin. unfold latestVersion. rewrite <- Er, Hm, Hrv. reflexivity.
  - intros Hnone.
    destruct rolled as [|r0 rolled0] eqn:Er; [ reflexivity | ]. rewrite <- Er in *.
    destruct (find _ rolled) as [x|] eqn:Hfind; [ | reflexivity ].
    apply find_some in Hfind. destruct Hfind as [Hin Hv].
    apply bool_decide_eq_true in Hv. symmetry in Hv.
    destruct (maxSatisfying_Some _ _ _ _ Hv) as (_ & Sv & _).
    rewrite satisfies_star in Sv by exact Star.
    rewrite (Hnone x) in Sv by (apply Hrolled, Hin). discriminate.
Qed.

(** C10. When every row of a kind at rollout percentage 100 has a
    prerelease version, [getDefaultRelease] ends in the same
    InternalServerError as when the kind has no row at 100 percent:
    matched against [*] without [includePrerelease], none of these
    versions is selected. *)
Theorem getDefaultRelease_only_prereleases (type : ReleaseType) (w : World) :
  Semver.star_is_any RS ->
  (forall r, In r (releases w) -> Prisma.type r = type ->
     Prisma.rolloutPercentage r = 100%Z -> is_prerelease (Prisma.version r) = true) ->
  Semver.maxSatisfying
    (map Prisma.version (Prisma.findMany type 100 (releases w))) "*" false = None
  /\ fst (getDefaultRelease type w)
     = Throw (InternalServerError
                ("No default release found for type " +:+ type_name type)).
Proof.
  intros Star Hpre.
  assert (Hnone : Semver.maxSatisfying
            (map Prisma.version (Prisma.findMany type 100 (releases w))) "*" false = None).
  { destruct (Semver.maxSatisfying _ _ _) as [m|] eqn:Hm; [ | reflexivity ].
    destruct (maxSatisfying_Some _ _ _ _ Hm) as (Hin & Sm & _).
    rewrite satisfies_star in Sm by exact Star.
    apply in_map_iff in Hin. destruct Hin as (r & <- & Hr).
    apply findMany_In in Hr. destruct Hr as (Hin & Ht & Hp).
    specialize (Hpre r Hin Ht Hp). unfold stable in Sm. unfold is_prerelease in Hpre.
    destruct (Semver.parse (Prisma.version r)); [ | discriminate ].
    rewrite Hpre in Sm. discriminate. }
  split; [ exact Hnone | ].
  pose proof (getDefaultRelease_result type w) as E. cbv zeta in E.
  rewrite E, Hnone. clear E Hnone.
  destruct (Prisma.findMany type 100 (releases w)) as [|r0 rolled]; [ reflexivity | ].
  destruct (find _ _) as [x|] eqn:Hfind; [ | reflexivity ].
  apply find_some in Hfind. destruct Hfind as [_ Hv].
  apply bool_decide_eq_true in Hv. discriminate.
Qed.

End DefaultRelease.

(* ===================================================================== *)
(** ** The integrity verifier and the redirect endpoints *)
(* ===================================================================== *)

(** [verifyHash] on an artifact and a digest file that both have a body. *)
Lemma verifyHash_bodies (file hashFile : GetObjectCommandOutput)
    (chunks hashChunks : list (list byte)) (exception : option string) :
  Body file = Some chunks -> Body hashFile = Some hashChunks ->
  verifyHash file hashFile exception =
  let matches :=
    String.eqb (JS.trim (JS.trimEnd (JS.utf8_decode (concat hashChunks))))
      (Crypto.sha256_hex (concat chunks)) in
  if negb matches && JS.truthy_opt exception
  then Throw (InternalServerError (default EmptyString exception))
  else Ok matches.
Proof.
  intros Hf Hh. unfold verifyHash, streamToBuffer, streamToString.
  rewrite Hf, Hh. reflexivity.
Qed.

Lemma verifyHash_true (file hashFile : GetObjectCommandOutput) (exception : option string) :
  verifyHash file hashFile exception = Ok true <-> digest_matches file hashFile.
Proof.
  split.
  - unfold verifyHash, streamToBuffer, streamToString, Result_bind.
    destruct (Body file) as [chunks|] eqn:Hf; [ | discriminate ].
    destruct (Body hashFile) as [hashChunks|] eqn:Hh; [ | discriminate ].
    destruct (String.eqb_spec
                (JS.trim (JS.trimEnd (JS.utf8_decode (concat hashChunks))))
                (Crypto.sha256_hex (concat chunks))) as [E | _]; simpl.
    + intros _. exists chunks, hashChunks. auto.
    + destruct (JS.truthy_opt exception); discriminate.
  - intros (chunks & hashChunks & Hf & Hh & E).
    rewrite (verifyHash_bodies _ _ _ _ _ Hf Hh). cbv zeta. rewrite E, String.eqb_refl.
    reflexivity.
Qed.

Section Redirects.

Context `{RS : Semver.RangeSyntax} (env : Env).

(** A redirect endpoint, when its cache has nothing for the request:
    the answer of the callback, stored when it is one. *)
Lemma cachedRedirect_miss (cachedKey : Query.Latest -> string)
    (callback : Query.Latest -> Result string) (req : Request) (w : World) :
  let query :=
    {| Query.prerelease := queryBoolean (query_prerelease req);
       Query.sku := querySku (query_sku req) |} in
  JS.truthy_opt (redirectCache w !! cachedKey query) = false ->
  cachedRedirect cachedKey callback req w =
  match callback query with
  | Ok result =>
      (Ok (redirect 302 result),
       {| releaseCache := releaseCache w;
          redirectCache := <[cachedKey query := result]> (redirectCache w);
          releases := releases w;
          queries := queries w |})
  | Throw e => (Throw e, w)
  end.
Proof.
  intros query Hmiss.
  unfold cachedRedirect, bind, lift, ret, parseLatestQuery, redirectCache_get,
    redirectCache_set.
  fold query. rewrite Hmiss. destruct (callback query); reflexivity.
Qed.

(** What the four steps after the version is selected let through. *)
Lemma verified_after_selection (prefix : ReleaseType) (latestVersion sku : string)
    (artifactOverride : option string) (noBody : Error) (reason : string)
    (location : string) :
  reason <> EmptyString ->
  (let! artifactPath := resolveArtifactPath env prefix latestVersion sku artifactOverride in
   let! (file, hashFile) := getArtifactAndHash env artifactPath in
   if negb (has_body file) || negb (has_body hashFile) then Throw noBody
   else
     let! _ := verifyHash file hashFile (Some reason) in
     Ok (baseUrl env +:+ "/" +:+ artifactPath)) = Ok location ->
  verified_target env location.
Proof.
  intros Hreason. unfold Result_bind, getArtifactAndHash, Promise_all.
  destruct (resolveArtifactPath _ _ _ _ _) as [artifactPath|]; [ | discriminate ].
  destruct (GetObjectCommand _ artifactPath) as [file|] eqn:Gf;
    destruct (GetObjectCommand _ (artifactPath +:+ ".sha256")) as [hashFile|] eqn:Gh;
    try discriminate.
  destruct (negb (has_body file) || negb (has_body hashFile)); [ discriminate | ].
  destruct (verifyHash file hashFile (Some reason)) as [[|]|] eqn:V; try discriminate.
  - intros [= <-]. exists artifactPath, file, hashFile.
    repeat split; auto. apply (verifyHash_true file hashFile (Some reason)), V.
  - exfalso. unfold verifyHash, streamToBuffer, streamToString, Result_bind in V.
    destruct (Body file); [ | discriminate ].
    destruct (Body hashFile); [ | discriminate ].
    destruct (String.eqb _ _); simpl in V; [ discriminate | ].
    destruct reason; [ congruence | discriminate ].
Qed.

Lemma RetrieveLatestApp_callback_verified (query : Query.Latest) (location : string) :
  RetrieveLatestApp_callback env query = Ok location -> verified_target env location.
Proof.
  unfold RetrieveLatestApp_callback. unfold Result_bind at 1.
  destruct (ListObjectsV2Command _ _) as [response|]; [ | discriminate ].
  destruct (CommonPrefixes response) as [[|cp cps]|]; try discriminate.
  destruct (Semver.maxSatisfying _ _ _) as [latestVersion|]; [ | discriminate ].
  apply verified_after_selection. discriminate.
Qed.

Lemma RetrieveLatestSystemRecovery_callback_verified (query : Query.Latest)
    (location : string) :
  RetrieveLatestSystemRecovery_callback env query = Ok location ->
  verified_target env location.
Proof.
  unfold RetrieveLatestSystemRecovery_callback. unfold Result_bind at 1.
  destruct (ListObjectsV2Command _ _) as [response|]; [ | discriminate ].
  destruct (CommonPrefixes response) as [[|cp cps]|]; try discriminate.
  destruct (Semver.maxSatisfying _ _ _) as [latestVersion|]; [ | discriminate ].
  apply verified_after_selection. discriminate.
Qed.

(** C8, as the code has it. [verifyHash] answers true exactly when the
    digest file, trimmed, is the SHA-256 of the artifact in hexadecimal.
    When it is not, and a failure reason that is not the empty string was
    given, it throws an InternalServerError with that reason; with no
    reason, or the empty one, it returns false.  And a redirect endpoint
    whose cache has no target for the request redirects only to a target
    that was verified. *)
Theorem verifyHash_gates_redirects :
  (forall file hashFile exception,
     verifyHash file hashFile exception = Ok true <-> digest_matches file hashFile)
  /\ (forall file hashFile chunks hashChunks reason,
       Body file = Some chunks -> Body hashFile = Some hashChunks ->
       ~ digest_matches file hashFile -> reason <> EmptyString ->
       verifyHash file hashFile (Some reason) = Throw (InternalServerError reason))
  /\ (forall file hashFile chunks hashChunks,
       Body file = Some chunks -> Body hashFile = Some hashChunks ->
       ~ digest_matches file hashFile ->
       verifyHash file hashFile None = Ok false
       /\ verifyHash file hashFile (Some EmptyString) = Ok false)
  /\ (forall req w location,
       let query :=
         {| Query.prerelease := queryBoolean (query_prerelease req);
            Query.sku := querySku (query_sku req) |} in
       JS.truthy_opt (redirectCache w !! releaseCacheKey "app" query) = false ->
       fst (RetrieveLatestApp env req w) = Ok (redirect 302 location) ->
       verified_target env location)
  /\ (forall req w location,
       let query :=
         {| Query.prerelease := queryBoolean (query_prerelease req);
            Query.sku := querySku (query_sku req) |} in
       JS.truthy_opt (redirectCache w !! releaseCacheKey "system-recovery" query) = false ->
       fst (RetrieveLatestSystemRecovery env req w) = Ok (redirect 302 location) ->
       verified_target env location).
Proof.
  assert (Hdiffer : forall file hashFile chunks hashChunks,
    Body file = Some chunks -> Body hashFile = Some hashChunks ->
    ~ digest_matches file hashFile ->
    String.eqb (JS.trim (JS.trimEnd (JS.utf8_decode (concat hashChunks))))
      (Crypto.sha256_hex (concat chunks)) = false).
  { intros file hashFile chunks hashChunks Hf Hh Hno.
    apply String.eqb_neq. intros E. apply Hno. exists chunks, hashChunks. auto. }
  split; [ apply verifyHash_true | ].
  split; [ | split; [ | split ] ].
  - intros file hashFile chunks hashChunks reason Hf Hh Hno Hreason.
    rewrite (verifyHash_bodies _ _ _ _ _ Hf Hh). cbv zeta.
    rewrite (Hdiffer _ _ _ _ Hf Hh Hno). destruct reason; [ congruence | reflexivity ].
  - intros file hashFile chunks hashChunks Hf Hh Hno.
    rewrite !(verifyHash_bodies _ _ _ _ _ Hf Hh). cbv zeta.
    rewrite (Hdiffer _ _ _ _ Hf Hh Hno). split; reflexivity.
  - intros req w location query Hmiss. unfold RetrieveLatestApp.
    rewrite (cachedRedirect_miss _ _ req w Hmiss). fold query.
    destruct (RetrieveLatestApp_callback env query) as [result|] eqn:Ecb;
      [ | discriminate ].
    intros [= <-]. apply (RetrieveLatestApp_callback_verified query), Ecb.
  - intros req w location query Hmiss. unfold RetrieveLatestSystemRecovery.
    rewrite (cachedRedirect_miss _ _ req w Hmiss). fold query.
    destruct (RetrieveLatestSystemRecovery_callback env query) as [result|] eqn:Ecb;
      [ | discriminate ].
    intros [= <-]. apply (RetrieveLatestSystemRecovery_callback_verified query), Ecb.
Qed.

End Redirects.

(* ===================================================================== *)
(** ** The model on the test vectors and on the scenarios of the tests *)
(* ===================================================================== *)

(** The digests of RFC 1321 and of FIPS 180-4. *)
Example md5_test_vectors :
  Crypto.md5_hex "" = "d41d8cd98f00b204e9800998ecf8427e"
  /\ Crypto.md5_hex "abc" = "900150983cd24fb0d6963f7d28e17f72"
  /\ Crypto.md5_hex "message digest" = "f96b697d7cb7938d525a2f31aaf161d0".
Proof. repeat apply conj; vm_compute; reflexivity. Qed.

Example sha256_test_vectors :
  Crypto.sha256_hex (text "")
  = "e3b0c44298fc1c149afbf4c8996fb92427ae41e4649b934ca495991b7852b855"
  /\ Crypto.sha256_hex (text "abc")
     = "ba7816bf8f01cfea414140de5dae2223b00361a396177a9cb410ff61f20015ad".
Proof. repeat apply conj; vm_compute; reflexivity. Qed.

(** [trim] takes white space away at both ends, also a no-break space
    (C2 A0) and a line separator (E2 80 A8), and nothing inside. *)
Example trim_examples :
  JS.trim (String "194" (String "160" " a b ")) = "a b"
  /\ JS.trimEnd (String "009" ("abc" +:+ String "226" (String "128" (String "168" (String "010" "")))))
     = String "009" "abc"
  /\ JS.split "/" "app/1.0.0/" = ["app"; "1.0.0"; ""]
  /\ JS.parseInt16 "6656bcd3" = JS.Int 1716960467.
Proof. repeat apply conj; vm_compute; reflexivity. Qed.

(** The buckets of three device identifiers of the test suite. *)
Example bucket_examples :
  getDeviceRolloutBucket "device-123" = JS.Int 67
  /\ getDeviceRolloutBucket "device-eligible-3" = JS.Int 5
  /\ getDeviceRolloutBucket "device-not-eligible-0" = JS.Int 88.
Proof. repeat apply conj; vm_compute; reflexivity. Qed.

Lemma exactRanges_star : Semver.star_is_any Semver.exactRanges.
Proof. intros b. reflexivity. Qed.

(** The scenario of the specification and of the rollout tests: with
    1.1.0 at 100 percent and 1.2.0 at 10 percent, a device of bucket 5
    gets 1.2.0 and a device of bucket 88 gets 1.1.0; and a forced update
    gets 1.2.0 whatever the bucket. *)
Example rollout_scenario :
  versionsOf (fst (@Retrieve Semver.exactRanges (testEnv rolloutBucket)
                     (request "device-eligible-3") (emptyWorld seedReleases)))
  = Some ("1.2.0", "1.2.0")
  /\ versionsOf (fst (@Retrieve Semver.exactRanges (testEnv rolloutBucket)
                        (request "device-not-eligible-0") (emptyWorld seedReleases)))
     = Some ("1.1.0", "1.1.0")
  /\ versionsOf (fst (@Retrieve Semver.exactRanges (testEnv rolloutBucket)
                        {| query_deviceId := Some "device-not-eligible-0";
                           query_prerelease := None; query_appVersion := None;
                           query_systemVersion := None; query_sku := None;
                           query_forceUpdate := Some "true" |}
                        (emptyWorld seedReleases)))
     = Some ("1.2.0", "1.2.0").
Proof. repeat apply conj; vm_compute; reflexivity. Qed.

(** The redirect endpoint of the application on the example listing:
    every digest file there is wrong, and no redirect is produced. *)
Example redirect_refused :
  fst (@RetrieveLatestApp Semver.exactRanges (testEnv exampleBucket)
         (request "device-123") (emptyWorld []))
  = Throw (InternalServerError "app hash does not match").
Proof. vm_compute. reflexivity. Qed.

(* ===================================================================== *)
(** ** The properties at concrete inputs *)
(* ===================================================================== *)

(** C1 at a legacy version and at a version with a SKU folder, asked for
    a SKU that is not the default one: NotFound both times. *)
Lemma resolveArtifactPath_examples :
  resolveArtifactPath (testEnv skuBucket) app "1.0.0" "jetkvm-v3" None
  = Throw (NotFoundError
             ("Version 1.0.0 predates SKU support and cannot serve SKU "
              +:+ quote +:+ "jetkvm-v3" +:+ quote))
  /\ resolveArtifactPath (testEnv skuBucket) app "2.0.0" "jetkvm-v3" None
     = Throw (NotFoundError
                ("SKU " +:+ quote +:+ "jetkvm-v3" +:+ quote
                 +:+ " is not available for version 2.0.0")).
Proof.
  split.
  - apply (proj1 (resolveArtifactPath_never_falls_back
                    (testEnv skuBucket) app "1.0.0" "jetkvm-v3" None)).
    + vm_compute. reflexivity.
    + vm_compute. discriminate.
  - apply (proj1 (proj2 (resolveArtifactPath_never_falls_back
                           (testEnv skuBucket) app "2.0.0" "jetkvm-v3" None))).
    + vm_compute. reflexivity.
    + vm_compute. reflexivity.
Defined.

(** C2 at a request that pins the application to 1.0.0: the response is
    what the remote lookup resolved, the table is as it was, and no query
    was sent. *)
Lemma Retrieve_pinned_example :
  versionsOf (fst (@Retrieve Semver.exactRanges (testEnv exampleBucket) pinnedRequest
                     (emptyWorld seedReleases)))
  = Some ("1.0.0", "1.1.0")
  /\ releases (snd (@Retrieve Semver.exactRanges (testEnv exampleBucket) pinnedRequest
                       (emptyWorld seedReleases)))
     = seedReleases
  /\ queries (snd (@Retrieve Semver.exactRanges (testEnv exampleBucket) pinnedRequest
                      (emptyWorld seedReleases)))
     = [].
Proof.
  destruct (@Retrieve_pin_or_prerelease_bypasses_table Semver.exactRanges
              (testEnv exampleBucket) pinnedRequest
              {| Query.deviceId := "device-123"; Query.prerelease' := false;
                 Query.appVersion := Some "1.0.0"; Query.systemVersion := None;
                 Query.sku' := DEFAULT_SKU; Query.forceUpdate := false |}
              (emptyWorld seedReleases))
    as (Hresponse & Htable & Hjournal & _).
  - reflexivity.
  - right. left. vm_compute. discriminate.
  - split; [ rewrite Hresponse; vm_compute; reflexivity | ].
    split; [ exact Htable | exact Hjournal ].
Defined.

(** C5 at a table that knows the system release 1.2.0, at 40 percent,
    and not the application release 1.2.0: the system row stays at 40
    percent and an application row is created at 10 percent. *)
Lemma Retrieve_upsert_example :
  Prisma.rolloutPercentage
    <$> Prisma.findUnique "1.2.0" system
          (releases (snd (@Retrieve Semver.exactRanges (testEnv rolloutBucket)
                            (request "device-123") (emptyWorld oldReleases))))
  = Some 40%Z
  /\ Prisma.rolloutPercentage
       <$> Prisma.findUnique "1.2.0" app
             (releases (snd (@Retrieve Semver.exactRanges (testEnv rolloutBucket)
                               (request "device-123") (emptyWorld oldReleases))))
     = Some 10%Z.
Proof.
  destruct (@Retrieve_upsert_creates_at_10_or_keeps Semver.exactRanges
              (testEnv rolloutBucket) (request "device-123")
              {| Query.deviceId := "device-123"; Query.prerelease' := false;
                 Query.appVersion := None; Query.systemVersion := None;
                 Query.sku' := DEFAULT_SKU; Query.forceUpdate := false |}
              (emptyWorld oldReleases)
              (snd (@getReleaseFromS3 Semver.exactRanges (testEnv rolloutBucket) false
                      (Some "*") (Some "*") DEFAULT_SKU (emptyWorld oldReleases)))
              app120 system120)
    as (_ & Hrows & _).
  - reflexivity.
  - reflexivity.
  - reflexivity.
  - reflexivity.
  - rewrite (surjective_pairing (getReleaseFromS3 _ _ _ _ _ _)).
    f_equal; vm_compute; reflexivity.
  - split.
    + destruct (Hrows system system120) as [Hkept _]; [ right; reflexivity | ].
      exact (f_equal (fmap Prisma.rolloutPercentage)
               (Hkept (row "1.2.0" system 40) eq_refl)).
    + destruct (Hrows app app120) as [_ Hcreated]; [ left; reflexivity | ].
      exact (f_equal (fmap Prisma.rolloutPercentage) (Hcreated eq_refl)).
Defined.

(** C6 as it is written fails: with 1.0.0 and 2.0.0-rc.1 both at 100
    percent the default release is 1.0.0, and 2.0.0-rc.1 is above it. *)
Lemma getDefaultRelease_skips_higher_prerelease :
  fst (@getDefaultRelease Semver.exactRanges app
         (emptyWorld [row "1.0.0" app 100; row "2.0.0-rc.1" app 100]))
  = Ok (row "1.0.0" app 100)
  /\ (Semver.valid "2.0.0-rc.1" = true
      /\ exists lower higher,
           Semver.parse "1.0.0" = Some lower
           /\ Semver.parse "2.0.0-rc.1" = Some higher
           /\ Semver.compare lower higher = Lt).
Proof.
  split; [ vm_compute; reflexivity | ].
  split; [ vm_compute; reflexivity | ].
  do 2 eexists. split; [ vm_compute; reflexivity | ].
  split; [ vm_compute; reflexivity | vm_compute; reflexivity ].
Qed.

(** C6, as the code has it, on the seed of the tests: the default
    application release is 1.1.0. *)
Lemma getDefaultRelease_seed_example :
  exists r,
    fst (@getDefaultRelease Semver.exactRanges app (emptyWorld seedReleases)) = Ok r
    /\ stable (Prisma.version r) = true.
Proof.
  destruct (@getDefaultRelease_highest_stable Semver.exactRanges app
              (emptyWorld seedReleases) exactRanges_star) as (Hsel & Hsome & _).
  destruct (Hsome (row "1.1.0" app 100)) as (r & Hr).
  - split; [ simpl; auto | split; reflexivity ].
  - vm_compute. reflexivity.
  - exists r. split; [ exact Hr | ]. apply (Hsel r Hr).
Defined.



(** C8 as it is written fails.  The digests differ and the reason that
    is supplied is the empty string: [verifyHash] returns false, where
    with the reason of the application endpoint it throws.  And on the
    example listing, where every digest file is wrong, the application
    endpoint redirects to the target its cache holds, where with an empty
    cache it throws. *)
Lemma verifyHash_empty_reason_returns_false :
  verifyHash actualContent wrongHash (Some EmptyString) = Ok false
  /\ verifyHash actualContent wrongHash (Some "app hash does not match")
     = Throw (InternalServerError "app hash does not match")
  /\ fst (@RetrieveLatestApp Semver.exactRanges (testEnv exampleBucket)
            (request "device-123") cachedTargetWorld)
     = Ok (redirect 302 "https://cdn.test.com/app/1.1.0/jetkvm_app")
  /\ fst (@RetrieveLatestApp Semver.exactRanges (testEnv exampleBucket)
            (request "device-123") (emptyWorld []))
     = Throw (InternalServerError "app hash does not match").
Proof. repeat apply conj; vm_compute; reflexivity. Qed.

(** C8, as the code has it, on the files of the test: with the reason
    of the application endpoint the mismatch is thrown, with none it is
    false; and the right digest file, with its line end, is accepted. *)
Lemma verifyHash_examples :
  verifyHash actualContent wrongHash (Some "app hash does not match")
  = Throw (InternalServerError "app hash does not match")
  /\ verifyHash actualContent wrongHash None = Ok false
  /\ digest_matches actualContent rightHash.
Proof.
  destruct (@verifyHash_gates_redirects Semver.exactRanges (testEnv exampleBucket))
    as (Htrue & Hthrow & Hfalse & _).
  assert (Hno : ~ digest_matches actualContent wrongHash).
  { intros H. apply (Htrue _ _ None) in H. vm_compute in H. discriminate. }
  split; [ | split ].
  - exact (Hthrow actualContent wrongHash [text "actual-content"]
             [text "wrong-hash-value"] "app hash does not match"
             eq_refl eq_refl Hno ltac:(discriminate)).
  - exact (proj1 (Hfalse actualContent wrongHash [text "actual-content"]
                    [text "wrong-hash-value"] eq_refl eq_refl Hno)).
  - apply (Htrue _ _ None). vm_compute. reflexivity.
Defined.

(** A redirect that is produced: the digest file of [goodBucket] is the
    right one. *)
Example redirect_produced :
  fst (@RetrieveLatestApp Semver.exactRanges (testEnv goodBucket)
         (request "device-123") (emptyWorld []))
  = Ok (redirect 302 "https://cdn.test.com/app/1.0.0/jetkvm_app").
Proof. vm_compute. reflexivity. Qed.

(** C9 at a string that is not a range and at one that is. *)
Lemma toSemverRange_examples :
  @toSemverRange Semver.exactRanges (Some "not a range") = "*"
  /\ @toSemverRange Semver.exactRanges (Some "1.2.3") = "1.2.3"
  /\ @toSemverRange Semver.exactRanges None = "*".
Proof.
  destruct (@toSemverRange_total Semver.exactRanges)
    as (Hnone & _ & Hinvalid & Hvalid & _).
  split; [ | split ].
  - apply Hinvalid. vm_compute. reflexivity.
  - apply Hvalid; [ discriminate | vm_compute; reflexivity | discriminate ].
  - exact Hnone.
Defined.

(** C10 at the table of the claim: 2.0.0-rc.1 at 100 percent and nothing
    else of the kind at 100 percent. *)
Lemma getDefaultRelease_only_prereleases_example :
  fst (@getDefaultRelease Semver.exactRanges app
         (emptyWorld [row "2.0.0-rc.1" app 100; row "1.0.0" app 50;
                      row "1.0.0" system 100]))
  = Throw (InternalServerError "No default release found for type app").
Proof.
  apply (@getDefaultRelease_only_prereleases Semver.exactRanges app
           (emptyWorld [row "2.0.0-rc.1" app 100; row "1.0.0" app 50;
                        row "1.0.0" system 100]) exactRanges_star).
  intros r [<- | [<- | [<- | []]]] Ht Hp; try discriminate.
  vm_compute. reflexivity.
Defined.

(* ===================================================================== *)
(** ** The release cache *)
(* ===================================================================== *)

Section ReleaseCache.

Context `{RS : Semver.RangeSyntax}.

(** A lookup that finds its key in the cache answers with the entry and
    does nothing else. *)
Lemma getLatestVersion_hit (env : Env) (prefix : ReleaseType) (includePrerelease : bool)
    (maxSatisfying : option string) (sku : string) (w : World) (c : ReleaseMetadata) :
  releaseCache w !! releaseKey prefix includePrerelease maxSatisfying sku = Some c ->
  getLatestVersion env prefix includePrerelease maxSatisfying sku w = (Ok c, w).
Proof.
  intros Hhit. unfold getLatestVersion, bind, releaseCache_get, ret.
  unfold releaseKey in Hhit. rewrite Hhit. reflexivity.
Qed.

(** How a lookup leaves the world: as it was, or with the release it
    returns cached under its key. *)
Lemma getLatestVersion_run (env : Env) (prefix : ReleaseType) (includePrerelease : bool)
    (maxSatisfying : option string) (sku : string) (w : World) :
  let key := releaseKey prefix includePrerelease maxSatisfying sku in
  let run := getLatestVersion env prefix includePrerelease maxSatisfying sku w in
  (snd run = w
   /\ forall release, fst run = Ok release -> releaseCache w !! key = Some release)
  \/ (exists release,
        fst run = Ok release /\ releaseCache w !! key = None
        /\ snd run = with_release key release w).
Proof.
  intros key run. subst run.
  destruct (releaseCache w !! key) as [c|] eqn:Hc.
  - left. rewrite (getLatestVersion_hit env _ _ _ _ w c Hc). simpl.
    split; [ reflexivity | intros release [= <-]; reflexivity ].
  - unfold getLatestVersion, bind, lift, ret, throw, releaseCache_get, releaseCache_set.
    unfold key, releaseKey in Hc. rewrite Hc.
    destruct (ListObjectsV2Command _ _) as [response|];
      [ | left; split; [ reflexivity | discriminate ] ].
    destruct (CommonPrefixes response) as [[|cp cps]|];
      try (left; split; [ reflexivity | discriminate ]).
    destruct (validVersions _) as [|v versions];
      [ left; split; [ reflexivity | discriminate ] | ].
    destruct (Semver.maxSatisfying _ _ _) as [latestVersion|];
      [ | left; split; [ reflexivity | discriminate ] ].
    destruct (resolveArtifactPath _ _ _ _ _) as [selectedPath|];
      [ | left; split; [ reflexivity | discriminate ] ].
    destruct (GetObjectCommand _ _) as [hashResponse|];
      [ | left; split; [ reflexivity | discriminate ] ].
    destruct (streamToString _) as [hash|];
      [ | left; split; [ reflexivity | discriminate ] ].
    right. eexists. repeat split.
Qed.

(** After a lookup that returned a release, the cache has it under the
    key of the lookup. *)
Lemma getLatestVersion_cached (env : Env) (prefix : ReleaseType) (includePrerelease : bool)
    (maxSatisfying : option string) (sku : string) (w w1 : World)
    (release : ReleaseMetadata) :
  getLatestVersion env prefix includePrerelease maxSatisfying sku w = (Ok release, w1) ->
  releaseCache w1 !! releaseKey prefix includePrerelease maxSatisfying sku = Some release.
Proof.
  intros Hrun.
  destruct (getLatestVersion_run env prefix includePrerelease maxSatisfying sku w)
    as [[Hw Hc] | (r & Hr & _ & Hw)]; rewrite Hrun in *; simpl in *.
  - subst w1. apply Hc. reflexivity.
  - injection Hr as ->. subst w1. apply lookup_insert_eq.
Qed.

(** The two lookups of a request never share a key. *)
Lemma releaseKey_app_system (b b' : bool) (m m' : option string) (sku sku' : string) :
  releaseKey app b m sku <> releaseKey system b' m' sku'.
Proof. discriminate. Qed.

(** X1. A lookup that has returned a release has left it in the release
    cache under its key, and for as long as that entry is there, neither
    expired nor evicted, the same lookup is answered with that release,
    whatever the bucket holds by then: in a world whose entry under the
    key is the one the first lookup left, the answer comes from the
    cache, and the bucket is not asked. *)
Theorem getLatestVersion_repeats_from_cache (env env' : Env) (prefix : ReleaseType)
    (includePrerelease : bool) (maxSatisfying : option string) (sku : string)
    (w w1 w2 : World) (release : ReleaseMetadata) :
  getLatestVersion env prefix includePrerelease maxSatisfying sku w = (Ok release, w1) ->
  releaseCache w2 !! releaseKey prefix includePrerelease maxSatisfying sku
  = releaseCache w1 !! releaseKey prefix includePrerelease maxSatisfying sku ->
  releaseCache w1 !! releaseKey prefix includePrerelease maxSatisfying sku = Some release
  /\ getLatestVersion env' prefix includePrerelease maxSatisfying sku w2 = (Ok release, w2).
Proof.
  intros Hrun Hlive.
  pose proof (getLatestVersion_cached env _ _ _ _ w w1 release Hrun) as Hc.
  split; [ exact Hc | ].
  apply getLatestVersion_hit. rewrite Hlive. exact Hc.
Qed.

Lemma getLatestVersion_other_keys (env : Env) (prefix : ReleaseType)
    (includePrerelease : bool) (maxSatisfying : option string) (sku : string)
    (w : World) (k : string) :
  k <> releaseKey prefix includePrerelease maxSatisfying sku ->
  releaseCache (snd (getLatestVersion env prefix includePrerelease maxSatisfying sku w)) !! k
  = releaseCache w !! k.
Proof.
  intros Hk.
  destruct (getLatestVersion_run env prefix includePrerelease maxSatisfying sku w)
    as [[-> _] | (r & _ & _ & ->)]; [ reflexivity | ].
  apply lookup_insert_ne. congruence.
Qed.

(** X2. What a lookup leaves behind. A lookup that throws leaves the
    world as it found it: a failure is not cached. A lookup that returns
    a release leaves that release in the release cache under its key.
    In every case the redirect cache, the release table and the journal
    of queries are as they were. *)
Theorem getLatestVersion_caches_successes_only (env : Env) (prefix : ReleaseType)
    (includePrerelease : bool) (maxSatisfying : option string) (sku : string) (w : World) :
  let key := releaseKey prefix includePrerelease maxSatisfying sku in
  let run := getLatestVersion env prefix includePrerelease maxSatisfying sku w in
  (forall e, fst run = Throw e -> snd run = w)
  /\ (forall release, fst run = Ok release -> releaseCache (snd run) !! key = Some release)
  /\ redirectCache (snd run) = redirectCache w
  /\ releases (snd run) = releases w
  /\ queries (snd run) = queries w.
Proof.
  intros key run.
  split; [ | split ].
  - intros e He.
    destruct (getLatestVersion_run env prefix includePrerelease maxSatisfying sku w)
      as [[Hw _] | (r & Hr & _ & _)]; [ exact Hw | ].
    fold run in Hr. congruence.
  - intros release Hr.
    apply (getLatestVersion_cached env prefix includePrerelease maxSatisfying sku w).
    fold run. rewrite <- Hr. apply surjective_pairing.
  - subst run.
    destruct (getLatestVersion_run env prefix includePrerelease maxSatisfying sku w)
      as [[-> _] | (r & _ & _ & ->)]; repeat split; reflexivity.
Qed.

(** X3. What a release fetched from the bucket is made of. When the
    cache has no entry, a release that is returned is of an artifact
    whose path resolves for its version and the SKU asked for; its URL is
    that path under the CDN base URL; its hash is the text of the digest
    file published next to the artifact, read as UTF-8 (a byte sequence
    that is not UTF-8 reads as U+FFFD) and without its trailing white
    space, taken as it is: the artifact itself is not read; and it is
    stamped with the time of the lookup and the range asked for. *)
Theorem getLatestVersion_fetched_release (env : Env) (prefix : ReleaseType)
    (includePrerelease : bool) (maxSatisfying : option string) (sku : string)
    (w : World) (release : ReleaseMetadata) :
  releaseCache w !! releaseKey prefix includePrerelease maxSatisfying sku = None ->
  fst (getLatestVersion env prefix includePrerelease maxSatisfying sku w) = Ok release ->
  exists path hashResponse chunks,
    resolveArtifactPath env prefix (version release) sku None = Ok path
    /\ url release = baseUrl env +:+ "/" +:+ path
    /\ GetObjectCommand (s3Client env) (path +:+ ".sha256") = Ok hashResponse
    /\ Body hashResponse = Some chunks
    /\ hash release = JS.trimEnd (JS.utf8_decode (concat chunks))
    /\ _cachedAt release = Some (Date_now env prefix)
    /\ _maxSatisfying release = Some (default "*" maxSatisfying).
Proof.
  unfold releaseKey, getLatestVersion, bind, lift, ret, throw,
    releaseCache_get, releaseCache_set.
  intros ->.
  destruct (ListObjectsV2Command _ _) as [response|]; [ | discriminate ].
  destruct (CommonPrefixes response) as [[|cp cps]|]; try discriminate.
  destruct (validVersions _) as [|v versions]; [ discriminate | ].
  destruct (Semver.maxSatisfying _ _ _) as [latestVersion|]; [ | discriminate ].
  destruct (resolveArtifactPath _ _ _ _ _) as [selectedPath|] eqn:Hpath; [ | discriminate ].
  destruct (GetObjectCommand _ _) as [hashResponse|] eqn:Hget; [ | discriminate ].
  unfold streamToString.
  destruct (Body hashResponse) as [chunks|] eqn:Hbody; [ | discriminate ].
  intros [= <-]. exists selectedPath, hashResponse, chunks. simpl.
  repeat split; assumption.
Qed.

Lemma string_app_assoc (a b c : string) : (a +:+ b) +:+ c = a +:+ (b +:+ c).
Proof.
  induction a as [|x a IH]; [ reflexivity | ].
  change (String x ((a +:+ b) +:+ c) = String x (a +:+ b +:+ c)).
  f_equal. exact IH.
Qed.

(** X4. The key of the release cache joins the range and the SKU with a
    hyphen and so does not tell where the one ends and the other starts:
    the lookup for a range ending in [-tail] and a SKU, and the lookup
    for the range without that ending and the SKU [tail-sku], have the
    same key.  So once the first has returned a release, and for as long
    as the entry it left is there, the second is answered with that
    release, whatever the bucket holds. *)
Theorem getLatestVersion_key_joins_range_and_sku (env env' : Env) (prefix : ReleaseType)
    (includePrerelease : bool) (range tail sku : string) (w w1 w2 : World)
    (release : ReleaseMetadata) :
  getLatestVersion env prefix includePrerelease (Some (range +:+ "-" +:+ tail)) sku w
  = (Ok release, w1) ->
  releaseCache w2 !! releaseKey prefix includePrerelease (Some (range +:+ "-" +:+ tail)) sku
  = releaseCache w1 !! releaseKey prefix includePrerelease (Some (range +:+ "-" +:+ tail)) sku ->
  releaseKey prefix includePrerelease (Some range) (tail +:+ "-" +:+ sku)
  = releaseKey prefix includePrerelease (Some (range +:+ "-" +:+ tail)) sku
  /\ getLatestVersion env' prefix includePrerelease (Some range) (tail +:+ "-" +:+ sku) w2
     = (Ok release, w2).
Proof.
  intros Hrun Hlive.
  assert (Hkey : releaseKey prefix includePrerelease (Some range) (tail +:+ "-" +:+ sku)
                 = releaseKey prefix includePrerelease (Some (range +:+ "-" +:+ tail)) sku).
  { unfold releaseKey. cbn [default from_option id].
    rewrite !string_app_assoc. reflexivity. }
  split; [ exact Hkey | ].
  apply getLatestVersion_hit. rewrite Hkey, Hlive.
  exact (getLatestVersion_cached env _ _ _ _ w w1 release Hrun).
Qed.

(** The two lookups of [getReleaseFromS3], when it returns. *)
Lemma getReleaseFromS3_runs (env : Env) (includePrerelease : bool)
    (appVersion systemVersion : option string) (sku : string) (w w1 : World)
    (remoteRelease : Release) :
  getReleaseFromS3 env includePrerelease appVersion systemVersion sku w
  = (Ok remoteRelease, w1) ->
  exists appRelease systemRelease wa,
    getLatestVersion env app includePrerelease appVersion sku w = (Ok appRelease, wa)
    /\ getLatestVersion env system includePrerelease systemVersion sku wa
       = (Ok systemRelease, w1)
    /\ remoteRelease = toRelease (Some appRelease) (Some systemRelease).
Proof.
  unfold getReleaseFromS3, bind, both, ret.
  destruct (getLatestVersion env app _ _ _ w) as [ra wa].
  destruct (getLatestVersion env system _ _ _ wa) as [rs ws] eqn:Es.
  destruct ra as [x|e], rs as [y|e']; simpl; try discriminate.
  intros [= <- <-]. exists x, y, wa. auto.
Qed.

(** [getReleaseFromS3] when the cache has both releases. *)
Lemma getReleaseFromS3_hit (env : Env) (includePrerelease : bool)
    (appVersion systemVersion : option string) (sku : string) (w : World)
    (appRelease systemRelease : ReleaseMetadata) :
  releaseCache w !! releaseKey app includePrerelease appVersion sku = Some appRelease ->
  releaseCache w !! releaseKey system includePrerelease systemVersion sku
  = Some systemRelease ->
  getReleaseFromS3 env includePrerelease appVersion systemVersion sku w
  = (Ok (toRelease (Some appRelease) (Some systemRelease)), w).
Proof.
  intros Ha Hs. unfold getReleaseFromS3, bind, both.
  rewrite (getLatestVersion_hit env _ _ _ _ w _ Ha).
  rewrite (getLatestVersion_hit env _ _ _ _ w _ Hs). reflexivity.
Qed.

(** After [getReleaseFromS3] has returned, the cache has both releases. *)
Lemma getReleaseFromS3_cached (env : Env) (includePrerelease : bool)
    (appVersion systemVersion : option string) (sku : string) (w w1 : World)
    (appRelease systemRelease : ReleaseMetadata) :
  getLatestVersion env app includePrerelease appVersion sku w = (Ok appRelease, w1) ->
  forall w2,
  getLatestVersion env system includePrerelease systemVersion sku w1
  = (Ok systemRelease, w2) ->
  releaseCache w2 !! releaseKey app includePrerelease appVersion sku = Some appRelease
  /\ releaseCache w2 !! releaseKey system includePrerelease systemVersion sku
     = Some systemRelease.
Proof.
  intros Ha w2 Hs. split.
  - pose proof (getLatestVersion_other_keys env system includePrerelease systemVersion
                  sku w1 (releaseKey app includePrerelease appVersion sku)
                  (releaseKey_app_system _ _ _ _ _ _)) as K.
    rewrite Hs in K. simpl in K. rewrite K.
    exact (getLatestVersion_cached env _ _ _ _ w w1 _ Ha).
  - exact (getLatestVersion_cached env _ _ _ _ w1 w2 _ Hs).
Qed.

(** X5. Once the remote lookup of a request has returned the two
    releases, and for as long as the two entries it left in the release
    cache are there, neither expired nor evicted, the same lookup
    returns the same two, cache stamps included, without asking the
    bucket and whichever of the two lookups settles first. *)
Theorem getReleaseFromS3_repeats_from_cache (env env' : Env) (includePrerelease : bool)
    (appVersion systemVersion : option string) (sku : string) (w w1 w2 : World)
    (remoteRelease : Release) :
  getReleaseFromS3 env includePrerelease appVersion systemVersion sku w
  = (Ok remoteRelease, w1) ->
  releaseCache w2 !! releaseKey app includePrerelease appVersion sku
  = releaseCache w1 !! releaseKey app includePrerelease appVersion sku ->
  releaseCache w2 !! releaseKey system includePrerelease systemVersion sku
  = releaseCache w1 !! releaseKey system includePrerelease systemVersion sku ->
  getReleaseFromS3 env' includePrerelease appVersion systemVersion sku w2
  = (Ok remoteRelease, w2).
Proof.
  intros Hrun La Ls.
  destruct (getReleaseFromS3_runs env _ _ _ _ w w1 _ Hrun) as (x & y & wa & Ha & Hs & ->).
  destruct (getReleaseFromS3_cached env _ _ _ _ w wa x y Ha w1 Hs) as [Ca Cs].
  apply getReleaseFromS3_hit; [ rewrite La | rewrite Ls ]; assumption.
Qed.

(** What a lookup answers depends on the world through the entry of the
    release cache under its key, and on nothing else of it. *)
Lemma getLatestVersion_reads_its_key (env : Env) (prefix : ReleaseType)
    (includePrerelease : bool) (maxSatisfying : option string) (sku : string)
    (w w' : World) :
  releaseCache w' !! releaseKey prefix includePrerelease maxSatisfying sku
  = releaseCache w !! releaseKey prefix includePrerelease maxSatisfying sku ->
  fst (getLatestVersion env prefix includePrerelease maxSatisfying sku w')
  = fst (getLatestVersion env prefix includePrerelease maxSatisfying sku w).
Proof.
  unfold releaseKey, getLatestVersion, bind, lift, ret, throw,
    releaseCache_get, releaseCache_set.
  intros ->.
  destruct (releaseCache w !! _); [ reflexivity | ].
  destruct (ListObjectsV2Command _ _) as [response|]; [ | reflexivity ].
  destruct (CommonPrefixes response) as [[|cp cps]|]; try reflexivity.
  destruct (validVersions _) as [|v versions]; [ reflexivity | ].
  destruct (Semver.maxSatisfying _ _ _) as [latestVersion|]; [ | reflexivity ].
  destruct (resolveArtifactPath _ _ _ _ _) as [selectedPath|]; [ | reflexivity ].
  destruct (GetObjectCommand _ _) as [hashResponse|]; [ | reflexivity ].
  destruct (streamToString _) as [hash|]; reflexivity.
Qed.

(** The world a lookup leaves, from what it answers and what the cache
    had. *)
Lemma getLatestVersion_world (env : Env) (prefix : ReleaseType)
    (includePrerelease : bool) (maxSatisfying : option string) (sku : string)
    (w : World) :
  let key := releaseKey prefix includePrerelease maxSatisfying sku in
  snd (getLatestVersion env prefix includePrerelease maxSatisfying sku w)
  = match fst (getLatestVersion env prefix includePrerelease maxSatisfying sku w),
          releaseCache w !! key with
    | Ok release, None => with_release key release w
    | _, _ => w
    end.
Proof.
  intros key.
  destruct (getLatestVersion_run env prefix includePrerelease maxSatisfying sku w)
    as [[-> Hc] | (r & -> & Hnone & ->)].
  - destruct (fst _) as [release|]; [ | reflexivity ].
    fold key in Hc. rewrite (Hc release eq_refl). reflexivity.
  - fold key in Hnone. rewrite Hnone. reflexivity.
Qed.

(** X23. The two lookups of a request do not depend on each other:
    what [getReleaseFromS3] answers is what [Promise.all] makes of the
    two lookups each run on the world as the request found it, and the
    world it leaves is the same whichever of the two runs first. *)
Theorem getReleaseFromS3_lookups_independent (env : Env) (includePrerelease : bool)
    (appVersion systemVersion : option string) (sku : string) (w : World) :
  let runApp := getLatestVersion env app includePrerelease appVersion sku in
  let runSystem := getLatestVersion env system includePrerelease systemVersion sku in
  let run := getReleaseFromS3 env includePrerelease appVersion systemVersion sku w in
  fst run
  = (let! (appRelease, systemRelease) :=
       Promise_all (firstSettlesFirst env) (fst (runApp w)) (fst (runSystem w)) in
     Ok (toRelease (Some appRelease) (Some systemRelease)))
  /\ snd run = snd (runSystem (snd (runApp w)))
  /\ snd run = snd (runApp (snd (runSystem w))).
Proof.
  intros runApp runSystem run.
  set (kA := releaseKey app includePrerelease appVersion sku).
  set (kS := releaseKey system includePrerelease systemVersion sku).
  assert (Hne : kA <> kS) by apply releaseKey_app_system.
  assert (RS1 : fst (runSystem (snd (runApp w))) = fst (runSystem w)).
  { apply getLatestVersion_reads_its_key, getLatestVersion_other_keys.
    intros E. apply Hne. symmetry. exact E. }
  assert (RA1 : fst (runApp (snd (runSystem w))) = fst (runApp w)).
  { apply getLatestVersion_reads_its_key, getLatestVersion_other_keys. exact Hne. }
  assert (Hrun : run = (let! (appRelease, systemRelease) :=
                          Promise_all (firstSettlesFirst env) (fst (runApp w))
                            (fst (runSystem (snd (runApp w)))) in
                        Ok (toRelease (Some appRelease) (Some systemRelease)),
                        snd (runSystem (snd (runApp w))))).
  { subst run. unfold getReleaseFromS3, bind, both, ret. fold runApp runSystem.
    destruct (runApp w) as [ra wa]. cbn [fst snd].
    destruct (runSystem wa) as [rs ws]. cbn [fst snd].
    destruct (Promise_all _ ra rs) as [[x y]|e]; reflexivity. }
  rewrite Hrun. cbn [fst snd]. rewrite RS1.
  split; [ reflexivity | ]. split; [ reflexivity | ].
  unfold runApp, runSystem in *.
  rewrite (getLatestVersion_world env system _ _ _ (snd _)), RS1.
  rewrite (getLatestVersion_world env app _ _ _ (snd (getLatestVersion env system _ _ _ w))),
    RA1.
  rewrite (getLatestVersion_other_keys env app _ _ _ w kS)
    by (intros E; apply Hne; symmetry; exact E).
  rewrite (getLatestVersion_other_keys env system _ _ _ w kA) by exact Hne.
  rewrite (getLatestVersion_world env app _ _ _ w),
    (getLatestVersion_world env system _ _ _ w).
  cbv zeta. fold kA kS.
  destruct (fst (getLatestVersion env app _ _ _ w)) as [ra|];
    destruct (fst (getLatestVersion env system _ _ _ w)) as [rs|];
    destruct (releaseCache w !! kA), (releaseCache w !! kS); try reflexivity.
  unfold with_release. cbn [releaseCache redirectCache releases queries].
  f_equal. apply insert_insert_ne. intros E. apply Hne. symmetry. exact E.
Qed.

End ReleaseCache.

(* ===================================================================== *)
(** ** The redirect cache and [clearCaches] *)
(* ===================================================================== *)

Lemma ignores_redirectCache_get (key : string) : ignores_table (redirectCache_get key).
Proof. intros table journal w. reflexivity. Qed.

Lemma ignores_redirectCache_set (key : string) (v : string) :
  ignores_table (redirectCache_set key v).
Proof. intros table journal w. reflexivity. Qed.

Lemma append_truthy (a b : string) : JS.truthy (a +:+ "/" +:+ b) = true.
Proof. destruct a; reflexivity. Qed.

Section RedirectCache.

Context `{RS : Semver.RangeSyntax}.

Lemma ignores_cachedRedirect (cachedKey : Query.Latest -> string)
    (callback : Query.Latest -> Result string) (req : Request) :
  ignores_table (cachedRedirect cachedKey callback req).
Proof.
  unfold cachedRedirect.
  apply ignores_bind; [ apply ignores_lift | intros query ].
  apply ignores_bind; [ apply ignores_redirectCache_get | intros result ].
  destruct (JS.truthy_opt result); [ apply ignores_ret | ].
  apply ignores_bind; [ apply ignores_lift | intros location ].
  apply ignores_bind; [ apply ignores_redirectCache_set | intros _ ].
  apply ignores_ret.
Qed.

(** A redirect endpoint, when its cache has a target for the request. *)
Lemma cachedRedirect_hit (cachedKey : Query.Latest -> string)
    (callback : Query.Latest -> Result string) (req : Request) (w : World)
    (location : string) :
  redirectCache w !! cachedKey (latestQueryOf req) = Some location ->
  JS.truthy location = true ->
  cachedRedirect cachedKey callback req w = (Ok (redirect 302 location), w).
Proof.
  intros Hhit Htruthy.
  unfold cachedRedirect, bind, lift, ret, parseLatestQuery, redirectCache_get.
  fold (latestQueryOf req). rewrite Hhit. simpl. rewrite Htruthy. reflexivity.
Qed.

(** How a redirect endpoint whose callback never answers with the empty
    string leaves the world: as it was, or with the target it answers
    with cached under the key of the request. *)
Lemma cachedRedirect_run (cachedKey : Query.Latest -> string)
    (callback : Query.Latest -> Result string) (req : Request) (w : World) :
  (forall query location, callback query = Ok location -> JS.truthy location = true) ->
  let key := cachedKey (latestQueryOf req) in
  let run := cachedRedirect cachedKey callback req w in
  (snd run = w
   /\ forall response, fst run = Ok response ->
        exists location,
          response = redirect 302 location /\ JS.truthy location = true
          /\ redirectCache w !! key = Some location)
  \/ (exists location,
        fst run = Ok (redirect 302 location) /\ JS.truthy location = true
        /\ callback (latestQueryOf req) = Ok location
        /\ snd run = with_redirect key location w).
Proof.
  intros Hcb key run. subst run.
  destruct (JS.truthy_opt (redirectCache w !! key)) eqn:Hc.
  - destruct (redirectCache w !! key) as [location|] eqn:Hl; [ | discriminate ].
    left. rewrite (cachedRedirect_hit _ _ _ _ location Hl Hc). simpl.
    split; [ reflexivity | ]. intros response [= <-]. eauto.
  - rewrite (cachedRedirect_miss _ _ _ _ Hc).
    fold (latestQueryOf req).
    destruct (callback (latestQueryOf req)) as [location|e] eqn:Ecb.
    + right. exists location. simpl. pose proof (Hcb _ _ Ecb). auto.
    + left. simpl. split; [ reflexivity | discriminate ].
Qed.

(** The target of a redirect is never the empty string. *)
Lemma RetrieveLatestApp_callback_truthy (env : Env) (query : Query.Latest)
    (location : string) :
  RetrieveLatestApp_callback env query = Ok location -> JS.truthy location = true.
Proof.
  unfold RetrieveLatestApp_callback.
  destruct (ListObjectsV2Command _ _) as [response|]; simpl; [ | discriminate ].
  destruct (CommonPrefixes response) as [[|cp cps]|]; try discriminate.
  destruct (Semver.maxSatisfying _ _ _); [ | discriminate ].
  destruct (resolveArtifactPath _ _ _ _ _); simpl; [ | discriminate ].
  destruct (getArtifactAndHash _ _) as [[file hashFile]|]; simpl; [ | discriminate ].
  destruct (negb (has_body file) || negb (has_body hashFile)); [ discriminate | ].
  destruct (verifyHash _ _ _); simpl; [ | discriminate ].
  intros [= <-]. apply append_truthy.
Qed.

Lemma RetrieveLatestSystemRecovery_callback_truthy (env : Env) (query : Query.Latest)
    (location : string) :
  RetrieveLatestSystemRecovery_callback env query = Ok location ->
  JS.truthy location = true.
Proof.
  unfold RetrieveLatestSystemRecovery_callback.
  destruct (ListObjectsV2Command _ _) as [response|]; simpl; [ | discriminate ].
  destruct (CommonPrefixes response) as [[|cp cps]|]; try discriminate.
  destruct (Semver.maxSatisfying _ _ _); [ | discriminate ].
  destruct (resolveArtifactPath _ _ _ _ _); simpl; [ | discriminate ].
  destruct (getArtifactAndHash _ _) as [[file hashFile]|]; simpl; [ | discriminate ].
  destruct (negb (has_body file) || negb (has_body hashFile)); [ discriminate | ].
  destruct (verifyHash _ _ _); simpl; [ | discriminate ].
  intros [= <-]. apply append_truthy.
Qed.

(** One of the two redirect endpoints is [cachedRedirect] on its key
    prefix and its callback. *)
Lemma redirect_endpoint_unfold (env : Env) (recovery : bool) :
  redirect_endpoint env recovery
  = cachedRedirect (releaseCacheKey (redirect_prefix recovery))
      (redirect_callback env recovery).
Proof. destruct recovery; reflexivity. Qed.

Lemma redirect_callback_truthy (env : Env) (recovery : bool) (query : Query.Latest)
    (location : string) :
  redirect_callback env recovery query = Ok location -> JS.truthy location = true.
Proof.
  destruct recovery;
    [ apply RetrieveLatestSystemRecovery_callback_truthy
    | apply RetrieveLatestApp_callback_truthy ].
Qed.

(** The key of the redirect cache tells the endpoints and the queries
    apart. *)
Lemma releaseCacheKey_inj (recovery recovery' : bool) (query query' : Query.Latest) :
  releaseCacheKey (redirect_prefix recovery) query
  = releaseCacheKey (redirect_prefix recovery') query' ->
  recovery = recovery' /\ query = query'.
Proof.
  destruct query as [pre sku], query' as [pre' sku'].
  unfold releaseCacheKey, redirect_prefix. cbn [Query.prerelease Query.sku].
  destruct recovery, recovery', pre, pre';
    intros H; try discriminate H; cbv [String.append] in H; injection H as ->; auto.
Qed.

(** X6. A redirect that was answered has left its target in the
    redirect cache under the key of the request, and for as long as that
    entry is there, neither expired nor evicted, a request to the same
    endpoint with the same prerelease flag and SKU is answered with the
    same redirect, from the cache, whatever the bucket holds by then. *)
Theorem redirect_repeats_from_cache (env env' : Env) (recovery : bool)
    (req req' : Request) (w w1 w2 : World) (response : Response) :
  latestQueryOf req' = latestQueryOf req ->
  redirect_endpoint env recovery req w = (Ok response, w1) ->
  redirectCache w2 !! releaseCacheKey (redirect_prefix recovery) (latestQueryOf req)
  = redirectCache w1 !! releaseCacheKey (redirect_prefix recovery) (latestQueryOf req) ->
  redirect_endpoint env' recovery req' w2 = (Ok response, w2).
Proof.
  rewrite !redirect_endpoint_unfold. intros Hq Hrun Hlive.
  destruct (cachedRedirect_run (releaseCacheKey (redirect_prefix recovery))
              (redirect_callback env recovery) req w
              (redirect_callback_truthy env recovery))
    as [[Hw Hc] | (location & Hr & Ht & _ & Hw)]; rewrite Hrun in *; simpl in *.
  - subst w1. destruct (Hc response eq_refl) as (location & -> & Ht & Hl).
    apply cachedRedirect_hit; [ rewrite Hq, Hlive; exact Hl | exact Ht ].
  - injection Hr as ->. subst w1.
    apply cachedRedirect_hit; [ rewrite Hq, Hlive; apply lookup_insert_eq | exact Ht ].
Qed.

(** X7. What a redirect endpoint does to the world, and what it answers.
    A request that throws leaves the world as it found it: a failure is
    not cached. A request that is answered is answered with a 302 to a
    target that is not the empty string, which the redirect cache then
    holds under the key of the request. The release cache, the release
    table and the journal of queries are as they were. *)
Theorem redirect_endpoint_effects (env : Env) (recovery : bool) (req : Request)
    (w : World) :
  let key := releaseCacheKey (redirect_prefix recovery) (latestQueryOf req) in
  let run := redirect_endpoint env recovery req w in
  (forall e, fst run = Throw e -> snd run = w)
  /\ (forall response,
        fst run = Ok response ->
        exists location,
          response = redirect 302 location /\ location <> EmptyString
          /\ redirectCache (snd run) !! key = Some location)
  /\ releaseCache (snd run) = releaseCache w
  /\ releases (snd run) = releases w
  /\ queries (snd run) = queries w.
Proof.
  intros key run. subst run. rewrite redirect_endpoint_unfold.
  assert (Hne : forall location, JS.truthy location = true -> location <> EmptyString)
    by (intros location Ht ->; discriminate Ht).
  destruct (cachedRedirect_run (releaseCacheKey (redirect_prefix recovery))
              (redirect_callback env recovery) req w
              (redirect_callback_truthy env recovery))
    as [[Hw Hc] | (location & Hr & Ht & _ & Hw)]; fold key in Hw |- *.
  - rewrite Hw. split; [ reflexivity | ]. split; [ | auto ].
    intros response Hresp. destruct (Hc response Hresp) as (location & -> & Ht & Hl).
    exists location. auto.
  - rewrite Hw, Hr. split; [ discriminate | ]. split.
    + intros response [= <-]. exists location.
      split; [ reflexivity | ]. split; [ auto | apply lookup_insert_eq ].
    + auto.
Qed.

(** What a redirect endpoint answers depends on the world through the
    entry of the redirect cache under the key of the request, and on
    nothing else of it. *)
Lemma cachedRedirect_reads_its_key (cachedKey : Query.Latest -> string)
    (callback : Query.Latest -> Result string) (req : Request) (w w' : World) :
  redirectCache w' !! cachedKey (latestQueryOf req)
  = redirectCache w !! cachedKey (latestQueryOf req) ->
  fst (cachedRedirect cachedKey callback req w')
  = fst (cachedRedirect cachedKey callback req w).
Proof.
  intros Hsame.
  unfold cachedRedirect, bind, lift, ret, parseLatestQuery, redirectCache_get,
    redirectCache_set.
  fold (latestQueryOf req). rewrite Hsame.
  destruct (JS.truthy_opt _); [ reflexivity | ].
  destruct (callback _); reflexivity.
Qed.

(** X8. The redirect cache keeps the two endpoints apart, and the
    queries of one endpoint: the keys of two requests are the same only
    when the requests are to the same endpoint with the same prerelease
    flag and SKU, and a request never sets a target under the key of a
    request to the other endpoint, or of one with another prerelease
    flag or another SKU.  An entry found under such a key after the
    request is the one that was there before it. *)
Theorem redirect_cache_separates_requests (env' : Env) (recovery recovery' : bool)
    (req req' : Request) (w : World) :
  recovery' <> recovery \/ latestQueryOf req' <> latestQueryOf req ->
  let key := releaseCacheKey (redirect_prefix recovery) (latestQueryOf req) in
  let key' := releaseCacheKey (redirect_prefix recovery') (latestQueryOf req') in
  let w1 := snd (redirect_endpoint env' recovery' req' w) in
  key' <> key
  /\ (redirectCache w1 !! key = None
      \/ redirectCache w1 !! key = redirectCache w !! key).
Proof.
  intros Hother key key' w1.
  assert (Hne : key' <> key).
  { intros [E1 E2]%releaseCacheKey_inj. destruct Hother as [H | H]; congruence. }
  split; [ exact Hne | right ].
  subst w1. rewrite redirect_endpoint_unfold.
  destruct (cachedRedirect_run (releaseCacheKey (redirect_prefix recovery'))
              (redirect_callback env' recovery') req' w
              (redirect_callback_truthy env' recovery'))
    as [[-> _] | (location & _ & _ & _ & ->)]; [ reflexivity | ].
  apply lookup_insert_ne. exact Hne.
Qed.

(** X9. After [clearCaches] the lookups and the redirect endpoints
    answer as they do in a process that has just started, whatever the
    caches held; the release table and the journal are not touched. *)
Theorem clearCaches_forgets (env : Env) (prefix : ReleaseType)
    (includePrerelease : bool) (maxSatisfying : option string) (sku : string)
    (recovery : bool) (req : Request) (w : World) :
  let cleared := snd (clearCaches w) in
  fst (clearCaches w) = Ok tt
  /\ fst (getLatestVersion env prefix includePrerelease maxSatisfying sku cleared)
     = fst (getLatestVersion env prefix includePrerelease maxSatisfying sku (emptyWorld []))
  /\ fst (redirect_endpoint env recovery req cleared)
     = fst (redirect_endpoint env recovery req (emptyWorld []))
  /\ releases cleared = releases w
  /\ queries cleared = queries w.
Proof.
  intros cleared.
  assert (E : cleared = with_table (releases w) (queries w) (emptyWorld []))
    by reflexivity.
  split; [ reflexivity | ]. split; [ | split; [ | split; reflexivity ] ].
  - rewrite E, (ignores_getLatestVersion env). reflexivity.
  - rewrite E, redirect_endpoint_unfold, (ignores_cachedRedirect _ _ req). reflexivity.
Qed.

(** What a callback resolves, when it answers. *)
Lemma redirect_callback_Ok (env : Env) (recovery : bool) (query : Query.Latest)
    (location : string) :
  redirect_callback env recovery query = Ok location ->
  exists response commonPrefixes latestVersion path,
    ListObjectsV2Command (s3Client env)
      {| Prefix := type_name (redirect_kind recovery) +:+ "/";
         Delimiter := Some "/"; MaxKeys := None |} = Ok response
    /\ CommonPrefixes response = Some commonPrefixes
    /\ Semver.maxSatisfying (validVersions (versionFolders commonPrefixes)) "*"
         (Query.prerelease query) = Some latestVersion
    /\ resolveArtifactPath env (redirect_kind recovery) latestVersion (Query.sku query)
         (redirect_artifact recovery) = Ok path
    /\ location = baseUrl env +:+ "/" +:+ path.
Proof.
  destruct recovery;
    unfold redirect_callback, RetrieveLatestSystemRecovery_callback,
      RetrieveLatestApp_callback, redirect_kind, redirect_artifact;
    change (type_name system +:+ "/") with "system/";
    change (type_name app +:+ "/") with "app/";
    (destruct (ListObjectsV2Command _ _) as [response|] eqn:Hlist; simpl;
       [ | discriminate ]);
    (destruct (CommonPrefixes response) as [[|cp cps]|] eqn:Hcps; try discriminate);
    (destruct (Semver.maxSatisfying _ _ _) as [latestVersion|] eqn:Hmax;
       [ | discriminate ]);
    (destruct (resolveArtifactPath _ _ _ _ _) as [path|] eqn:Hpath; simpl;
       [ | discriminate ]);
    (destruct (getArtifactAndHash _ _) as [[file hashFile]|]; simpl; [ | discriminate ]);
    (destruct (negb (has_body file) || negb (has_body hashFile)); [ discriminate | ]);
    (destruct (verifyHash _ _ _); simpl; [ | discriminate ]);
    intros [= <-]; exists response, (cp :: cps), latestVersion, path;
    (split; [ first [ reflexivity | exact Hlist ] | ]);
    (split; [ first [ reflexivity | exact Hcps ] | ]);
    (split; [ exact Hmax | ]); (split; [ exact Hpath | reflexivity ]).
Qed.

(** X25. Where a redirect leads, when it is not answered from the
    cache: to the artifact of the highest version of the listing of its
    kind, among the stable ones or, with the prerelease flag, among all,
    resolved for the SKU of the request; for the recovery endpoint the
    artifact is [update.img] of the system.  Highest is in the
    comparison of the package: no version that is eligible compares
    above it. *)
Theorem redirect_target_is_highest_version (env : Env) (recovery : bool)
    (req : Request) (w : World) (location : string) :
  Semver.star_is_any RS ->
  JS.truthy_opt
    (redirectCache w !! releaseCacheKey (redirect_prefix recovery) (latestQueryOf req))
  = false ->
  fst (redirect_endpoint env recovery req w) = Ok (redirect 302 location) ->
  let prerelease := queryBoolean (query_prerelease req) in
  let eligible v := if prerelease then Semver.valid v else stable v in
  exists response commonPrefixes latestVersion path,
    ListObjectsV2Command (s3Client env)
      {| Prefix := type_name (redirect_kind recovery) +:+ "/";
         Delimiter := Some "/"; MaxKeys := None |} = Ok response
    /\ CommonPrefixes response = Some commonPrefixes
    /\ In (Some latestVersion) (versionFolders commonPrefixes)
    /\ eligible latestVersion = true
    /\ (forall v, In (Some v) (versionFolders commonPrefixes) ->
          eligible v = true -> version_le v latestVersion)
    /\ resolveArtifactPath env (redirect_kind recovery) latestVersion
         (querySku (query_sku req)) (redirect_artifact recovery) = Ok path
    /\ location = baseUrl env +:+ "/" +:+ path.
Proof.
  intros Star Hmiss Hrun prerelease eligible.
  rewrite redirect_endpoint_unfold, (cachedRedirect_miss _ _ _ _ Hmiss) in Hrun.
  fold (latestQueryOf req) in Hrun.
  destruct (redirect_callback env recovery (latestQueryOf req)) as [target|] eqn:Hcb;
    [ | discriminate ].
  injection Hrun as ->.
  destruct (redirect_callback_Ok env recovery _ _ Hcb)
    as (response & cps & latestVersion & path & Hlist & Hcps & Hmax & Hpath & ->).
  cbn [latestQueryOf Query.prerelease Query.sku] in Hmax, Hpath.
  fold prerelease in Hmax.
  destruct (maxSatisfying_Some _ _ _ _ Hmax) as (Hin & Hsat & Hle).
  assert (Hel : forall v, Semver.satisfies v "*" prerelease = eligible v)
    by (intros v; apply satisfies_star, Star).
  exists response, cps, latestVersion, path.
  split; [ exact Hlist | ]. split; [ exact Hcps | ].
  split; [ apply validVersions_In in Hin; apply Hin | ].
  split; [ rewrite <- Hel; exact Hsat | ].
  split; [ | auto ].
  intros v Hv He. apply Hle; [ | rewrite Hel; exact He ].
  apply validVersions_In. split; [ exact Hv | ].
  unfold eligible, stable, Semver.valid in *.
  destruct prerelease; [ exact He | ].
  destruct (Semver.parse v); [ reflexivity | discriminate ].
Qed.

End RedirectCache.

(* ===================================================================== *)
(** ** [Retrieve], from the request to the response *)
(* ===================================================================== *)

Section RetrieveRollout.

Context `{RS : Semver.RangeSyntax} (env : Env).

(** [Retrieve] on a request without device identifier. *)
Lemma Retrieve_bad_request (req : Request) (w : World) (e : Error) :
  parseRetrieveQuery req = Throw e -> Retrieve env req w = (Throw e, w).
Proof. intros H. unfold Retrieve, bind, lift. rewrite H. reflexivity. Qed.

(** [Retrieve] when the remote lookup throws. *)
Lemma Retrieve_remote_error (req : Request) (query : Query.Retrieve) (w w1 : World)
    (e : Error) :
  parseRetrieveQuery req = Ok query ->
  getReleaseFromS3 env (Query.prerelease' query)
    (Some (toSemverRange (Query.appVersion query)))
    (Some (toSemverRange (Query.systemVersion query))) (Query.sku' query) w
  = (Throw e, w1) ->
  Retrieve env req w = (Throw (wrapRemoteError e), w1).
Proof.
  intros Hparse Hremote. unfold Retrieve, bind at 1. unfold lift. rewrite Hparse.
  unfold bind at 1. unfold try_catch. rewrite Hremote.
  unfold wrapRemoteError. destruct (is_NotFoundError e); reflexivity.
Qed.

(** [Retrieve] past the remote lookup, on a request that is neither for
    prereleases nor pinned: the two upserts, and then either the rows
    they hand back or the choice between them and the default rows. *)
Lemma Retrieve_rollout (req : Request) (query : Query.Retrieve) (w w1 : World)
    (appRelease systemRelease : ReleaseMetadata) :
  parseRetrieveQuery req = Ok query ->
  Query.prerelease' query = false ->
  toSemverRange (Query.appVersion query) = "*" ->
  toSemverRange (Query.systemVersion query) = "*" ->
  getReleaseFromS3 env false (Some "*") (Some "*") (Query.sku' query) w
  = (Ok (toRelease (Some appRelease) (Some systemRelease)), w1) ->
  let createApp :=
    firstSeen app (Some (version appRelease)) (Some (url appRelease))
      (Some (hash appRelease)) in
  let createSystem :=
    firstSeen system (Some (version systemRelease)) (Some (url systemRelease))
      (Some (hash systemRelease)) in
  let afterApp :=
    Prisma.upsert (version appRelease) app (fun r => r) createApp (releases w) in
  let afterSystem :=
    Prisma.upsert (version systemRelease) system (fun r => r) createSystem (fst afterApp) in
  let latestApp := snd afterApp in
  let latestSystem := snd afterSystem in
  let w2 :=
    {| releaseCache := releaseCache w1;
       redirectCache := redirectCache w1;
       releases := fst afterSystem;
       queries := (queries w ++ [Prisma.Upsert (version appRelease) app])
                  ++ [Prisma.Upsert (version systemRelease) system] |} in
  Retrieve env req w =
  if Query.forceUpdate query then
    (Ok (json (toRelease (Some (metadata_of_row latestApp))
                         (Some (metadata_of_row latestSystem)))), w2)
  else
    (let* defaultApp := getDefaultRelease app in
     let* defaultSystem := getDefaultRelease system in
     ret (json
            (toRelease
               (Some (metadata_of_row
                        (if isDeviceEligibleForLatestRelease
                              (Prisma.rolloutPercentage latestApp) (Query.deviceId query)
                         then latestApp else defaultApp)))
               (Some (metadata_of_row
                        (if isDeviceEligibleForLatestRelease
                              (Prisma.rolloutPercentage latestSystem) (Query.deviceId query)
                         then latestSystem else defaultSystem)))))) w2.
Proof.
  intros Hparse Hpre Happ Hsys Hremote createApp createSystem afterApp afterSystem
    latestApp latestSystem w2.
  destruct (ignores_table_keeps _ w
              (ignores_getReleaseFromS3 env false (Some "*") (Some "*") (Query.sku' query)))
    as [Kr Kq].
  rewrite Hremote in Kr, Kq. cbn [snd] in Kr, Kq.
  set (R := Retrieve env req w).
  assert (E : R = Retrieve env req w) by reflexivity.
  unfold Retrieve, bind at 1 in E. unfold lift in E. rewrite Hparse in E.
  rewrite Hpre, Happ, Hsys in E. unfold bind at 1 in E. unfold try_catch in E.
  rewrite Hremote in E.
  cbn [String.eqb negb orb Ascii.eqb Bool.eqb] in E.
  unfold bind at 1 in E. unfold prisma_release_upsert at 1 in E.
  cbn [toRelease setAppRelease setSystemRelease appVersion appUrl appHash
       systemVersion systemUrl systemHash default from_option id] in E.
  fold createApp in E. rewrite Kr, Kq in E. fold afterApp in E.
  subst latestApp latestSystem w2 afterSystem.
  destruct afterApp as [tableA rowA] eqn:EA. cbn [fst snd] in *.
  unfold bind at 1 in E. unfold prisma_release_upsert at 1 in E.
  cbn [releases queries releaseCache redirectCache] in E.
  fold createSystem in E.
  destruct (Prisma.upsert (version systemRelease) system _ createSystem tableA)
    as [tableS rowS] eqn:ES.
  cbn [fst snd]. rewrite E. clear E R.
  destruct (Query.forceUpdate query); [ reflexivity | ].
  unfold bind, ret.
  destruct (getDefaultRelease app _) as [[dA|?] wA]; [ | reflexivity ].
  destruct (getDefaultRelease system _) as [[dS|?] wS]; [ | reflexivity ].
  do 2 destruct (isDeviceEligibleForLatestRelease _ _); reflexivity.
Qed.

(** The ways [Retrieve] can go: a bad request; a remote lookup that
    throws; a prerelease or pinned request answered with what the remote
    lookup returns; and the rollout path. *)
Lemma Retrieve_cases (req : Request) (w : World) :
  (exists e, parseRetrieveQuery req = Throw e /\ Retrieve env req w = (Throw e, w))
  \/ (exists query e w1,
        parseRetrieveQuery req = Ok query
        /\ getReleaseFromS3 env (Query.prerelease' query)
             (Some (toSemverRange (Query.appVersion query)))
             (Some (toSemverRange (Query.systemVersion query))) (Query.sku' query) w
           = (Throw e, w1)
        /\ Retrieve env req w = (Throw (wrapRemoteError e), w1))
  \/ (exists query remoteRelease w1,
        parseRetrieveQuery req = Ok query
        /\ getReleaseFromS3 env (Query.prerelease' query)
             (Some (toSemverRange (Query.appVersion query)))
             (Some (toSemverRange (Query.systemVersion query))) (Query.sku' query) w
           = (Ok remoteRelease, w1)
        /\ Retrieve env req w = (Ok (json remoteRelease), w1))
  \/ (exists query appRelease systemRelease w1,
        parseRetrieveQuery req = Ok query
        /\ Query.prerelease' query = false
        /\ toSemverRange (Query.appVersion query) = "*"
        /\ toSemverRange (Query.systemVersion query) = "*"
        /\ getReleaseFromS3 env false (Some "*") (Some "*") (Query.sku' query) w
           = (Ok (toRelease (Some appRelease) (Some systemRelease)), w1)).
Proof.
  destruct (parseRetrieveQuery req) as [query|e] eqn:Hparse;
    [ | left; exists e; split; [ reflexivity | apply Retrieve_bad_request, Hparse ] ].
  right.
  destruct (getReleaseFromS3 env (Query.prerelease' query)
              (Some (toSemverRange (Query.appVersion query)))
              (Some (toSemverRange (Query.systemVersion query))) (Query.sku' query) w)
    as [[remoteRelease|e] w1] eqn:Hremote;
    [ | left; exists query, e, w1; split; [ reflexivity | ]; split; [ exact Hremote | ];
        exact (Retrieve_remote_error req query w w1 e Hparse Hremote) ].
  right.
  destruct (Query.prerelease' query
            || (negb (String.eqb (toSemverRange (Query.appVersion query)) "*")
                || negb (String.eqb (toSemverRange (Query.systemVersion query)) "*")))
    eqn:Hcond.
  - left. exists query, remoteRelease, w1. split; [ reflexivity | ]. split; [ exact Hremote | ].
    rewrite (Retrieve_bypass env req query w Hparse Hcond).
    unfold bind, try_catch. rewrite Hremote. reflexivity.
  - right.
    apply orb_false_iff in Hcond as [Hpre Hcond].
    apply orb_false_iff in Hcond as [Happ Hsys].
    apply negb_false_iff, String.eqb_eq in Happ, Hsys.
    assert (Hok : fst (getReleaseFromS3 env (Query.prerelease' query)
                         (Some (toSemverRange (Query.appVersion query)))
                         (Some (toSemverRange (Query.systemVersion query)))
                         (Query.sku' query) w) = Ok remoteRelease)
      by (rewrite Hremote; reflexivity).
    destruct (getReleaseFromS3_Ok env _ _ _ _ _ _ Hok) as (a & s & ->).
    exists query, a, s, w1. rewrite Hpre, Happ, Hsys in Hremote. auto.
Qed.

(** A row found under a key has that key. *)
Lemma findUnique_key (v : string) (t : ReleaseType) (table : list Prisma.Release)
    (row : Prisma.Release) :
  Prisma.findUnique v t table = Some row ->
  In row table /\ Prisma.version row = v /\ Prisma.type row = t.
Proof.
  unfold Prisma.findUnique. intros H.
  destruct (find_some _ _ H) as [Hin Hkey]. split; [ exact Hin | ].
  unfold Prisma.has_key in Hkey. apply andb_true_iff in Hkey as [Hv Ht].
  apply String.eqb_eq in Hv. split; [ exact Hv | ].
  destruct (Prisma.type row), t; try discriminate; reflexivity.
Qed.

(** No row has a key that is not found. *)
Lemma findUnique_None (v : string) (t : ReleaseType) (table : list Prisma.Release) :
  Prisma.findUnique v t table = None ->
  ~ In (v, t) (map (fun r => (Prisma.version r, Prisma.type r)) table).
Proof.
  unfold Prisma.findUnique. intros H Hin.
  apply in_map_iff in Hin as (row & Hkey & Hin).
  pose proof (find_none _ _ H row Hin) as Hno. injection Hkey as Hv Ht.
  unfold Prisma.has_key in Hno. rewrite Hv, Ht, String.eqb_refl in Hno.
  destruct t; discriminate.
Qed.

(** The table after the two upserts of [Retrieve]. *)
Lemma two_upserts (appRelease systemRelease : ReleaseMetadata)
    (table : list Prisma.Release) :
  let createApp :=
    firstSeen app (Some (version appRelease)) (Some (url appRelease))
      (Some (hash appRelease)) in
  let createSystem :=
    firstSeen system (Some (version systemRelease)) (Some (url systemRelease))
      (Some (hash systemRelease)) in
  let afterApp :=
    Prisma.upsert (version appRelease) app (fun r => r) createApp table in
  let afterSystem :=
    Prisma.upsert (version systemRelease) system (fun r => r) createSystem (fst afterApp) in
  exists createdApp createdSystem,
    fst afterApp = table ++ createdApp
    /\ fst afterSystem = (table ++ createdApp) ++ createdSystem
    /\ (createdApp = []
        /\ Prisma.findUnique (version appRelease) app table = Some (snd afterApp)
        \/ createdApp = [createApp] /\ snd afterApp = createApp
           /\ Prisma.findUnique (version appRelease) app table = None)
    /\ (createdSystem = []
        /\ Prisma.findUnique (version systemRelease) system (table ++ createdApp)
           = Some (snd afterSystem)
        \/ createdSystem = [createSystem] /\ snd afterSystem = createSystem
           /\ Prisma.findUnique (version systemRelease) system (table ++ createdApp) = None)
    /\ Prisma.findUnique (version appRelease) app (fst afterSystem) = Some (snd afterApp)
    /\ Prisma.findUnique (version systemRelease) system (fst afterSystem)
       = Some (snd afterSystem).
Proof.
  intros createApp createSystem afterApp afterSystem.
  destruct (upsert_firstSeen app appRelease table) as (cA & EA & HcA & FA & OldA & NewA).
  destruct (upsert_firstSeen system systemRelease (fst afterApp))
    as (cS & ES & HcS & FS & OldS & NewS).
  cbv zeta in *. fold createApp in EA, FA, OldA, NewA, HcA. fold afterApp in EA, FA, OldA, NewA.
  fold createSystem in ES, FS, OldS, NewS, HcS.
  fold afterApp in ES, FS, OldS, NewS. fold afterSystem in ES, FS, OldS, NewS.
  exists cA, cS. rewrite ES, EA.
  split; [ reflexivity | ]. split; [ reflexivity | ].
  rewrite EA in FS, OldS, NewS.
  split; [ | split; [ | split ] ].
  - destruct (Prisma.findUnique (version appRelease) app table) as [row|] eqn:E.
    + left. destruct (OldA row eq_refl) as [-> ->]. auto.
    + right. destruct (NewA eq_refl) as [-> ->]. auto.
  - destruct (Prisma.findUnique (version systemRelease) system (table ++ cA))
      as [row|] eqn:E.
    + left. destruct (OldS row eq_refl) as [-> ->]. auto.
    + right. destruct (NewS eq_refl) as [-> ->]. auto.
  - rewrite findUnique_app, FA. reflexivity.
  - exact FS.
Qed.

(** [getDefaultRelease] sends one query, and what it answers depends on
    the world through the rows of its kind at 100 percent. *)
Lemma getDefaultRelease_run (type : ReleaseType) (w : World) :
  snd (getDefaultRelease type w)
  = with_table (releases w) (queries w ++ [Prisma.FindMany type 100]) w.
Proof.
  unfold getDefaultRelease, bind, prisma_release_findMany, throw, ret.
  destruct (Prisma.findMany type 100 (releases w)); [ reflexivity | ].
  destruct (find _ _); reflexivity.
Qed.

Lemma getDefaultRelease_rows (type : ReleaseType) (w w' : World) :
  Prisma.findMany type 100 (releases w') = Prisma.findMany type 100 (releases w) ->
  fst (getDefaultRelease type w') = fst (getDefaultRelease type w).
Proof.
  intros H. unfold getDefaultRelease, bind, prisma_release_findMany, throw, ret.
  rewrite H.
  destruct (Prisma.findMany type 100 (releases w)); [ reflexivity | ].
  destruct (find _ _); reflexivity.
Qed.

Lemma findMany_app (t : ReleaseType) (pct : Z) (l1 l2 : list Prisma.Release) :
  Prisma.findMany t pct (l1 ++ l2) = Prisma.findMany t pct l1 ++ Prisma.findMany t pct l2.
Proof. apply List.filter_app. Qed.

(** The rows that the upserts create are at 10 percent, and so are not
    among the rows at 100 percent. *)
Lemma findMany_two_upserts (type : ReleaseType)
    (appRelease systemRelease : ReleaseMetadata) (table : list Prisma.Release) :
  let createApp :=
    firstSeen app (Some (version appRelease)) (Some (url appRelease))
      (Some (hash appRelease)) in
  let createSystem :=
    firstSeen system (Some (version systemRelease)) (Some (url systemRelease))
      (Some (hash systemRelease)) in
  Prisma.findMany type 100
    (fst (Prisma.upsert (version systemRelease) system (fun r => r) createSystem
            (fst (Prisma.upsert (version appRelease) app (fun r => r) createApp table))))
  = Prisma.findMany type 100 table.
Proof.
  intros createApp createSystem.
  destruct (two_upserts appRelease systemRelease table)
    as (cA & cS & _ & E & HA & HS & _).
  cbv zeta in E, HA, HS. fold createApp createSystem in E, HA, HS.
  rewrite E, !findMany_app.
  assert (NA : Prisma.findMany type 100 cA = []).
  { destruct HA as [[-> _] | [-> _]]; [ reflexivity | ].
    unfold Prisma.findMany. simpl. rewrite andb_false_r. reflexivity. }
  assert (NS : Prisma.findMany type 100 cS = []).
  { destruct HS as [[-> _] | [-> _]]; [ reflexivity | ].
    unfold Prisma.findMany. simpl. rewrite andb_false_r. reflexivity. }
  rewrite NA, NS, !app_nil_r. reflexivity.
Qed.

(** What [getDefaultRelease] throws. *)
Lemma getDefaultRelease_throws (type : ReleaseType) (w : World) (e : Error) :
  fst (getDefaultRelease type w) = Throw e ->
  e = InternalServerError ("No default release found for type " +:+ type_name type).
Proof.
  unfold getDefaultRelease, bind, prisma_release_findMany, throw, ret.
  destruct (Prisma.findMany type 100 (releases w)); cbn [fst];
    [ intros [= <-]; reflexivity | ].
  destruct (find _ _); cbn [fst]; intros [= <-]. reflexivity.
Qed.

(** The rollout path of [Retrieve] from end to end: what it answers,
    with the default rows read off the table as it was before the
    request, and the world it leaves. *)
Lemma Retrieve_rollout_run (req : Request) (query : Query.Retrieve) (w w1 : World)
    (appRelease systemRelease : ReleaseMetadata) :
  parseRetrieveQuery req = Ok query ->
  Query.prerelease' query = false ->
  toSemverRange (Query.appVersion query) = "*" ->
  toSemverRange (Query.systemVersion query) = "*" ->
  getReleaseFromS3 env false (Some "*") (Some "*") (Query.sku' query) w
  = (Ok (toRelease (Some appRelease) (Some systemRelease)), w1) ->
  let createApp :=
    firstSeen app (Some (version appRelease)) (Some (url appRelease))
      (Some (hash appRelease)) in
  let createSystem :=
    firstSeen system (Some (version systemRelease)) (Some (url systemRelease))
      (Some (hash systemRelease)) in
  let afterApp :=
    Prisma.upsert (version appRelease) app (fun r => r) createApp (releases w) in
  let afterSystem :=
    Prisma.upsert (version systemRelease) system (fun r => r) createSystem (fst afterApp) in
  let latestApp := snd afterApp in
  let latestSystem := snd afterSystem in
  let run := Retrieve env req w in
  fst run
  = (if Query.forceUpdate query then
       Ok (json (toRelease (Some (metadata_of_row latestApp))
                           (Some (metadata_of_row latestSystem))))
     else
       match fst (getDefaultRelease app w), fst (getDefaultRelease system w) with
       | Throw e, _ => Throw e
       | Ok _, Throw e => Throw e
       | Ok defaultApp, Ok defaultSystem =>
           Ok (json
                 (toRelease
                    (Some (metadata_of_row
                             (if isDeviceEligibleForLatestRelease
                                   (Prisma.rolloutPercentage latestApp)
                                   (Query.deviceId query)
                              then latestApp else defaultApp)))
                    (Some (metadata_of_row
                             (if isDeviceEligibleForLatestRelease
                                   (Prisma.rolloutPercentage latestSystem)
                                   (Query.deviceId query)
                              then latestSystem else defaultSystem)))))
       end)
  /\ releases (snd run) = fst afterSystem
  /\ queries (snd run)
     = queries w
       ++ Prisma.Upsert (version appRelease) app
          :: Prisma.Upsert (version systemRelease) system
          :: (if Query.forceUpdate query then []
              else Prisma.FindMany app 100
                   :: match fst (getDefaultRelease app w) with
                      | Ok _ => [Prisma.FindMany system 100]
                      | Throw _ => []
                      end)
  /\ releaseCache (snd run) = releaseCache w1
  /\ redirectCache (snd run) = redirectCache w1.
Proof.
  intros Hparse Hpre Happ Hsys Hremote createApp createSystem afterApp afterSystem
    latestApp latestSystem run.
  pose proof (Retrieve_rollout req query w w1 appRelease systemRelease
                Hparse Hpre Happ Hsys Hremote) as E.
  cbv zeta in E. fold createApp createSystem in E. fold afterApp in E.
  fold afterSystem in E. fold latestApp latestSystem in E. fold run in E.
  destruct (Query.forceUpdate query).
  - rewrite E. cbn [fst snd releases queries releaseCache redirectCache].
    rewrite <- !app_assoc. repeat split; reflexivity.
  - set (w2 := {| releaseCache := releaseCache w1;
                  redirectCache := redirectCache w1;
                  releases := fst afterSystem;
                  queries := (queries w ++ [Prisma.Upsert (version appRelease) app])
                             ++ [Prisma.Upsert (version systemRelease) system] |}) in E.
    assert (Rows : forall type journal,
              fst (getDefaultRelease type (with_table (fst afterSystem) journal w2))
              = fst (getDefaultRelease type w)).
    { intros type journal. apply getDefaultRelease_rows.
      apply (findMany_two_upserts type appRelease systemRelease (releases w)). }
    assert (EA : getDefaultRelease app w2
                 = (fst (getDefaultRelease app w),
                    with_table (fst afterSystem)
                      (queries w2 ++ [Prisma.FindMany app 100]) w2)).
    { rewrite (surjective_pairing (getDefaultRelease app w2)). f_equal.
      - exact (Rows app (queries w2)).
      - apply getDefaultRelease_run. }
    unfold bind at 1 in E. rewrite EA in E.
    destruct (fst (getDefaultRelease app w)) as [defaultApp|e].
    + set (wA := with_table (fst afterSystem)
                   (queries w2 ++ [Prisma.FindMany app 100]) w2) in E.
      assert (ES : getDefaultRelease system wA
                   = (fst (getDefaultRelease system w),
                      with_table (fst afterSystem)
                        (queries wA ++ [Prisma.FindMany system 100]) wA)).
      { rewrite (surjective_pairing (getDefaultRelease system wA)). f_equal.
        - exact (Rows system (queries w2 ++ [Prisma.FindMany app 100])).
        - apply getDefaultRelease_run. }
      unfold bind at 1 in E. rewrite ES in E.
      destruct (fst (getDefaultRelease system w)) as [defaultSystem|e];
        rewrite E; subst wA w2;
        cbn [fst snd releases queries releaseCache redirectCache with_table ret];
        rewrite <- !app_assoc; repeat split; reflexivity.
    + rewrite E. subst w2.
      cbn [fst snd releases queries releaseCache redirectCache with_table].
      rewrite <- !app_assoc. repeat split; reflexivity.
Qed.

(** X10. How [Retrieve] reports a request it cannot serve, the query
    parameters being strings.  A request without device identifier, or
    with an empty one, is a bad request, and nothing is read or written
    for it.  When the remote lookup throws, the release table is not
    asked: the table and the journal are as they were, and what is
    thrown is the NotFound of the lookup as it is, or else an internal
    error whose message starts with "Failed to get the latest release
    from S3: "; for an error of the S3 client that has a name and a
    message, the message goes on with the name, a colon and the
    message. *)
Theorem Retrieve_error_reporting (req : Request) (w : World) :
  (query_deviceId req = None \/ query_deviceId req = Some EmptyString ->
   Retrieve env req w = (Throw (BadRequestError "Device ID is required"), w))
  /\ (forall query remoteError w1,
        parseRetrieveQuery req = Ok query ->
        getReleaseFromS3 env (Query.prerelease' query)
          (Some (toSemverRange (Query.appVersion query)))
          (Some (toSemverRange (Query.systemVersion query))) (Query.sku' query) w
        = (Throw remoteError, w1) ->
        exists e,
          Retrieve env req w = (Throw e, w1)
          /\ releases w1 = releases w
          /\ queries w1 = queries w
          /\ (forall message, remoteError = NotFoundError message -> e = remoteError)
          /\ (is_NotFoundError remoteError = false ->
              exists detail,
                e = InternalServerError
                      ("Failed to get the latest release from S3: " +:+ detail))
          /\ (forall name message status,
                remoteError = S3Error name message status ->
                name <> EmptyString -> message <> EmptyString ->
                e = InternalServerError
                      ("Failed to get the latest release from S3: "
                       +:+ name +:+ ": " +:+ message))).
Proof.
  split.
  - intros Hid. apply Retrieve_bad_request. unfold parseRetrieveQuery.
    destruct Hid as [-> | ->]; reflexivity.
  - intros query remoteError w1 Hparse Hremote.
    exists (wrapRemoteError remoteError).
    split; [ exact (Retrieve_remote_error req query w w1 remoteError Hparse Hremote) | ].
    pose proof (ignores_table_keeps _ w
                  (ignores_getReleaseFromS3 env (Query.prerelease' query)
                     (Some (toSemverRange (Query.appVersion query)))
                     (Some (toSemverRange (Query.systemVersion query)))
                     (Query.sku' query))) as K.
    rewrite Hremote in K. cbn [snd] in K. destruct K as [Kr Kq].
    split; [ exact Kr | ]. split; [ exact Kq | ].
    unfold wrapRemoteError. split; [ | split ].
    + intros message ->. reflexivity.
    + intros ->. eexists. reflexivity.
    + intros name message status -> Hname Hmessage.
      destruct name as [|c name]; [ contradiction | ].
      destruct message as [|c' message]; [ contradiction | ].
      reflexivity.
Qed.

(** X11. What the rollout path answers. On a request that is neither
    for prereleases nor pinned nor a forced update, once the remote
    lookup has resolved the two releases: with a default release of each
    kind in the table as it was before the request, the response gives,
    for the application, the row of the resolved version when the device
    is eligible at the rollout percentage of that row and the default row
    otherwise, and likewise, on its own, for the system: URL and hash
    come from the table, not from the bucket, and there is no cache
    stamp. With no default release for the application, or else for the
    system, that is the error. *)
Theorem Retrieve_rollout_response (req : Request) (query : Query.Retrieve)
    (w w1 : World) (appRelease systemRelease : ReleaseMetadata) :
  parseRetrieveQuery req = Ok query ->
  Query.prerelease' query = false ->
  toSemverRange (Query.appVersion query) = "*" ->
  toSemverRange (Query.systemVersion query) = "*" ->
  Query.forceUpdate query = false ->
  getReleaseFromS3 env false (Some "*") (Some "*") (Query.sku' query) w
  = (Ok (toRelease (Some appRelease) (Some systemRelease)), w1) ->
  let after := releases (snd (Retrieve env req w)) in
  exists latestApp latestSystem,
    Prisma.findUnique (version appRelease) app after = Some latestApp
    /\ Prisma.findUnique (version systemRelease) system after = Some latestSystem
    /\ fst (Retrieve env req w)
       = match fst (getDefaultRelease app w), fst (getDefaultRelease system w) with
         | Throw e, _ => Throw e
         | Ok _, Throw e => Throw e
         | Ok defaultApp, Ok defaultSystem =>
             let servedApp :=
               if isDeviceEligibleForLatestRelease
                    (Prisma.rolloutPercentage latestApp) (Query.deviceId query)
               then latestApp else defaultApp in
             let servedSystem :=
               if isDeviceEligibleForLatestRelease
                    (Prisma.rolloutPercentage latestSystem) (Query.deviceId query)
               then latestSystem else defaultSystem in
             Ok (json
                   {| appVersion := Some (Prisma.version servedApp);
                      appUrl := Some (Prisma.url servedApp);
                      appHash := Some (Prisma.hash servedApp);
                      appCachedAt := None;
                      appMaxSatisfying := None;
                      systemVersion := Some (Prisma.version servedSystem);
                      systemUrl := Some (Prisma.url servedSystem);
                      systemHash := Some (Prisma.hash servedSystem);
                      systemCachedAt := None;
                      systemMaxSatisfying := None |})
         end.
Proof.
  intros Hparse Hpre Happ Hsys Hforce Hremote after.
  destruct (Retrieve_rollout_run req query w w1 appRelease systemRelease
              Hparse Hpre Happ Hsys Hremote) as (Hfst & Htable & _).
  destruct (two_upserts appRelease systemRelease (releases w))
    as (cA & cS & _ & _ & _ & _ & FA & FS).
  cbv zeta in Hfst, Htable, FA, FS. rewrite Hforce in Hfst.
  fold after in Htable. rewrite <- Htable in FA, FS.
  eexists _, _. split; [ exact FA | ]. split; [ exact FS | ].
  rewrite Hfst.
  destruct (fst (getDefaultRelease app w)); [ | reflexivity ].
  destruct (fst (getDefaultRelease system w)); reflexivity.
Qed.

(** X12. The queries [Retrieve] sends to the release table on the
    rollout path, in their order: the upsert of the application and the
    upsert of the system; then, unless the update is forced, the search
    for the default application and, when there is one, the search for
    the default system. The upserts come first and are not taken back
    when a default release is missing. *)
Theorem Retrieve_journal (req : Request) (query : Query.Retrieve)
    (w w1 : World) (appRelease systemRelease : ReleaseMetadata) :
  parseRetrieveQuery req = Ok query ->
  Query.prerelease' query = false ->
  toSemverRange (Query.appVersion query) = "*" ->
  toSemverRange (Query.systemVersion query) = "*" ->
  getReleaseFromS3 env false (Some "*") (Some "*") (Query.sku' query) w
  = (Ok (toRelease (Some appRelease) (Some systemRelease)), w1) ->
  let upserts :=
    [Prisma.Upsert (version appRelease) app;
     Prisma.Upsert (version systemRelease) system] in
  queries (snd (Retrieve env req w))
  = queries w ++ upserts
    ++ (if Query.forceUpdate query then []
        else match fst (getDefaultRelease app w) with
             | Ok _ => [Prisma.FindMany app 100; Prisma.FindMany system 100]
             | Throw _ => [Prisma.FindMany app 100]
             end)
  /\ Prisma.findUnique (version appRelease) app (releases (snd (Retrieve env req w)))
     <> None
  /\ Prisma.findUnique (version systemRelease) system
       (releases (snd (Retrieve env req w))) <> None.
Proof.
  intros Hparse Hpre Happ Hsys Hremote upserts.
  destruct (Retrieve_rollout_run req query w w1 appRelease systemRelease
              Hparse Hpre Happ Hsys Hremote) as (_ & Htable & Hjournal & _).
  destruct (two_upserts appRelease systemRelease (releases w))
    as (cA & cS & _ & _ & _ & _ & FA & FS).
  cbv zeta in Htable, Hjournal, FA, FS. rewrite Htable, FA, FS, Hjournal.
  split; [ | split; discriminate ].
  destruct (Query.forceUpdate query); [ reflexivity | ].
  destruct (fst (getDefaultRelease app w)); reflexivity.
Qed.

(** A row added under a key that the table has not keeps the keys
    apart. *)
Lemma unique_keys_add (v : string) (t : ReleaseType) (create : Prisma.Release)
    (table : list Prisma.Release) :
  unique_keys table ->
  Prisma.findUnique v t table = None ->
  Prisma.version create = v -> Prisma.type create = t ->
  unique_keys (table ++ [create]).
Proof.
  unfold unique_keys. intros Hnd Hnone Hv Ht.
  rewrite map_app. apply NoDup_app. split; [ exact Hnd | ].
  split; [ | apply NoDup_singleton ].
  intros key Hin Hkey. apply list_elem_of_In in Hin.
  simpl in Hkey. apply list_elem_of_singleton in Hkey. subst key.
  rewrite Hv, Ht in Hin. exact (findUnique_None v t table Hnone Hin).
Qed.

(** X13. [Retrieve] keeps the key of the release table unique: when no
    two rows have the same version and kind before a request, no two
    have after it, however the request ends. *)
Theorem Retrieve_keeps_keys_unique (req : Request) (w : World) :
  unique_keys (releases w) ->
  unique_keys (releases (snd (Retrieve env req w))).
Proof.
  intros Hnd.
  destruct (Retrieve_cases req w)
    as [(e0 & Hparse & E)
       | [(query & e0 & w1 & Hparse & Hremote & E)
         | [(query & r & w1 & Hparse & Hremote & E)
           | (query & a & s & w1 & Hparse & Hpre & Happ & Hsys & Hremote)]]].
  - rewrite E. exact Hnd.
  - rewrite E. cbn [snd].
    pose proof (ignores_table_keeps _ w
                  (ignores_getReleaseFromS3 env (Query.prerelease' query)
                     (Some (toSemverRange (Query.appVersion query)))
                     (Some (toSemverRange (Query.systemVersion query)))
                     (Query.sku' query))) as [K _].
    rewrite Hremote in K. cbn [snd] in K. rewrite K. exact Hnd.
  - rewrite E. cbn [snd].
    pose proof (ignores_table_keeps _ w
                  (ignores_getReleaseFromS3 env (Query.prerelease' query)
                     (Some (toSemverRange (Query.appVersion query)))
                     (Some (toSemverRange (Query.systemVersion query)))
                     (Query.sku' query))) as [K _].
    rewrite Hremote in K. cbn [snd] in K. rewrite K. exact Hnd.
  - destruct (Retrieve_rollout_run req query w w1 a s Hparse Hpre Happ Hsys Hremote)
      as (_ & Htable & _).
    destruct (two_upserts a s (releases w)) as (cA & cS & _ & E & HA & HS & _).
    cbv zeta in Htable, E, HA, HS. rewrite Htable, E.
    assert (HndA : unique_keys (releases w ++ cA)).
    { destruct HA as [[-> _] | (-> & _ & Hnone)];
        [ rewrite app_nil_r; exact Hnd | ].
      apply (unique_keys_add (version a) app); auto. }
    destruct HS as [[-> _] | (-> & _ & Hnone)];
      [ rewrite app_nil_r; exact HndA | ].
    apply (unique_keys_add (version s) system); auto.
Qed.

(** X15. A forced update is answered with the versions the remote
    lookup resolves, for every device and whether or not the table has a
    default release. The URL and the hash of each are those of the row
    of that version: the ones the table had when it had the row, and
    those of the remote release when the row is new. The response has
    no cache stamp. *)
Theorem Retrieve_forceUpdate_response (req : Request) (query : Query.Retrieve)
    (w w1 : World) (appRelease systemRelease : ReleaseMetadata) :
  parseRetrieveQuery req = Ok query ->
  Query.prerelease' query = false ->
  toSemverRange (Query.appVersion query) = "*" ->
  toSemverRange (Query.systemVersion query) = "*" ->
  Query.forceUpdate query = true ->
  getReleaseFromS3 env false (Some "*") (Some "*") (Query.sku' query) w
  = (Ok (toRelease (Some appRelease) (Some systemRelease)), w1) ->
  let known type (m : ReleaseMetadata) :=
    default (firstSeen type (Some (version m)) (Some (url m)) (Some (hash m)))
      (Prisma.findUnique (version m) type (releases w)) in
  fst (Retrieve env req w)
  = Ok (json
          {| appVersion := Some (version appRelease);
             appUrl := Some (Prisma.url (known app appRelease));
             appHash := Some (Prisma.hash (known app appRelease));
             appCachedAt := None;
             appMaxSatisfying := None;
             systemVersion := Some (version systemRelease);
             systemUrl := Some (Prisma.url (known system systemRelease));
             systemHash := Some (Prisma.hash (known system systemRelease));
             systemCachedAt := None;
             systemMaxSatisfying := None |}).
Proof.
  intros Hparse Hpre Happ Hsys Hforce Hremote known.
  destruct (Retrieve_rollout_run req query w w1 appRelease systemRelease
              Hparse Hpre Happ Hsys Hremote) as (Hfst & _).
  cbv zeta in Hfst. rewrite Hforce in Hfst. rewrite Hfst. clear Hfst.
  destruct (two_upserts appRelease systemRelease (releases w))
    as (cA & cS & _ & _ & HA & HS & _).
  cbv zeta in HA, HS.
  set (createApp := firstSeen app (Some (version appRelease)) (Some (url appRelease))
                      (Some (hash appRelease))) in *.
  set (createSystem := firstSeen system (Some (version systemRelease))
                         (Some (url systemRelease)) (Some (hash systemRelease))) in *.
  set (afterApp := Prisma.upsert (version appRelease) app (fun r => r) createApp
                     (releases w)) in *.
  set (afterSystem := Prisma.upsert (version systemRelease) system (fun r => r)
                        createSystem (fst afterApp)) in *.
  assert (KA : snd afterApp = known app appRelease
               /\ Prisma.version (snd afterApp) = version appRelease).
  { subst known. cbv beta.
    destruct HA as [[_ F] | (_ & E & F)]; rewrite F; cbn [default from_option id].
    - split; [ reflexivity | apply (findUnique_key _ _ _ _ F) ].
    - rewrite E. split; reflexivity. }
  assert (KS : snd afterSystem = known system systemRelease
               /\ Prisma.version (snd afterSystem) = version systemRelease).
  { subst known. cbv beta.
    assert (Fapp : forall created,
              created = [] \/ created = [createApp] ->
              Prisma.findUnique (version systemRelease) system (releases w ++ created)
              = Prisma.findUnique (version systemRelease) system (releases w)).
    { intros created [-> | ->]; [ rewrite app_nil_r; reflexivity | ].
      rewrite findUnique_app.
      destruct (Prisma.findUnique (version systemRelease) system (releases w));
        [ reflexivity | ].
      unfold Prisma.findUnique, Prisma.has_key. simpl. rewrite andb_false_r.
      reflexivity. }
    assert (HcA : cA = [] \/ cA = [createApp])
      by (destruct HA as [[-> _] | (-> & _)]; auto).
    rewrite (Fapp cA HcA) in HS.
    destruct HS as [[_ F] | (_ & E & F)]; rewrite F; cbn [default from_option id].
    - split; [ reflexivity | apply (findUnique_key _ _ _ _ F) ].
    - rewrite E. split; reflexivity. }
  destruct KA as [KA VA], KS as [KS VS].
  unfold toRelease, setSystemRelease, setAppRelease, metadata_of_row, emptyRelease.
  cbn [version url hash _cachedAt _maxSatisfying appVersion appUrl appHash appCachedAt
       appMaxSatisfying systemVersion systemUrl systemHash systemCachedAt
       systemMaxSatisfying].
  rewrite VA, VS, KA, KS. reflexivity.
Qed.

(** The remote lookup leaves the redirect cache as it is. *)
Lemma getReleaseFromS3_redirectCache (includePrerelease : bool)
    (appVersion systemVersion : option string) (sku : string) (w : World) :
  redirectCache (snd (getReleaseFromS3 env includePrerelease appVersion systemVersion
                        sku w))
  = redirectCache w.
Proof.
  unfold getReleaseFromS3, bind, both, ret.
  pose proof (getLatestVersion_run env app includePrerelease appVersion sku w) as Ra.
  destruct (getLatestVersion env app _ _ _ w) as [ra wa].
  pose proof (getLatestVersion_run env system includePrerelease systemVersion sku wa) as Rs.
  destruct (getLatestVersion env system _ _ _ wa) as [rs ws].
  cbn [fst snd] in Ra, Rs.
  assert (Ha : redirectCache wa = redirectCache w)
    by (destruct Ra as [[-> _] | (r & _ & _ & ->)]; reflexivity).
  assert (Hs : redirectCache ws = redirectCache wa)
    by (destruct Rs as [[-> _] | (r & _ & _ & ->)]; reflexivity).
  destruct (Promise_all _ ra rs) as [[x y]|e]; cbn [snd]; congruence.
Qed.

(** X16. What [Retrieve] does to the two caches: it never touches the
    redirect cache, and it leaves the release cache as its remote lookup
    leaves it: nothing that happens after the lookup, neither the
    upserts nor the choice of the release, is cached. *)
Theorem Retrieve_caches (req : Request) (w : World) :
  redirectCache (snd (Retrieve env req w)) = redirectCache w
  /\ match parseRetrieveQuery req with
     | Throw _ => releaseCache (snd (Retrieve env req w)) = releaseCache w
     | Ok query =>
         releaseCache (snd (Retrieve env req w))
         = releaseCache
             (snd (getReleaseFromS3 env (Query.prerelease' query)
                     (Some (toSemverRange (Query.appVersion query)))
                     (Some (toSemverRange (Query.systemVersion query)))
                     (Query.sku' query) w))
     end.
Proof.
  destruct (Retrieve_cases req w)
    as [(e0 & Hparse & E)
       | [(query & e0 & w1 & Hparse & Hremote & E)
         | [(query & r & w1 & Hparse & Hremote & E)
           | (query & a & s & w1 & Hparse & Hpre & Happ & Hsys & Hremote)]]];
    rewrite Hparse.
  - rewrite E. split; reflexivity.
  - rewrite E. cbn [snd].
    pose proof (getReleaseFromS3_redirectCache (Query.prerelease' query)
                  (Some (toSemverRange (Query.appVersion query)))
                  (Some (toSemverRange (Query.systemVersion query)))
                  (Query.sku' query) w) as K.
    rewrite Hremote in K |- *. split; [ exact K | reflexivity ].
  - rewrite E. cbn [snd].
    pose proof (getReleaseFromS3_redirectCache (Query.prerelease' query)
                  (Some (toSemverRange (Query.appVersion query)))
                  (Some (toSemverRange (Query.systemVersion query)))
                  (Query.sku' query) w) as K.
    rewrite Hremote in K |- *. split; [ exact K | reflexivity ].
  - destruct (Retrieve_rollout_run req query w w1 a s Hparse Hpre Happ Hsys Hremote)
      as (_ & _ & _ & Hrel & Hred).
    cbv zeta in Hrel, Hred. rewrite Hrel, Hred.
    pose proof (getReleaseFromS3_redirectCache false (Some "*") (Some "*")
                  (Query.sku' query) w) as K.
    rewrite Hpre, Happ, Hsys. rewrite Hremote in K |- *.
    split; [ exact K | reflexivity ].
Qed.

(** Devices of one bucket are eligible alike. *)
Lemma eligible_by_bucket (rolloutPercentage : Z) (d d' : string) :
  getDeviceRolloutBucket d = getDeviceRolloutBucket d' ->
  isDeviceEligibleForLatestRelease rolloutPercentage d
  = isDeviceEligibleForLatestRelease rolloutPercentage d'.
Proof. unfold isDeviceEligibleForLatestRelease. intros ->. reflexivity. Qed.

(** X24. [Retrieve] knows a device by its rollout bucket and by
    nothing else: the same request from two devices of the same bucket
    gets the same response and leaves the same world. *)
Theorem Retrieve_device_by_bucket (req : Request) (d d' : string) (w : World) :
  d <> EmptyString -> d' <> EmptyString ->
  getDeviceRolloutBucket d = getDeviceRolloutBucket d' ->
  Retrieve env (for_device d req) w = Retrieve env (for_device d' req) w.
Proof.
  intros Hd Hd' Hbucket.
  destruct d as [|c d]; [ contradiction | ].
  destruct d' as [|c' d']; [ contradiction | ].
  unfold Retrieve, bind, lift, try_catch, ret, throw, parseRetrieveQuery, for_device.
  cbn [query_deviceId query_prerelease query_appVersion query_systemVersion query_sku
       query_forceUpdate Query.deviceId Query.prerelease' Query.appVersion
       Query.systemVersion Query.sku' Query.forceUpdate].
  destruct (getReleaseFromS3 _ _ _ _ _ _) as [[remoteRelease|e] w1];
    [ | destruct (is_NotFoundError e); reflexivity ].
  destruct (queryBoolean (query_prerelease req) || _); [ reflexivity | ].
  destruct (prisma_release_upsert _ app _ _ w1) as [[latestApp|?] wA]; [ | reflexivity ].
  destruct (prisma_release_upsert _ system _ _ wA) as [[latestSystem|?] wS];
    [ | reflexivity ].
  destruct (queryBoolean (query_forceUpdate req)); [ reflexivity | ].
  destruct (getDefaultRelease app wS) as [[defaultApp|?] wDA]; [ | reflexivity ].
  destruct (getDefaultRelease system wDA) as [[defaultSystem|?] wDS]; [ | reflexivity ].
  rewrite (eligible_by_bucket (Prisma.rolloutPercentage latestApp) _ _ Hbucket).
  rewrite (eligible_by_bucket (Prisma.rolloutPercentage latestSystem) _ _ Hbucket).
  reflexivity.
Qed.

End RetrieveRollout.

Section RetrieveAgain.

Context `{RS : Semver.RangeSyntax}.

(** X14. The table is written once per release. On the rollout path,
    once a request has been through its two upserts, a request on that
    path for which the remote lookup resolves the same two versions,
    from the cache or from the bucket, for whatever device and SKU,
    forced or not, leaves the release table as it finds it, when it
    finds it as the first request left it: the two rows are there. *)
Theorem Retrieve_again_keeps_table (env env' : Env) (req req' : Request)
    (query query' : Query.Retrieve) (w w1 w' w1' : World)
    (appRelease systemRelease appRelease' systemRelease' : ReleaseMetadata) :
  parseRetrieveQuery req = Ok query ->
  parseRetrieveQuery req' = Ok query' ->
  Query.prerelease' query = false ->
  Query.prerelease' query' = false ->
  toSemverRange (Query.appVersion query) = "*" ->
  toSemverRange (Query.systemVersion query) = "*" ->
  toSemverRange (Query.appVersion query') = "*" ->
  toSemverRange (Query.systemVersion query') = "*" ->
  getReleaseFromS3 env false (Some "*") (Some "*") (Query.sku' query) w
  = (Ok (toRelease (Some appRelease) (Some systemRelease)), w1) ->
  releases w' = releases (snd (Retrieve env req w)) ->
  getReleaseFromS3 env' false (Some "*") (Some "*") (Query.sku' query') w'
  = (Ok (toRelease (Some appRelease') (Some systemRelease')), w1') ->
  version appRelease' = version appRelease ->
  version systemRelease' = version systemRelease ->
  releases (snd (Retrieve env' req' w')) = releases w'.
Proof.
  intros Hparse Hparse' Hpre Hpre' Happ Hsys Happ' Hsys' Hremote Hw' Hremote' Va Vs.
  destruct (Retrieve_rollout_run env req query w w1 appRelease systemRelease
              Hparse Hpre Happ Hsys Hremote) as (_ & Htable & _).
  cbv zeta in Htable. rewrite Htable in Hw'.
  destruct (Retrieve_rollout_run env' req' query' w' w1' appRelease' systemRelease'
              Hparse' Hpre' Happ' Hsys' Hremote') as (_ & Htable' & _).
  cbv zeta in Htable'. rewrite Htable'.
  destruct (two_upserts appRelease systemRelease (releases w))
    as (cA & cS & _ & _ & _ & _ & FA & FS).
  cbv zeta in FA, FS. rewrite <- Hw' in FA, FS.
  rewrite Va, Vs.
  rewrite (upsert_existing _ _ _ _ _ FA). cbn [fst].
  rewrite (upsert_existing _ _ _ _ _ FS). reflexivity.
Qed.

End RetrieveAgain.

(* ===================================================================== *)
(** ** Texts: reversal, white space and splitting *)
(* ===================================================================== *)

Lemma string_app_cons (c : ascii) (a b : string) :
  String c a +:+ b = String c (a +:+ b).
Proof. reflexivity. Qed.

Lemma string_app_nil_r (a : string) : a +:+ EmptyString = a.
Proof.
  induction a as [|c a IH]; [ reflexivity | ].
  rewrite string_app_cons, IH. reflexivity.
Qed.

Lemma rev_app_append (s acc : string) :
  String.rev_app s acc = String.rev s +:+ acc.
Proof.
  unfold String.rev. revert acc.
  induction s as [|c s IH]; intros acc; [ reflexivity | ].
  cbn [String.rev_app]. rewrite (IH (String c acc)), (IH (String c EmptyString)).
  rewrite string_app_assoc. reflexivity.
Qed.

Lemma string_rev_cons (c : ascii) (s : string) :
  String.rev (String c s) = String.rev s +:+ String c EmptyString.
Proof. unfold String.rev at 1. cbn [String.rev_app]. apply rev_app_append. Qed.

Lemma string_rev_app (a b : string) :
  String.rev (a +:+ b) = String.rev b +:+ String.rev a.
Proof.
  induction a as [|c a IH].
  - change (EmptyString +:+ b) with b. rewrite string_app_nil_r. reflexivity.
  - rewrite string_app_cons, !string_rev_cons, IH, string_app_assoc. reflexivity.
Qed.

Lemma string_rev_involutive (s : string) : String.rev (String.rev s) = s.
Proof.
  induction s as [|c s IH]; [ reflexivity | ].
  rewrite string_rev_cons, string_rev_app, IH. reflexivity.
Qed.

Lemma all_chars_app (p : ascii -> bool) (a b : string) :
  Semver.all_chars p (a +:+ b) = Semver.all_chars p a && Semver.all_chars p b.
Proof.
  induction a as [|c a IH]; [ reflexivity | ].
  rewrite string_app_cons. cbn [Semver.all_chars]. rewrite IH, andb_assoc. reflexivity.
Qed.

Lemma all_chars_rev (p : ascii -> bool) (s : string) :
  Semver.all_chars p (String.rev s) = Semver.all_chars p s.
Proof.
  induction s as [|c s IH]; [ reflexivity | ].
  rewrite string_rev_cons, all_chars_app, IH. cbn [Semver.all_chars].
  rewrite andb_true_r, andb_comm. reflexivity.
Qed.

(** White space at the head is stripped, from either end. *)
Lemma strip_blank (back : bool) (ws s : string) :
  blank ws = true -> JS.strip back (ws +:+ s) = JS.strip back s.
Proof.
  unfold blank. induction ws as [|c ws IH]; intros H; [ reflexivity | ].
  cbn [Semver.all_chars] in H. apply andb_true_iff in H as [Hc Hws].
  rewrite string_app_cons. cbn [JS.strip]. rewrite Hc. exact (IH Hws).
Qed.

Lemma strip_all_blank (back : bool) (ws : string) :
  blank ws = true -> JS.strip back ws = EmptyString.
Proof.
  intros H. rewrite <- (string_app_nil_r ws), (strip_blank back ws _ H). reflexivity.
Qed.

(** None of the sixteen characters is white space, or the last byte of
    white space written with two or three bytes. *)
Lemma strip_back_hexchar (c : ascii) (s : string) :
  In c hexchars -> JS.strip true (String c s) = String c s.
Proof.
  intros H. simpl in H.
  repeat (destruct H as [<- | H];
    [ destruct s as [|c2 [|c3 s]]; cbn [JS.strip];
      unfold JS.is_ws1, JS.is_ws2, JS.is_ws3; cbn;
      rewrite ?andb_false_r; reflexivity | ]).
  destruct H.
Qed.

Lemma hexstring_head (c : ascii) (s : string) :
  hexstring (String c s) = true -> In c hexchars.
Proof.
  unfold hexstring. cbn [Semver.all_chars]. intros H.
  apply andb_true_iff in H as [H _]. apply bool_decide_eq_true in H.
  apply list_elem_of_In, H.
Qed.

(** A text of the sixteen characters with white space before and after
    it is what [trimEnd] and then [trim] leave of the whole. *)
Lemma trim_hexstring (pre h post : string) :
  blank pre = true -> blank post = true -> hexstring h = true ->
  JS.trim (JS.trimEnd (pre +:+ h +:+ post)) = h.
Proof.
  intros Hpre Hpost Hh.
  assert (Brev : forall x, blank x = true -> blank (String.rev x) = true)
    by (intros x Hx; unfold blank in *; rewrite all_chars_rev; exact Hx).
  assert (Hrev : hexstring (String.rev h) = true)
    by (unfold hexstring in *; rewrite all_chars_rev; exact Hh).
  destruct h as [|c h].
  - change (EmptyString +:+ post) with post.
    assert (Hall : blank (pre +:+ post) = true)
      by (unfold blank in *; rewrite all_chars_app, Hpre, Hpost; reflexivity).
    unfold JS.trim, JS.trimEnd, JS.trimStart.
    rewrite (strip_all_blank true _ (Brev _ Hall)). reflexivity.
  - assert (Eend : JS.trimEnd (pre +:+ String c h +:+ post) = pre +:+ String c h).
    { unfold JS.trimEnd. rewrite !string_rev_app.
      rewrite string_app_assoc, (strip_blank true _ _ (Brev _ Hpost)).
      destruct (String.rev (String c h)) as [|c' h'] eqn:Er.
      - apply (f_equal String.rev) in Er. rewrite string_rev_involutive in Er.
        discriminate Er.
      - rewrite string_app_cons, (strip_back_hexchar _ _ (hexstring_head _ _ Hrev)).
        rewrite <- string_app_cons, <- Er, <- string_rev_app.
        apply string_rev_involutive. }
    rewrite Eend. unfold JS.trim, JS.trimStart.
    rewrite (strip_blank false _ _ Hpre).
    fold (JS.trimStart (String c h)).
    rewrite (trimStart_hexchar _ _ (hexstring_head _ _ Hh)).
    unfold JS.trimEnd.
    destruct (String.rev (String c h)) as [|c' h'] eqn:Er.
    + apply (f_equal String.rev) in Er. rewrite string_rev_involutive in Er.
      discriminate Er.
    + rewrite (strip_back_hexchar _ _ (hexstring_head _ _ Hrev)), <- Er.
      apply string_rev_involutive.
Qed.

Lemma hex_hexstring (bs : list Z) : hexstring (Crypto.hex bs) = true.
Proof.
  unfold hexstring. induction bs as [|b bs IH]; [ reflexivity | ].
  cbn [Crypto.hex Semver.all_chars]. rewrite IH, andb_true_r.
  apply andb_true_iff. split; apply bool_decide_eq_true, list_elem_of_In, hexdigit_hexchars.
Qed.

(** A byte below 128 is a character of its own. *)
Lemma utf8_lead_ascii (c : ascii) :
  (JS.code c <? 128)%nat = true ->
  JS.utf8_lead (Ascii.byte_of_ascii c) = ([Ascii.byte_of_ascii c], JS.utf8_idle).
Proof.
  destruct c as [[] [] [] [] [] [] [] []]; intros H;
    first [ discriminate H | reflexivity ].
Qed.

(** Read as UTF-8, a text of such bytes is itself. *)
Lemma utf8_decode_ascii (bs : list byte) (s : string) :
  String.string_of_list_byte bs = s ->
  Semver.all_chars (fun c => (JS.code c <? 128)%nat) s = true ->
  JS.utf8_decode bs = s.
Proof.
  intros Hs Hascii.
  assert (Hbs : bs = String.list_byte_of_string s)
    by (rewrite <- Hs, String.list_byte_of_string_of_list_byte; reflexivity).
  assert (Hrun : JS.utf8_run JS.utf8_idle (String.list_byte_of_string s)
                 = String.list_byte_of_string s).
  { clear Hs Hbs bs. induction s as [|c s IH]; [ reflexivity | ].
    cbn [Semver.all_chars] in Hascii. apply andb_true_iff in Hascii as [Hc Hrest].
    change (String.list_byte_of_string (String c s))
      with (Ascii.byte_of_ascii c :: String.list_byte_of_string s).
    cbn [JS.utf8_run JS.utf8_step JS.needed JS.utf8_idle].
    rewrite (utf8_lead_ascii c Hc). cbn [Datatypes.app].
    f_equal. exact (IH Hrest). }
  unfold JS.utf8_decode. rewrite Hbs, Hrun.
  apply String.string_of_list_byte_of_string.
Qed.

Lemma all_chars_impl (p q : ascii -> bool) (s : string) :
  (forall c, p c = true -> q c = true) ->
  Semver.all_chars p s = true -> Semver.all_chars q s = true.
Proof.
  intros Hpq. induction s as [|c s IH]; [ reflexivity | ].
  cbn [Semver.all_chars]. intros [Hc Hs]%andb_true_iff.
  rewrite (Hpq c Hc), (IH Hs). reflexivity.
Qed.

Lemma blank_ascii (s : string) :
  blank s = true -> Semver.all_chars (fun c => (JS.code c <? 128)%nat) s = true.
Proof.
  apply all_chars_impl. intros c.
  destruct c as [[] [] [] [] [] [] [] []]; intros H;
    first [ reflexivity | discriminate H ].
Qed.

Lemma hexstring_ascii (s : string) :
  hexstring s = true -> Semver.all_chars (fun c => (JS.code c <? 128)%nat) s = true.
Proof.
  apply all_chars_impl. intros c H. apply bool_decide_eq_true, list_elem_of_In in H.
  simpl in H. repeat (destruct H as [<- | H]; [ reflexivity | ]). destruct H.
Qed.

(** X17. The digest file may have white space around the digest: when
    the text of the digest file is the SHA-256 of the artifact in
    lower-case hexadecimal with tabs, line ends or blanks before and
    after it, [verifyHash] answers true, with or without a failure
    reason. *)
Theorem verifyHash_tolerates_white_space (file hashFile : GetObjectCommandOutput)
    (chunks hashChunks : list (list byte)) (pre post : string)
    (exception : option string) :
  Body file = Some chunks ->
  Body hashFile = Some hashChunks ->
  String.string_of_list_byte (concat hashChunks)
  = pre +:+ Crypto.sha256_hex (concat chunks) +:+ post ->
  blank pre = true -> blank post = true ->
  verifyHash file hashFile exception = Ok true.
Proof.
  intros Hf Hh Htext Hpre Hpost.
  rewrite (verifyHash_bodies _ _ _ _ _ Hf Hh). cbv zeta.
  rewrite (utf8_decode_ascii _ _ Htext)
    by (rewrite !all_chars_app, (blank_ascii _ Hpre), (blank_ascii _ Hpost);
        unfold Crypto.sha256_hex; rewrite (hexstring_ascii _ (hex_hexstring _));
        reflexivity).
  unfold Crypto.sha256_hex.
  rewrite (trim_hexstring _ _ _ Hpre Hpost (hex_hexstring _)).
  rewrite String.eqb_refl. reflexivity.
Qed.

(** [split] cuts at the first separator. *)
Lemma split_go_app (sep : ascii) (cur s rest : string) :
  Semver.all_chars (fun c => negb (Ascii.eqb c sep)) s = true ->
  JS.split_go sep cur (s +:+ String sep rest)
  = String.rev (String.rev_app s cur) :: JS.split_go sep EmptyString rest.
Proof.
  revert cur. induction s as [|c s IH]; intros cur H.
  - change (EmptyString +:+ String sep rest) with (String sep rest).
    cbn [JS.split_go String.rev_app]. rewrite Ascii.eqb_refl. reflexivity.
  - cbn [Semver.all_chars] in H. apply andb_true_iff in H as [Hc Hs].
    rewrite string_app_cons. cbn [JS.split_go String.rev_app].
    apply negb_true_iff in Hc. rewrite Hc. exact (IH _ Hs).
Qed.

Lemma split_folder (prefix : ReleaseType) (v : string) :
  no_slash v = true ->
  JS.split "/" (type_name prefix +:+ "/" +:+ v +:+ "/") !! 1%nat = Some v.
Proof.
  intros Hv. unfold JS.split.
  change (type_name prefix +:+ "/" +:+ v +:+ "/")
    with (type_name prefix +:+ String "/" (v +:+ String "/" EmptyString)).
  rewrite (split_go_app "/" EmptyString (type_name prefix))
    by (destruct prefix; reflexivity).
  rewrite (split_go_app "/" EmptyString v EmptyString Hv).
  cbn [lookup list_lookup]. fold (String.rev v).
  rewrite string_rev_involutive. reflexivity.
Qed.

(** X18. From the listing to the versions. When the common prefixes of
    a listing are the folders [type/name/] of a list of names, the
    versions [getLatestVersion] and the redirect endpoints select from
    are the names that are valid versions, in the order of the listing:
    the prefix and the slashes are taken off and nothing else is
    changed. *)
Theorem listing_versions (prefix : ReleaseType) (names : list string) :
  (forall name, In name names -> no_slash name = true) ->
  validVersions
    (versionFolders (map (fun name => type_name prefix +:+ "/" +:+ name +:+ "/") names))
  = List.filter Semver.valid names.
Proof.
  intros Hnames. unfold validVersions, versionFolders. rewrite map_map.
  induction names as [|v names IH]; [ reflexivity | ].
  cbn [map]. rewrite (split_folder prefix v) by (apply Hnames; left; reflexivity).
  cbn [omap list_omap List.filter].
  specialize (IH (fun name Hin => Hnames name (or_intror Hin))).
  destruct v as [|c v].
  - cbn [JS.truthy_opt JS.truthy]. rewrite IH.
    replace (Semver.valid EmptyString) with false by (vm_compute; reflexivity).
    reflexivity.
  - cbn [JS.truthy_opt JS.truthy List.filter]. rewrite IH. reflexivity.
Qed.

(* ===================================================================== *)
(** ** The rollout bucket, exactly *)
(* ===================================================================== *)

Lemma hexval_hexdigit (n : Z) :
  (0 <= n < 16)%Z -> JS.hexval (Crypto.hexdigit n) = Some n.
Proof.
  intros [Hlo Hhi]. destruct n as [|p|p]; [ reflexivity | | lia ].
  do 4 (try destruct p as [p|p|]); try lia; reflexivity.
Qed.

(** The two characters of a byte are read back as the byte. *)
Lemma hexrun_byte (acc b : Z) (seen : bool) (s : string) :
  (0 <= b < 256)%Z ->
  JS.hexrun acc seen
    (String (Crypto.hexdigit (b / 16)) (String (Crypto.hexdigit (b mod 16)) s))
  = JS.hexrun (256 * acc + b) true s.
Proof.
  intros Hb. cbn [JS.hexrun].
  rewrite (hexval_hexdigit (b / 16))
    by (split; [ apply Z.div_pos; lia | apply Z.div_lt_upper_bound; lia ]).
  rewrite (hexval_hexdigit (b mod 16)) by (apply Z.mod_pos_bound; lia).
  f_equal. pose proof (Z.div_mod b 16 ltac:(lia)). lia.
Qed.

(** X19. The bucket of a device is the first four bytes of the MD5 of
    its identifier, read as one number with the first byte on top, modulo
    100: writing the digest in hexadecimal, cutting eight characters and
    parsing them back loses nothing. *)
Theorem getDeviceRolloutBucket_is_md5_prefix (deviceId : string) :
  getDeviceRolloutBucket deviceId
  = JS.Int (Crypto.be_word (firstn 4 (Crypto.md5 (JS.bytes_of_string deviceId)))
            mod 100).
Proof.
  unfold getDeviceRolloutBucket, Crypto.md5_hex, Crypto.md5.
  destruct (fold_left _ _ _) as [a b c e].
  cbn [Crypto.le_bytes Datatypes.app Crypto.hex JS.substring0 String.substring firstn].
  rewrite parseInt16_hexrun by apply hexdigit_hexchars.
  set (b0 := (a mod 256)%Z). set (b1 := (a / 256 mod 256)%Z).
  set (b2 := (a / 256 / 256 mod 256)%Z). set (b3 := (a / 256 / 256 / 256 mod 256)%Z).
  assert (H0 : (0 <= b0 < 256)%Z) by (apply Z.mod_pos_bound; lia).
  assert (H1 : (0 <= b1 < 256)%Z) by (apply Z.mod_pos_bound; lia).
  assert (H2 : (0 <= b2 < 256)%Z) by (apply Z.mod_pos_bound; lia).
  assert (H3 : (0 <= b3 < 256)%Z) by (apply Z.mod_pos_bound; lia).
  rewrite (hexrun_byte 0 b0 false _ H0), (hexrun_byte _ b1 true _ H1),
    (hexrun_byte _ b2 true _ H2), (hexrun_byte _ b3 true _ H3).
  cbn [JS.hexrun JS.rem]. change (100 =? 0)%Z with false. cbv iota.
  unfold Crypto.be_word. cbn [rev Datatypes.app Crypto.le_word].
  f_equal. rewrite Z.rem_mod_nonneg by lia. f_equal. lia.
Qed.

(* ===================================================================== *)
(** ** Requests that name no SKU *)
(* ===================================================================== *)

(** X20. A request that names no SKU, or an empty one, asks for the
    default SKU, and a version from before SKU support is resolved for
    it to its legacy path: such a request is never told that the version
    predates SKU support. *)
Theorem resolveArtifactPath_without_sku `{RS : Semver.RangeSyntax} (env : Env)
    (prefix : ReleaseType) (version : string) (sku : option string)
    (artifactOverride : option string) :
  sku = None \/ sku = Some EmptyString ->
  versionHasSkuSupport env prefix version = Ok false ->
  querySku sku = DEFAULT_SKU
  /\ resolveArtifactPath env prefix version (querySku sku) artifactOverride
     = Ok (type_name prefix +:+ "/" +:+ version +:+ "/"
           +:+ default (match prefix with app => "jetkvm_app" | system => "system.tar" end)
                 artifactOverride).
Proof.
  intros Hsku Hlegacy.
  assert (E : querySku sku = DEFAULT_SKU) by (destruct Hsku as [-> | ->]; reflexivity).
  split; [ exact E | ].
  rewrite E, resolveArtifactPath_cases, Hlegacy. reflexivity.
Qed.

(* ===================================================================== *)
(** ** The authentication middleware *)
(* ===================================================================== *)

Section Authenticated.

Context (jwtVerify : string -> Result Auth.JWTPayload) (now : Z).

(** X21. When the middleware lets a request through. [next] is called
    exactly when the session has an ID token that verifies, with a
    subject, with Google as its issuer, and with an expiry that is not 0
    and, as a date, not before now; the request then carries the subject
    and the issuer of the token, and its session is as it was. An expiry
    too far away to be a date is not before now. *)
Theorem authenticated_next (req req' : Auth.Request) :
  (Z.abs now <= 8640000000000000)%Z ->
  Auth.authenticated jwtVerify now req = Auth.Next req'
  <-> exists session idToken payload subject expiry,
        Auth.session req = Some session
        /\ Auth.id_token session = Some idToken /\ idToken <> EmptyString
        /\ jwtVerify idToken = Ok payload
        /\ Auth.sub payload = Some subject /\ subject <> EmptyString
        /\ Auth.iss payload = Some "https://accounts.google.com"
        /\ Auth.exp payload = Some expiry /\ expiry <> 0%Z
        /\ (now <= expiry * 1000 \/ 8640000000000000 < Z.abs (expiry * 1000))%Z
        /\ req' = {| Auth.session := Some session;
                     Auth.subject := Some subject;
                     Auth.issuer := Some "https://accounts.google.com" |}.
Proof.
  intros Hnow. unfold Auth.authenticated, Auth.verifyToken. split.
  - destruct (Auth.session req) as [session|]; [ | discriminate ].
    destruct (Auth.id_token session) as [[|c idToken]|] eqn:Ht; try discriminate.
    cbn [JS.truthy_opt JS.truthy negb default from_option id].
    destruct (jwtVerify (String c idToken)) as [payload|] eqn:Hjwt; [ | discriminate ].
    destruct (Auth.sub payload) as [[|c1 subject]|] eqn:Hsub; try discriminate.
    destruct (Auth.iss payload) as [[|c2 issuer]|] eqn:Hiss; try discriminate.
    cbn [JS.truthy_opt JS.truthy negb].
    destruct (Auth.exp payload) as [expiry|] eqn:Hexp; [ | discriminate ].
    cbn [Auth.truthy_num default from_option id].
    destruct (Z.eqb_spec expiry 0) as [|Hne]; [ discriminate | ].
    cbn [negb]. unfold Auth.Date.
    destruct (JS.lt _ _) eqn:Hlt; [ discriminate | ].
    destruct (bool_decide_reflect (Some (String c2 issuer)
                                   = Some "https://accounts.google.com"))
      as [Hg | Hg]; [ | discriminate ].
    cbn [negb]. intros [= <-].
    exists session, (String c idToken), payload, (String c1 subject), expiry.
    rewrite Hg. rewrite Hg in Hiss.
    repeat (split; [ first [ reflexivity | discriminate | assumption ] | ]).
    split; [ | reflexivity ].
    destruct (Z.leb_spec (Z.abs (expiry * 1000)) 8640000000000000); [ | right; lia ].
    destruct (Z.leb_spec (Z.abs now) 8640000000000000); [ | lia ].
    cbn [JS.lt] in Hlt. apply Z.ltb_ge in Hlt. left. exact Hlt.
  - intros (session & idToken & payload & subject & expiry & Hs & Ht & Hte & Hjwt
            & Hsub & Hsube & Hiss & Hexp & Hne & Hdate & ->).
    rewrite Hs, Ht. destruct idToken as [|c idToken]; [ contradiction | ].
    cbn [JS.truthy_opt JS.truthy negb default from_option id].
    rewrite Hjwt, Hsub. destruct subject as [|c1 subject]; [ contradiction | ].
    rewrite Hiss, Hexp.
    cbn [JS.truthy_opt JS.truthy negb Auth.truthy_num default from_option id].
    destruct (Z.eqb_spec expiry 0) as [|_]; [ contradiction | ].
    cbn [negb]. unfold Auth.Date.
    replace (JS.lt _ _) with false.
    + rewrite bool_decide_eq_true_2 by reflexivity. reflexivity.
    + symmetry.
      destruct (Z.leb_spec (Z.abs (expiry * 1000)) 8640000000000000); [ | reflexivity ].
      destruct (Z.leb_spec (Z.abs now) 8640000000000000); [ | reflexivity ].
      cbn [JS.lt]. apply Z.ltb_ge. lia.
Qed.

(** X22. What the middleware throws. The verifier is given Google as
    the issuer to require, so a token that verifies is a token of Google;
    then every rejection is an Unauthorized, and it is one of six, each
    with its cause: no session; no ID token in the session; a token that
    does not verify; a token without subject; a token without expiry; a
    token whose expiry is, as a date, before now.  The bad request for a
    token of another issuer is never thrown, nor the Unauthorized for a
    token without issuer. *)
Theorem authenticated_rejections (req : Auth.Request) (e : Auth.AuthError) :
  requires_issuer jwtVerify ->
  Auth.authenticated jwtVerify now req = Auth.Rejected e ->
  (e = Auth.UnauthorizedError "No session found" /\ Auth.session req = None)
  \/ (exists session,
        Auth.session req = Some session
        /\ ((e = Auth.UnauthorizedError "No ID token found in session"
             /\ JS.truthy_opt (Auth.id_token session) = false)
            \/ (exists idToken,
                  Auth.id_token session = Some idToken
                  /\ ((e = Auth.UnauthorizedError "Invalid ID token"
                       /\ exists error, jwtVerify idToken = Throw error)
                      \/ (exists payload,
                            jwtVerify idToken = Ok payload
                            /\ ((e = Auth.UnauthorizedError
                                       "Missing sub (subject) in token"
                                 /\ JS.truthy_opt (Auth.sub payload) = false)
                                \/ (e = Auth.UnauthorizedError
                                          "Missing exp (expiration) in token"
                                    /\ Auth.truthy_num (Auth.exp payload) = false)
                                \/ (e = Auth.UnauthorizedError "ID token has expired"
                                    /\ JS.lt (Auth.Date
                                                (default 0%Z (Auth.exp payload) * 1000))
                                         (Auth.Date now)
                                       = true))))))).
Proof.
  intros Hissuer Hrej. unfold Auth.authenticated, Auth.verifyToken in Hrej.
  destruct (Auth.session req) as [session|]; [ | injection Hrej as <-; left; auto ].
  right. exists session. split; [ reflexivity | ].
  destruct (Auth.id_token session) as [idToken|] eqn:Ht;
    [ | injection Hrej as <-; left; auto ].
  cbn [default from_option id] in Hrej.
  destruct (JS.truthy_opt (Some idToken)) eqn:Htruthy;
    [ | injection Hrej as <-; left; auto ].
  cbn [negb] in Hrej. right. exists idToken. split; [ reflexivity | ].
  destruct (jwtVerify idToken) as [payload|error] eqn:Hjwt;
    [ | injection Hrej as <-; left; eauto ].
  right. exists payload. split; [ reflexivity | ].
  rewrite (Hissuer idToken payload Hjwt) in Hrej.
  destruct (JS.truthy_opt (Auth.sub payload)) eqn:Hsub;
    [ | injection Hrej as <-; left; auto ].
  cbn [JS.truthy_opt JS.truthy negb] in Hrej.
  destruct (Auth.truthy_num (Auth.exp payload)) eqn:Hexp;
    [ | injection Hrej as <-; right; left; auto ].
  cbn [negb] in Hrej.
  destruct (JS.lt _ _) eqn:Hlt; [ injection Hrej as <-; right; right; auto | ].
  rewrite bool_decide_eq_true_2 in Hrej by reflexivity. discriminate Hrej.
Qed.

End Authenticated.

(* ===================================================================== *)
(** ** The further properties at concrete inputs *)
(* ===================================================================== *)

(** X1 with the bucket emptied after the first lookup, in a world where
    the table has been filled meanwhile. *)
Lemma getLatestVersion_repeats_example :
  releaseCache cachedApp110 !! releaseKey app false None DEFAULT_SKU = Some app110
  /\ @getLatestVersion Semver.exactRanges (testEnv []) app false None DEFAULT_SKU
       (with_table seedReleases [] cachedApp110)
     = (Ok app110, with_table seedReleases [] cachedApp110).
Proof.
  apply (@getLatestVersion_repeats_from_cache Semver.exactRanges
           (testEnv exampleBucket) (testEnv []) app false None DEFAULT_SKU
           (emptyWorld []) cachedApp110 (with_table seedReleases [] cachedApp110)).
  - vm_compute. reflexivity.
  - reflexivity.
Defined.

(** X3 at the application of [exampleBucket]. *)
Lemma getLatestVersion_fetched_example :
  exists path hashResponse chunks,
    resolveArtifactPath (testEnv exampleBucket) app (version app110) DEFAULT_SKU None
    = Ok path
    /\ url app110 = baseUrl (testEnv exampleBucket) +:+ "/" +:+ path
    /\ GetObjectCommand (s3Client (testEnv exampleBucket)) (path +:+ ".sha256")
       = Ok hashResponse
    /\ Body hashResponse = Some chunks
    /\ hash app110 = JS.trimEnd (JS.utf8_decode (concat chunks))
    /\ _cachedAt app110 = Some (Date_now (testEnv exampleBucket) app)
    /\ _maxSatisfying app110 = Some (default "*" None).
Proof.
  apply (@getLatestVersion_fetched_release Semver.exactRanges (testEnv exampleBucket)
           app false None DEFAULT_SKU (emptyWorld []) app110).
  - reflexivity.
  - vm_compute. reflexivity.
Defined.

(** X4: the release of 1.0.0-beta for the SKU [x] is what the lookup
    for 1.0.0 and the SKU [beta-x] returns while it is cached. *)
Lemma getLatestVersion_key_example :
  releaseKey app true (Some "1.0.0") "beta-x" = releaseKey app true (Some "1.0.0-beta") "x"
  /\ @getLatestVersion Semver.exactRanges (testEnv []) app true (Some "1.0.0") "beta-x"
       (with_table seedReleases [] cachedBeta)
     = (Ok appBeta, with_table seedReleases [] cachedBeta).
Proof.
  apply (@getLatestVersion_key_joins_range_and_sku Semver.exactRanges
           (testEnv betaBucket) (testEnv []) app true "1.0.0" "beta" "x"
           (emptyWorld []) cachedBeta (with_table seedReleases [] cachedBeta)).
  - vm_compute. reflexivity.
  - reflexivity.
Defined.

(** X5 with the bucket emptied after the first lookup, in a world with
    another table. *)
Lemma getReleaseFromS3_repeats_example :
  @getReleaseFromS3 Semver.exactRanges (testEnv []) false (Some "*") (Some "*")
    DEFAULT_SKU (cachedRollout oldReleases)
  = (Ok (toRelease (Some app120) (Some system120)), cachedRollout oldReleases).
Proof.
  apply (@getReleaseFromS3_repeats_from_cache Semver.exactRanges
           (testEnv rolloutBucket) (testEnv []) false (Some "*") (Some "*")
           DEFAULT_SKU (emptyWorld seedReleases) (cachedRollout seedReleases)).
  - vm_compute. reflexivity.
  - reflexivity.
  - reflexivity.
Defined.

(** X6 with the bucket emptied after the first request, for a request of
    another device, in a world where the table has been filled
    meanwhile. *)
Lemma redirect_repeats_example :
  @redirect_endpoint Semver.exactRanges (testEnv []) false (request "device-456")
    (with_table seedReleases [] cachedGoodTarget)
  = (Ok (redirect 302 "https://cdn.test.com/app/1.0.0/jetkvm_app"),
     with_table seedReleases [] cachedGoodTarget).
Proof.
  apply (@redirect_repeats_from_cache Semver.exactRanges (testEnv goodBucket)
           (testEnv []) false (request "device-123") (request "device-456")
           (emptyWorld []) cachedGoodTarget).
  - reflexivity.
  - vm_compute. reflexivity.
  - reflexivity.
Defined.

(** X8: a request for the recovery image, which is answered and cached,
    in a world that has a target for the application. *)
Lemma redirect_cache_separates_example :
  fst (@redirect_endpoint Semver.exactRanges (testEnv fullBucket) true
         (request "device-123") cachedGoodTarget)
  = Ok (redirect 302 "https://cdn.test.com/system/1.1.0/update.img")
  /\ redirectCache (snd (@redirect_endpoint Semver.exactRanges (testEnv fullBucket) true
                           (request "device-123") cachedGoodTarget))
     !! "system-recovery-stable-jetkvm-v2"
     = Some "https://cdn.test.com/system/1.1.0/update.img"
  /\ releaseCacheKey (redirect_prefix true) (latestQueryOf (request "device-123"))
     <> releaseCacheKey (redirect_prefix false) (latestQueryOf (request "device-123"))
  /\ (redirectCache (snd (@redirect_endpoint Semver.exactRanges (testEnv fullBucket) true
                            (request "device-123") cachedGoodTarget))
      !! releaseCacheKey (redirect_prefix false) (latestQueryOf (request "device-123"))
      = None
      \/ redirectCache (snd (@redirect_endpoint Semver.exactRanges (testEnv fullBucket)
                               true (request "device-123") cachedGoodTarget))
         !! releaseCacheKey (redirect_prefix false) (latestQueryOf (request "device-123"))
         = redirectCache cachedGoodTarget
           !! releaseCacheKey (redirect_prefix false)
                (latestQueryOf (request "device-123"))).
Proof.
  split; [ vm_compute; reflexivity | ].
  split; [ vm_compute; reflexivity | ].
  apply (@redirect_cache_separates_requests Semver.exactRanges (testEnv fullBucket)
           false true (request "device-123") (request "device-123") cachedGoodTarget).
  left. discriminate.
Defined.

(** X10 at a bucket that refuses the listing. *)
Lemma Retrieve_error_reporting_example :
  @Retrieve Semver.exactRanges deniedEnv (request "device-123") (emptyWorld seedReleases)
  = (Throw (InternalServerError
              "Failed to get the latest release from S3: AccessDenied: Access Denied"),
     emptyWorld seedReleases).
Proof.
  destruct (@Retrieve_error_reporting Semver.exactRanges deniedEnv (request "device-123")
              (emptyWorld seedReleases)) as [_ H].
  destruct (H (rolloutQuery "device-123" false) accessDenied (emptyWorld seedReleases))
    as (e & Hrun & _ & _ & _ & _ & Hs3).
  - reflexivity.
  - vm_compute. reflexivity.
  - rewrite Hrun.
    rewrite (Hs3 "AccessDenied" "Access Denied" (Some 403%N));
      [ reflexivity | reflexivity | discriminate | discriminate ].
Defined.

(** X11 at the seed of the test suite, for a device of bucket 88: it is
    served the default release, 1.1.0. *)
Lemma Retrieve_rollout_response_example :
  versionsOf (fst (@Retrieve Semver.exactRanges (testEnv rolloutBucket)
                     (request "device-not-eligible-0") (emptyWorld seedReleases)))
  = Some ("1.1.0", "1.1.0").
Proof.
  destruct (@Retrieve_rollout_response Semver.exactRanges (testEnv rolloutBucket)
              (request "device-not-eligible-0")
              (rolloutQuery "device-not-eligible-0" false)
              (emptyWorld seedReleases) (cachedRollout seedReleases) app120 system120)
    as (latestApp & latestSystem & FA & FS & ->).
  - reflexivity.
  - reflexivity.
  - reflexivity.
  - reflexivity.
  - reflexivity.
  - vm_compute. reflexivity.
  - vm_compute in FA, FS. injection FA as <-. injection FS as <-.
    vm_compute. reflexivity.
Defined.

(** X12 at the seed of the test suite. *)
Lemma Retrieve_journal_example :
  queries (snd (@Retrieve Semver.exactRanges (testEnv rolloutBucket)
                  (request "device-123") (emptyWorld seedReleases)))
  = [Prisma.Upsert "1.2.0" app; Prisma.Upsert "1.2.0" system;
     Prisma.FindMany app 100; Prisma.FindMany system 100].
Proof.
  destruct (@Retrieve_journal Semver.exactRanges (testEnv rolloutBucket)
              (request "device-123") (rolloutQuery "device-123" false)
              (emptyWorld seedReleases) (cachedRollout seedReleases) app120 system120)
    as (-> & _).
  - reflexivity.
  - reflexivity.
  - reflexivity.
  - reflexivity.
  - vm_compute. reflexivity.
  - vm_compute. reflexivity.
Defined.

(** X13 at a table that gets a new row. *)
Lemma Retrieve_keeps_keys_unique_example :
  unique_keys (releases (snd (@Retrieve Semver.exactRanges (testEnv rolloutBucket)
                                (request "device-123") (emptyWorld oldReleases)))).
Proof.
  apply (@Retrieve_keeps_keys_unique Semver.exactRanges (testEnv rolloutBucket)
           (request "device-123") (emptyWorld oldReleases)).
  unfold unique_keys. cbn [map releases emptyWorld oldReleases].
  repeat (constructor;
          [ intros Hin; apply list_elem_of_In in Hin; simpl in Hin; intuition congruence | ]).
  constructor.
Defined.

(** X14 for a forced update of another device, after the caches have
    been emptied: the releases are resolved from the bucket again, and
    the table stays as the first request left it. *)
Lemma Retrieve_again_example :
  releases
    (snd (@Retrieve Semver.exactRanges (testEnv rolloutBucket) forcedRequest
            (emptyWorld
               (releases (snd (@Retrieve Semver.exactRanges (testEnv rolloutBucket)
                                 (request "device-123") (emptyWorld oldReleases)))))))
  = releases
      (emptyWorld
         (releases (snd (@Retrieve Semver.exactRanges (testEnv rolloutBucket)
                           (request "device-123") (emptyWorld oldReleases))))).
Proof.
  apply (@Retrieve_again_keeps_table Semver.exactRanges (testEnv rolloutBucket)
           (testEnv rolloutBucket) (request "device-123") forcedRequest
           (rolloutQuery "device-123" false)
           (rolloutQuery "device-not-eligible-0" true)
           (emptyWorld oldReleases) (cachedRollout oldReleases)
           (emptyWorld
              (releases (snd (@Retrieve Semver.exactRanges (testEnv rolloutBucket)
                                (request "device-123") (emptyWorld oldReleases)))))
           (cachedRollout
              (releases (snd (@Retrieve Semver.exactRanges (testEnv rolloutBucket)
                                (request "device-123") (emptyWorld oldReleases)))))
           app120 system120 app120 system120);
    [ reflexivity | reflexivity | reflexivity | reflexivity | reflexivity
    | reflexivity | reflexivity | reflexivity
    | vm_compute; reflexivity | reflexivity | vm_compute; reflexivity
    | reflexivity | reflexivity ].
Defined.

(** X15 at a table that has the system 1.2.0 and not the application
    1.2.0: the URL and the hash of the system are those of the table. *)
Lemma Retrieve_forceUpdate_example :
  fst (@Retrieve Semver.exactRanges (testEnv rolloutBucket) forcedRequest
         (emptyWorld oldReleases))
  = Ok (json
          {| appVersion := Some "1.2.0";
             appUrl := Some "https://cdn.test.com/app/1.2.0/jetkvm_app";
             appHash := Some "abc123hash120";
             appCachedAt := None;
             appMaxSatisfying := None;
             systemVersion := Some "1.2.0";
             systemUrl := Some "https://cdn.test.com/system/1.2.0";
             systemHash := Some "hash-1.2.0";
             systemCachedAt := None;
             systemMaxSatisfying := None |}).
Proof.
  rewrite (@Retrieve_forceUpdate_response Semver.exactRanges (testEnv rolloutBucket)
             forcedRequest (rolloutQuery "device-not-eligible-0" true)
             (emptyWorld oldReleases) (cachedRollout oldReleases) app120 system120).
  - vm_compute. reflexivity.
  - reflexivity.
  - reflexivity.
  - reflexivity.
  - reflexivity.
  - reflexivity.
  - vm_compute. reflexivity.
Defined.

(** X17 at a digest file with two blanks before the digest and a
    carriage return and a line feed after it. *)
Lemma verifyHash_white_space_example :
  verifyHash actualContent paddedHash (Some "app hash does not match") = Ok true.
Proof.
  apply (verifyHash_tolerates_white_space actualContent paddedHash
           [text "actual-content"]
           [text "  7ea2838f7b5a53b5ddf54978d93a3ffc5d68d14b257f741151434f69d42c7c5e";
            [Byte.x0d; Byte.x0a]]
           "  " (String "013" (String "010" EmptyString))).
  - reflexivity.
  - reflexivity.
  - vm_compute. reflexivity.
  - reflexivity.
  - reflexivity.
Defined.

(** X18 at a listing with a folder that is not a version. *)
Lemma listing_versions_example :
  validVersions
    (versionFolders
       (map (fun name => type_name app +:+ "/" +:+ name +:+ "/")
          ["1.0.0"; "not-semver"; "1.1.0"]))
  = List.filter Semver.valid ["1.0.0"; "not-semver"; "1.1.0"].
Proof.
  apply (listing_versions app ["1.0.0"; "not-semver"; "1.1.0"]).
  intros name [<- | [<- | [<- | []]]]; reflexivity.
Defined.

(** X20 at the legacy version of [skuBucket]. *)
Lemma resolveArtifactPath_without_sku_example :
  querySku None = DEFAULT_SKU
  /\ resolveArtifactPath (testEnv skuBucket) app "1.0.0" (querySku None) None
     = Ok "app/1.0.0/jetkvm_app".
Proof.
  apply (@resolveArtifactPath_without_sku Semver.exactRanges (testEnv skuBucket)
           app "1.0.0" None None).
  - left. reflexivity.
  - vm_compute. reflexivity.
Defined.

(** X21 at a token of Google, in November 2023. *)
Lemma authenticated_next_example :
  Auth.authenticated sampleVerify 1700000000000 (sessionRequest "google-token")
  = Auth.Next {| Auth.session := Some {| Auth.id_token := Some "google-token" |};
                 Auth.subject := Some "user-1";
                 Auth.issuer := Some "https://accounts.google.com" |}.
Proof.
  apply (authenticated_next sampleVerify 1700000000000 (sessionRequest "google-token")).
  - lia.
  - exists {| Auth.id_token := Some "google-token" |}, "google-token",
      {| Auth.sub := Some "user-1";
         Auth.iss := Some "https://accounts.google.com";
         Auth.exp := Some 2015000000%Z |}, "user-1", 2015000000%Z.
    repeat (split; [ first [ reflexivity | discriminate ] | ]).
    split; [ left; lia | reflexivity ].
Defined.

(** X22 at a token that does not verify. *)
Lemma authenticated_rejections_example :
  Auth.authenticated sampleVerify 1700000000000 (sessionRequest "forged-token")
  = Auth.Rejected (Auth.UnauthorizedError "Invalid ID token")
  /\ exists session idToken error,
       Auth.session (sessionRequest "forged-token") = Some session
       /\ Auth.id_token session = Some idToken
       /\ sampleVerify idToken = Throw error.
Proof.
  assert (Hissuer : requires_issuer sampleVerify).
  { intros idToken payload. unfold sampleVerify.
    destruct (String.eqb idToken "google-token"); [ | discriminate ].
    intros [= <-]. reflexivity. }
  split; [ reflexivity | ].
  destruct (authenticated_rejections sampleVerify 1700000000000
              (sessionRequest "forged-token")
              (Auth.UnauthorizedError "Invalid ID token") Hissuer eq_refl)
    as [[_ Hnone] | (session & Hs & [[Hno _] | (idToken & Ht & Hrest)])].
  - discriminate Hnone.
  - discriminate Hno.
  - destruct Hrest as [[_ (error & Herr)] | (payload & _ & Hcases)].
    + exists session, idToken, error. auto.
    + destruct Hcases as [[H _] | [[H _] | [H _]]]; discriminate H.
Defined.

(** X24 at two devices of bucket 5. *)
Lemma Retrieve_device_by_bucket_example :
  @Retrieve Semver.exactRanges (testEnv rolloutBucket)
    (for_device "device-eligible-3" (request "")) (emptyWorld seedReleases)
  = @Retrieve Semver.exactRanges (testEnv rolloutBucket)
      (for_device "device-7" (request "")) (emptyWorld seedReleases).
Proof.
  apply (@Retrieve_device_by_bucket Semver.exactRanges (testEnv rolloutBucket)
           (request "") "device-eligible-3" "device-7" (emptyWorld seedReleases)).
  - discriminate.
  - discriminate.
  - vm_compute. reflexivity.
Defined.

(** X25 at the applications of [fullBucket]: of 1.0.0, 1.1.0 and the
    prerelease 2.0.0-beta.1, the redirect is to 1.1.0. *)
Lemma redirect_target_example :
  exists response commonPrefixes latestVersion path,
    ListObjectsV2Command (s3Client (testEnv fullBucket))
      {| Prefix := "app/"; Delimiter := Some "/"; MaxKeys := None |} = Ok response
    /\ CommonPrefixes response = Some commonPrefixes
    /\ In (Some latestVersion) (versionFolders commonPrefixes)
    /\ stable latestVersion = true
    /\ (forall v, In (Some v) (versionFolders commonPrefixes) ->
          stable v = true -> version_le v latestVersion)
    /\ resolveArtifactPath (testEnv fullBucket) app latestVersion DEFAULT_SKU None
       = Ok path
    /\ "https://cdn.test.com/app/1.1.0/jetkvm_app"
       = baseUrl (testEnv fullBucket) +:+ "/" +:+ path.
Proof.
  apply (@redirect_target_is_highest_version Semver.exactRanges (testEnv fullBucket)
           false (request "device-123") (emptyWorld [])
           "https://cdn.test.com/app/1.1.0/jetkvm_app" exactRanges_star).
  - reflexivity.
  - vm_compute. reflexivity.
Defined.
